(** * Cross-retailer price comparison: the long-form and short-form pipelines

    A shallow embedding of
      Price-Comparison-Tool/dynamic-price-compare-long.py
      Price-Comparison-Tool/dynamic-price-compare-short.py
    together with the parts of Python, difflib and pandas they call.

    Conventions.
    - Python floats are modelled by exact rationals ([Q]); [round] is
      Python's round-half-to-even on the exact value.
    - A pandas frame is the list of its rows in index order; a missing
      value (NaN, NA, None) is [Missing] in a sheet and [None] in a
      numeric column.
    - Text is [string]; characters are bytes, so the model covers names
      and codes written in ASCII. *)

From Stdlib Require Import String Ascii List Sorted Bool Arith ZArith QArith
  Qround Lia Lqa.
Import ListNotations.

Open Scope string_scope.
Open Scope list_scope.
Open Scope nat_scope.

(** ** Python built-ins used by the scripts *)

Module Py.

(** [str.strip()] with no argument removes the ASCII white space
    characters: TAB, LF, VT, FF, CR, FS, GS, RS, US and SPACE. *)
Definition isspace (c : ascii) : bool :=
  let n := nat_of_ascii c in
  ((9 <=? n) && (n <=? 13)) || ((28 <=? n) && (n <=? 32)).

Fixpoint lstrip (s : string) : string :=
  match s with
  | EmptyString => EmptyString
  | String c s' => if isspace c then lstrip s' else s
  end.

(** Right strip: a character is kept when something non-blank follows it
    or it is itself non-blank. *)
Fixpoint rstrip (s : string) : string :=
  match s with
  | EmptyString => EmptyString
  | String c s' =>
      match rstrip s' with
      | EmptyString => if isspace c then EmptyString else String c EmptyString
      | r => String c r
      end
  end.

Definition strip (s : string) : string := rstrip (lstrip s).

(** [str.lower()] on ASCII letters. *)
Definition lower_char (c : ascii) : ascii :=
  let n := nat_of_ascii c in
  if (65 <=? n) && (n <=? 90) then ascii_of_nat (n + 32) else c.

Fixpoint lower (s : string) : string :=
  match s with
  | EmptyString => EmptyString
  | String c s' => String (lower_char c) (lower s')
  end.

(** [round(x, ndigits)]: the multiple of [10^-ndigits] nearest to [x],
    ties going to the even multiple. *)
Definition round_half_even (y : Q) : Z :=
  let f := Qfloor y in
  match ((y - inject_Z f) ?= (1 # 2))%Q with
  | Lt => f
  | Gt => (f + 1)%Z
  | Eq => if Z.even f then f else (f + 1)%Z
  end.

Definition round (x : Q) (ndigits : nat) : Q :=
  let s := Z.pow_pos 10 (Pos.of_nat ndigits) in
  match ndigits with
  | O => inject_Z (round_half_even x)
  | S _ => Qmake (round_half_even (x * inject_Z s)%Q) (Z.to_pos s)
  end.

(** [min(xs)] over numbers: the first element that no later element is
    strictly below. *)
Fixpoint min_from (m : Q) (xs : list Q) : Q :=
  match xs with
  | [] => m
  | x :: xs' => if Qlt_le_dec x m then min_from x xs' else min_from m xs'
  end.

Definition min (xs : list Q) : option Q :=
  match xs with
  | [] => None
  | x :: xs' => Some (min_from x xs')
  end.

(** [max(xs)]: the first element that no later element is strictly above. *)
Fixpoint max_from (m : Q) (xs : list Q) : Q :=
  match xs with
  | [] => m
  | x :: xs' => if Qlt_le_dec m x then max_from x xs' else max_from m xs'
  end.

(** [sum(xs)] starting from 0. *)
Definition sum (xs : list Q) : Q := fold_left Qplus xs 0%Q.

(** [min(d, key=d.get)] over a dict given as its items in insertion
    order: the first key whose value no later value is strictly below. *)
Fixpoint min_key_from {K} (k : K) (m : Q) (kvs : list (K * Q)) : K :=
  match kvs with
  | [] => k
  | (k', x) :: kvs' =>
      if Qlt_le_dec x m then min_key_from k' x kvs' else min_key_from k m kvs'
  end.

Definition min_key {K} (kvs : list (K * Q)) : option K :=
  match kvs with
  | [] => None
  | (k, x) :: kvs' => Some (min_key_from k x kvs')
  end.

End Py.

(** ** difflib.SequenceMatcher(None, a, b).ratio()

    The matcher is built with [isjunk=None] and the default
    [autojunk=True], as both scripts do. *)

Module Difflib.

Section Matcher.

Variables a b : list ascii.

(** [s[i]] for an index in range. *)
Definition item (s : list ascii) (i : nat) : ascii := nth i s zero.

(** [__chain_b]: with no junk predicate [bjunk] stays empty; when [b]
    has 200 elements or more, the elements occurring more than
    [n // 100 + 1] times are "popular" and leave [b2j]. *)
Definition isbjunk (c : ascii) : bool := false.

Definition popular (c : ascii) : bool :=
  (200 <=? length b) && (length b / 100 + 1 <? count_occ ascii_dec b c).

Fixpoint indices_from (j : nat) (s : list ascii) (c : ascii) : list nat :=
  match s with
  | [] => []
  | x :: s' =>
      if Ascii.eqb x c then j :: indices_from (S j) s' c
      else indices_from (S j) s' c
  end.

Definition b2j (c : ascii) : list nat :=
  if popular c then [] else indices_from 0 b c.

(** The dict [j2len], as its items, newest first. *)
Definition dict := list (nat * nat).

Fixpoint get (d : dict) (j : nat) : nat :=
  match d with
  | [] => 0
  | (j', k) :: d' => if j' =? j then k else get d' j
  end.

(** [j2len.get(j-1, 0)]: the key [-1] is never present. *)
Definition get_prev (d : dict) (j : nat) : nat :=
  match j with
  | O => 0
  | S j' => get d j'
  end.

(** A match [(besti, bestj, bestsize)]. *)
Definition block := (nat * nat * nat)%type.

Definition size (m : block) : nat := snd m.

(** The inner loop of [find_longest_match], over [b2j[a[i]]]. *)
Fixpoint scan_row (i blo bhi : nat) (j2len : dict) (js : list nat)
         (newj2len : dict) (best : block) : dict * block :=
  match js with
  | [] => (newj2len, best)
  | j :: js' =>
      if j <? blo then scan_row i blo bhi j2len js' newj2len best
      else if bhi <=? j then (newj2len, best)
      else
        let k := get_prev j2len j + 1 in
        scan_row i blo bhi j2len js' ((j, k) :: newj2len)
                 (if size best <? k then (i + 1 - k, j + 1 - k, k) else best)
  end.

(** The outer loop, over [range(alo, ahi)]. *)
Fixpoint scan (rows : list nat) (blo bhi : nat) (j2len : dict) (best : block)
  : block :=
  match rows with
  | [] => best
  | i :: rows' =>
      let '(newj2len, best') :=
        scan_row i blo bhi j2len (b2j (item a i)) [] best in
      scan rows' blo bhi newj2len best'
  end.

(** The loops that extend a match to the left; [junk] tells whether the
    loop is the one for junk elements or the one for the others. *)
Fixpoint extend_back (junk : bool) (alo blo besti bestj bestsize : nat)
         {struct besti} : block :=
  match besti, bestj with
  | S i', S j' =>
      if (alo <? besti) && (blo <? bestj)
         && Bool.eqb (isbjunk (item b j')) junk
         && Ascii.eqb (item a i') (item b j')
      then extend_back junk alo blo i' j' (S bestsize)
      else (besti, bestj, bestsize)
  | _, _ => (besti, bestj, bestsize)
  end.

(** The loops that extend a match to the right; [n] counts the
    positions left before [ahi]. *)
Fixpoint extend_fwd (junk : bool) (ahi bhi besti bestj n bestsize : nat)
  : nat :=
  match n with
  | O => bestsize
  | S n' =>
      if (besti + bestsize <? ahi) && (bestj + bestsize <? bhi)
         && Bool.eqb (isbjunk (item b (bestj + bestsize))) junk
         && Ascii.eqb (item a (besti + bestsize)) (item b (bestj + bestsize))
      then extend_fwd junk ahi bhi besti bestj n' (S bestsize)
      else bestsize
  end.

Definition find_longest_match (alo ahi blo bhi : nat) : block :=
  let '(i, j, k) := scan (seq alo (ahi - alo)) blo bhi [] (alo, blo, 0) in
  let '(i, j, k) := extend_back false alo blo i j k in
  let k := extend_fwd false ahi bhi i j (ahi - (i + k)) k in
  let '(i, j, k) := extend_back true alo blo i j k in
  let k := extend_fwd true ahi bhi i j (ahi - (i + k)) k in
  (i, j, k).

(** [get_matching_blocks]: the work queue visits the window to the left
    and the window to the right of each match; the blocks are then
    sorted, which is the order produced here.  [fuel] bounds the depth. *)
Fixpoint matching_blocks (fuel alo ahi blo bhi : nat) : list block :=
  match fuel with
  | O => []
  | S fuel' =>
      let '(i, j, k) := find_longest_match alo ahi blo bhi in
      if k =? 0 then []
      else
        (if (alo <? i) && (blo <? j)
         then matching_blocks fuel' alo i blo j else [])
        ++ (i, j, k)
        :: (if (i + k <? ahi) && (j + k <? bhi)
            then matching_blocks fuel' (i + k) ahi (j + k) bhi else [])
  end.

Definition get_matching_blocks : list block :=
  matching_blocks (S (length a)) 0 (length a) 0 (length b).

(** [sum(triple[-1] for triple in self.get_matching_blocks())]; merging
    adjacent blocks and the final dummy block leave the sum unchanged. *)
Definition matches : nat := list_sum (map size get_matching_blocks).

End Matcher.

(** A match that lies inside the window it was searched in. *)
Definition inside (alo ahi blo bhi : nat) (m : block) : Prop :=
  let '(i, j, k) := m in
  alo <= i /\ i + k <= ahi /\ blo <= j /\ j + k <= bhi.

(** What an item [(j, k)] of [j2len] satisfies when at most [n] rows of
    the window have been scanned: a run of [k] equal elements ending at
    [j] that starts inside the window. *)
Definition run_ok (blo n : nat) (jk : nat * nat) : Prop :=
  blo <= fst jk /\ snd jk <= fst jk + 1 - blo /\ snd jk <= n.

(** [_calculate_ratio(matches, length)]. *)
Definition calculate_ratio (matches length : nat) : Q :=
  match length with
  | O => 1
  | S _ => Qmake (2 * Z.of_nat matches) (Pos.of_nat length)
  end.

Definition ratio (a b : string) : Q :=
  let la := list_ascii_of_string a in
  let lb := list_ascii_of_string b in
  calculate_ratio (matches la lb) (length la + length lb).

End Difflib.

(** ** pandas operations used by the scripts *)

Module Pandas.

(** A cell of a sheet read by [read_excel], as the object it holds:
    [Text s] is the [str] [s]; [Missing] is a missing cell (NaN);
    [Value s] is any other value (an int, a float, a bool, a date), [s]
    being the text that [astype(str)] makes of it. *)
Inductive cell :=
| Text (s : string)
| Missing
| Value (s : string).

(** A cell of the price column.  [Number q] is a cell that
    [pd.to_numeric] converts, with its value; [Blank] is a missing cell;
    [Unparseable s] is text that [pd.to_numeric] cannot convert. *)
Inductive price_cell :=
| Number (q : Q)
| Blank
| Unparseable (s : string).

(** [pd.to_numeric(column, errors="coerce")], cell by cell. *)
Definition to_numeric_coerce (p : price_cell) : option Q :=
  match p with
  | Number q => Some q
  | Blank => None
  | Unparseable _ => None
  end.

(** [column.astype(str)], cell by cell: a missing cell becomes the text
    of [float('nan')]. *)
Definition astype_str (c : cell) : string :=
  match c with
  | Text s => s
  | Missing => "nan"
  | Value s => s
  end.

(** [pd.isna] / [pd.notna] on a value that is missing or not. *)
Definition isna {A} (c : option A) : bool :=
  match c with
  | Some _ => false
  | None => true
  end.

Definition notna {A} (c : option A) : bool := negb (isna c).

(** [pd.isna] / [pd.notna] on a cell of a sheet, as [dropna] applies
    them. *)
Definition cell_isna (c : cell) : bool :=
  match c with
  | Missing => true
  | Text _ | Value _ => false
  end.

Definition cell_notna (c : cell) : bool := negb (cell_isna c).

(** [isinstance(c, str)]. *)
Definition is_text (c : cell) : bool :=
  match c with
  | Text _ => true
  | Missing | Value _ => false
  end.

(** A sheet: its header and its rows.  A row carries a cell for each
    column the scripts read; the cell of a column that the header lacks
    is never looked at. *)
Record raw_row := {
  raw_Item_Name : cell;
  raw_New_Price : price_cell;
  raw_Normalized_Code : cell;
  raw_Product_URL : cell
}.

Record raw_table := {
  columns : list string;
  rows : list raw_row
}.

(** [df.columns = df.columns.str.strip()] followed by
    [all(col in df.columns for col in required)]. *)
Definition has_columns (required : list string) (df : raw_table) : bool :=
  forallb (fun col => existsb (String.eqb col) (map Py.strip (columns df)))
          required.

(** ** groupby

    [df.groupby(key)] iterates over the distinct keys in sorted order;
    each group keeps the rows in frame order. *)
Fixpoint insert_key (k : string) (ks : list string) : list string :=
  match ks with
  | [] => [k]
  | k' :: ks' =>
      match String.compare k k' with
      | Lt => k :: ks
      | Eq => ks
      | Gt => k' :: insert_key k ks'
      end
  end.

Definition sorted_keys (ks : list string) : list string :=
  fold_right insert_key [] ks.

Section GroupBy.
Context {A : Type} (key : A -> string).

Definition rows_of (df : list A) (k : string) : list A :=
  filter (fun r => String.eqb (key r) k) df.

Definition groupby (df : list A) : list (string * list A) :=
  map (fun k => (k, rows_of df k)) (sorted_keys (map key df)).

(** [column.isin(codes)]. *)
Definition isin (codes : list string) (r : A) : bool :=
  existsb (String.eqb (key r)) codes.
End GroupBy.

End Pandas.

(** ** Retailers

    Both scripts hold a dict literal [RETAILER_FOLDERS] over the same
    three folders, written in the same order; iteration follows the order
    in which the items are written.  [retailer] names the folder.  The
    scripts write the folders under different keys, "2B", "Btech" and
    "Raneen" in the long-form script, "2B", "BTECH" and "RANEEN" in the
    short-form one: see [Long.key] and [Short.key].  Within one script a
    retailer stands for its key. *)
Inductive retailer := R_2B | R_Btech | R_Raneen.

Definition RETAILER_FOLDERS : list retailer := [R_2B; R_Btech; R_Raneen].

Definition retailer_eqb (r1 r2 : retailer) : bool :=
  match r1, r2 with
  | R_2B, R_2B | R_Btech, R_Btech | R_Raneen, R_Raneen => true
  | _, _ => false
  end.

(** Position of a key in the iteration order of [RETAILER_FOLDERS]. *)
Definition position (r : retailer) : nat :=
  match r with
  | R_2B => 0
  | R_Btech => 1
  | R_Raneen => 2
  end.

(** [column.nunique()] on a column of retailers. *)
Fixpoint distinct (rs : list retailer) : list retailer :=
  match rs with
  | [] => []
  | r :: rs' =>
      if existsb (retailer_eqb r) rs' then distinct rs' else r :: distinct rs'
  end.

Definition nunique (rs : list retailer) : nat := length (distinct rs).

(** The files found for one category: [category_map[category]], a dict
    keyed by retailer.  The scan of step 1 walks [RETAILER_FOLDERS] in
    order, so the dict's items come in that order.  Each file is taken as
    the sheet that [pd.read_excel] returns for it; a file that cannot be
    read is outside the model. *)
Definition sources := retailer -> option Pandas.raw_table.

Definition items (srcs : sources) : list (retailer * Pandas.raw_table) :=
  flat_map (fun r => match srcs r with
                     | Some df => [(r, df)]
                     | None => []
                     end) RETAILER_FOLDERS.

(** ** dynamic-price-compare-long.py *)

Module Long.

Import Pandas.

Definition REQUIRED_COLUMNS : list string :=
  ["Item Name"; "New Price"; "Normalized Code"].
Definition HIGHLIGHT_CONFIDENCE_WEAK : Q := 30.
Definition HIGHLIGHT_CONFIDENCE_UNMATCHED : Q := 10.

(** The keys of [RETAILER_FOLDERS] in this script. *)
Definition key (r : retailer) : string :=
  match r with
  | R_2B => "2B"
  | R_Btech => "Btech"
  | R_Raneen => "Raneen"
  end.

(** [match_score(a, b)] on two values of the name columns of a merged
    row, each a [str] or missing. *)
Definition match_score (a b : option string) : Q :=
  match a, b with
  | Some x, Some y => Difflib.ratio x y
  | _, _ => 0
  end.

(** A row of a prepared frame. *)
Record listing := {
  Item_Name : string;
  New_Price : option Q;
  Normalized_Code : string;
  Retailer : retailer
}.

(** [prepare(df, retailer)]. *)
Definition prepare_row (r : retailer) (row : raw_row) : listing :=
  {| Item_Name := Py.strip (astype_str (raw_Item_Name row));
     New_Price := to_numeric_coerce (raw_New_Price row);
     Normalized_Code :=
       Py.lower (Py.strip (astype_str (raw_Normalized_Code row)));
     Retailer := r |}.

Definition prepare (df : raw_table) (r : retailer) : option (list listing) :=
  if negb (has_columns REQUIRED_COLUMNS df) then None
  else
    Some (map (prepare_row r)
              (filter (fun row => cell_notna (raw_Normalized_Code row))
                      (rows df))).

(** The three columns that a merged row holds for one retailer. *)
Record entry := {
  entry_Item_Name : string;
  entry_Price : option Q;
  entry_Item_SKU : string
}.

(** A merged row: the code, one [entry] per retailer in the order of
    [RETAILER_FOLDERS], and the three summary columns. *)
Record merged := {
  merged_Normalized_Code : string;
  entries : list (retailer * entry);
  Confidence : Q;
  Best_Price : option Q;
  Lowest_Retailer : option retailer
}.

(** The loop over [RETAILER_FOLDERS] that fills a merged row:
    [match = group[group["Retailer"] == retailer]], then [match.iloc[0]]
    or the "N/A" placeholder. *)
Definition entry_of (code : string) (group : list listing) (r : retailer)
  : retailer * entry :=
  match filter (fun l => retailer_eqb (Retailer l) r) group with
  | l :: _ =>
      (r, {| entry_Item_Name := Item_Name l;
             entry_Price := New_Price l;
             entry_Item_SKU := code |})
  | [] =>
      (r, {| entry_Item_Name := "N/A";
             entry_Price := None;
             entry_Item_SKU := code |})
  end.

Definition merge (code : string) (group : list listing)
  : list (retailer * entry) :=
  map (entry_of code group) RETAILER_FOLDERS.

(** The dict [prices], as its items in insertion order. *)
Definition prices_of (es : list (retailer * entry)) : list (retailer * Q) :=
  flat_map (fun e => match entry_Price (snd e) with
                     | Some p => [(fst e, p)]
                     | None => []
                     end) es.

(** [(min(prices.values()), min(prices, key=prices.get)) if prices
     else (None, None)]. *)
Definition best (prices : list (retailer * Q)) : option Q * option retailer :=
  match prices with
  | [] => (None, None)
  | _ :: _ => (Py.min (map snd prices), Py.min_key prices)
  end.

(** The body of the first loop. *)
Definition exact_row (code : string) (group : list listing) : merged :=
  let es := merge code group in
  let bp := best (prices_of es) in
  {| merged_Normalized_Code := code;
     entries := es;
     Confidence := 100;
     Best_Price := fst bp;
     Lowest_Retailer := snd bp |}.

(** [names = [merged.get(f"{r} Item Name").values[0]
              for r in RETAILER_FOLDERS]]. *)
Definition names (es : list (retailer * entry)) : list (option string) :=
  map (fun e => Some (entry_Item_Name (snd e))) es.

(** [names[i]]; a merged row has three entries, so the index is in
    range. *)
Definition name_at (es : list (retailer * entry)) (i : nat)
  : option string :=
  nth i (names es) None.

(** The argument of [round]: [max([...])] over the three pairs of names. *)
Definition max_score (es : list (retailer * entry)) : Q :=
  Py.max_from (match_score (name_at es 0) (name_at es 1))
              [match_score (name_at es 0) (name_at es 2);
               match_score (name_at es 1) (name_at es 2)].

(** [round(max([...]) * 100, 2)]. *)
Definition confidence (es : list (retailer * entry)) : Q :=
  Py.round (max_score es * 100) 2.

(** The body of the second loop. *)
Definition fuzzy_row (code : string) (group : list listing) : merged :=
  let es := merge code group in
  let bp := best (prices_of es) in
  {| merged_Normalized_Code := code;
     entries := es;
     Confidence := confidence es;
     Best_Price := fst bp;
     Lowest_Retailer := snd bp |}.

(** The tables handed to [export_results]. *)
Record output := {
  matched_rows : list merged;
  weak_matched_rows : list merged;
  unmatched_rows : list merged
}.

Definition group_retailers (group : list listing) : list retailer :=
  map Retailer group.

(** First loop: [for code, group in grouped]. *)
Definition primary_pass (combined : list listing) : list merged :=
  flat_map (fun cg =>
              if nunique (group_retailers (snd cg)) <? 2 then []
              else [exact_row (fst cg) (snd cg)])
           (groupby Normalized_Code combined).

(** [all_seen_codes = set(grouped.groups.keys())]. *)
Definition all_seen_codes (combined : list listing) : list string :=
  map fst (groupby Normalized_Code combined).

(** [remaining = combined[~combined["Normalized Code"].isin(all_seen_codes)]]. *)
Definition remaining (combined : list listing) : list listing :=
  filter (fun l => negb (isin Normalized_Code (all_seen_codes combined) l))
         combined.

(** Second loop: [for code, group in by_name], on any pool of listings. *)
Definition fallback_pass (pool : list listing) : list merged * list merged :=
  let scored :=
    flat_map (fun cg =>
                if nunique (group_retailers (snd cg)) <? 2 then []
                else [fuzzy_row (fst cg) (snd cg)])
             (groupby Normalized_Code pool) in
  (filter (fun m => Qle_bool HIGHLIGHT_CONFIDENCE_WEAK (Confidence m)) scored,
   filter (fun m => negb (Qle_bool HIGHLIGHT_CONFIDENCE_WEAK (Confidence m)))
          scored).

(** Both passes over a combined frame. *)
Definition compare (combined : list listing) : output :=
  let fb := fallback_pass (remaining combined) in
  {| matched_rows := primary_pass combined;
     weak_matched_rows := fst fb;
     unmatched_rows := snd fb |}.

(** [all_dfs]: the prepared frames of the sources that have the required
    columns. *)
Definition all_dfs (srcs : sources) : list (list listing) :=
  flat_map (fun rd => match prepare (snd rd) (fst rd) with
                      | Some df => [df]
                      | None => []
                      end) (items srcs).

(** One iteration of the loop over categories; [None] when the category
    is skipped. *)
Definition process_category (srcs : sources) : option output :=
  if length (items srcs) <? 2 then None
  else
    let dfs := all_dfs srcs in
    if length dfs <? 2 then None
    else Some (compare (concat dfs)).

End Long.

(** ** dynamic-price-compare-short.py *)

Module Short.

Import Pandas.

Definition REQUIRED_COLUMNS : list string :=
  ["Item Name"; "New Price"; "Normalized Code"; "Product URL"].
Definition CONFIDENCE_THRESHOLD : Q := 10.
Definition HIGHLIGHT_THRESHOLD : Q := 30.

(** The keys of [RETAILER_FOLDERS] in this script. *)
Definition key (r : retailer) : string :=
  match r with
  | R_2B => "2B"
  | R_Btech => "BTECH"
  | R_Raneen => "RANEEN"
  end.

(** Exceptions that escape the loop over the groups. *)
Inductive exn := TypeError | ValueError.

Inductive outcome (A : Type) :=
| Ok (a : A)
| Raise (e : exn).
Arguments Ok {A} a.
Arguments Raise {A} e.

Definition bind {A B} (m : outcome A) (f : A -> outcome B) : outcome B :=
  match m with
  | Ok a => f a
  | Raise e => Raise e
  end.

Notation "x <- m ;; k" := (bind m (fun x => k))
  (at level 61, m at next level, right associativity).

Fixpoint mapM {A B} (f : A -> outcome B) (l : list A) : outcome (list B) :=
  match l with
  | [] => Ok []
  | x :: l' => y <- f x ;; ys <- mapM f l' ;; Ok (y :: ys)
  end.

(** [[(names[i], names[j]) for i in range(len(names))
      for j in range(i + 1, len(names))]]. *)
Fixpoint pairs {A} (names : list A) : list (A * A) :=
  match names with
  | [] => []
  | x :: names' => map (pair x) names' ++ pairs names'
  end.

(** [SequenceMatcher(None, a, b).ratio()] on two cells of the name
    column, which this script leaves as read: a cell that is not a [str]
    (a missing cell, a number, a date, a boolean) has no length and the
    call raises. *)
Definition score (ab : cell * cell) : outcome Q :=
  match ab with
  | (Text a, Text b) => Ok (Difflib.ratio a b)
  | _ => Raise TypeError
  end.

(** The ratio of a pair of names that are both text. *)
Definition pair_ratio (ab : string * string) : Q :=
  Difflib.ratio (fst ab) (snd ab).

(** The mean that [compute_confidence] rounds. *)
Definition mean (scores : list Q) : Q :=
  Py.sum scores / inject_Z (Z.of_nat (length scores)).

(** [compute_confidence(names)]. *)
Definition compute_confidence (names : list cell) : outcome Q :=
  if length names <? 2 then Ok 0%Q
  else
    scores <- mapM score (pairs names) ;;
    Ok (Py.round (mean scores * 100) 1).

(** A row of the combined frame. *)
Record listing := {
  Item_Name : cell;
  New_Price : option Q;
  Normalized_Code : string;
  Product_URL : cell;
  Source : retailer
}.

(** The per-file block of the main loop. *)
Definition prepare_row (r : retailer) (row : raw_row) : listing :=
  {| Item_Name := raw_Item_Name row;
     New_Price := to_numeric_coerce (raw_New_Price row);
     Normalized_Code := Py.lower (astype_str (raw_Normalized_Code row));
     Product_URL := raw_Product_URL row;
     Source := r |}.

Definition prepare (df : raw_table) (r : retailer) : option (list listing) :=
  if negb (has_columns REQUIRED_COLUMNS df) then None
  else Some (map (prepare_row r) (rows df)).

(** A result row. *)
Record result := {
  result_Item_Name : cell;
  result_Normalized_Code : string;
  Confidence : Q;
  Best_Price : Q;
  Lowest_Retailer : retailer;
  result_Product_URL : cell
}.

(** [group.dropna(subset=["New Price"])]. *)
Definition dropna_price (group : list listing) : list listing :=
  filter (fun l => notna (New_Price l)) group.

(** [group["New Price"].idxmin()] followed by [group.loc[best_idx]]: the
    first row holding the smallest price, missing prices being skipped. *)
Fixpoint idxmin_from (bestrow : listing) (m : Q) (group : list listing)
  : listing :=
  match group with
  | [] => bestrow
  | l :: group' =>
      match New_Price l with
      | Some p =>
          if Qlt_le_dec p m then idxmin_from l p group'
          else idxmin_from bestrow m group'
      | None => idxmin_from bestrow m group'
      end
  end.

Fixpoint idxmin (group : list listing) : option (listing * Q) :=
  match group with
  | [] => None
  | l :: group' =>
      match New_Price l with
      | Some p =>
          let r := idxmin_from l p group' in
          match New_Price r with
          | Some m => Some (r, m)
          | None => None
          end
      | None => idxmin group'
      end
  end.

(** The body of the loop over the groups: [None] stands for [continue]. *)
Definition group_result (code : string) (group : list listing)
  : outcome (option result) :=
  let group := dropna_price group in
  if length group <? 2 then Ok None
  else
    confidence <- compute_confidence (map Item_Name group) ;;
    match idxmin group with
    | None => Raise ValueError
    | Some (best_row, price) =>
        Ok (Some {| result_Item_Name := Item_Name best_row;
                    result_Normalized_Code := code;
                    Confidence := confidence;
                    Best_Price := price;
                    Lowest_Retailer := Source best_row;
                    result_Product_URL := Product_URL best_row |})
    end.

(** A row priced strictly above [m], or unpriced; a row priced at [m] or
    above, or unpriced. *)
Definition above (m : Q) (l : listing) : Prop :=
  forall q, New_Price l = Some q -> (m < q)%Q.

Definition not_below (m : Q) (l : listing) : Prop :=
  forall q, New_Price l = Some q -> (m <= q)%Q.

(** Two rows in the iteration order of their retailers. *)
Definition by_position (l1 l2 : listing) : Prop :=
  position (Source l1) <= position (Source l2).

(** The tables handed to [export_results]. *)
Record output := {
  matched : list result;
  unmatched : list result
}.

Definition cat_options {A} (l : list (option A)) : list A :=
  flat_map (fun o => match o with Some a => [a] | None => [] end) l.

(** The loop over [combined.groupby("Normalized Code")]. *)
Definition compare (combined : list listing) : outcome output :=
  results <- mapM (fun cg => group_result (fst cg) (snd cg))
                  (groupby Normalized_Code combined) ;;
  let emitted := cat_options results in
  Ok {| matched :=
          filter (fun r => Qle_bool CONFIDENCE_THRESHOLD (Confidence r))
                 emitted;
        unmatched :=
          filter (fun r => negb (Qle_bool CONFIDENCE_THRESHOLD (Confidence r)))
                 emitted |}.

(** [all_data]: the frames of the sources that have the required
    columns. *)
Definition all_data (srcs : sources) : list (list listing) :=
  flat_map (fun rd => match prepare (snd rd) (fst rd) with
                      | Some df => [df]
                      | None => []
                      end) (items srcs).

(** One iteration of the loop over categories; [Ok None] when the
    category is skipped. *)
Definition process_category (srcs : sources) : outcome (option output) :=
  if length (items srcs) <? 2 then Ok None
  else
    let dfs := all_data srcs in
    if length dfs <? 2 then Ok None
    else out <- compare (concat dfs) ;; Ok (Some out).

End Short.

(** ** The leftover pool as the specification words it

    Section 4.2: the listings whose normalized code did not yield any
    group with two or more distinct retailers.  It is compared below with
    [Long.remaining], which is what the script computes. *)

Module Spec.

Definition yields_group (combined : list Long.listing) (code : string) : bool :=
  2 <=? nunique (Long.group_retailers
                   (Pandas.rows_of Long.Normalized_Code combined code)).

Definition leftover_listings (combined : list Long.listing)
  : list Long.listing :=
  filter (fun l => negb (yields_group combined (Long.Normalized_Code l)))
         combined.

End Spec.

(** ** Input sheets used as examples *)

Module Scenario.

Import Pandas.

Definition header : list string :=
  ["Item Name"; "New Price"; "Normalized Code"; "Product URL"].

Definition row (name : string) (price : price_cell) (code : cell) : raw_row :=
  {| raw_Item_Name := Text name;
     raw_New_Price := price;
     raw_Normalized_Code := code;
     raw_Product_URL := Text "https://shop.example/p" |}.

Definition sheet (rs : list raw_row) : raw_table :=
  {| columns := header; rows := rs |}.

(** A category found at 2B and Btech only. *)
Definition two_sources (t_2b t_btech : raw_table) : sources :=
  fun r =>
    match r with
    | R_2B => Some t_2b
    | R_Btech => Some t_btech
    | R_Raneen => None
    end.

Definition three_sources (t_2b t_btech t_raneen : raw_table) : sources :=
  fun r =>
    match r with
    | R_2B => Some t_2b
    | R_Btech => Some t_btech
    | R_Raneen => Some t_raneen
    end.

(** Same code at two retailers. *)
Definition widget : sources :=
  two_sources (sheet [row "Widget X1" (Number 100) (Text "x1")])
              (sheet [row "Widget X1 Pro" (Number 90) (Text "x1")]).

(** Two listings without a usable code: the code cell is empty. *)
Definition blender : sources :=
  two_sources (sheet [row "Blender 500W" (Number 200) Missing])
              (sheet [row "Blender 500 Watt" (Number 180) Missing]).

(** Two listings whose codes differ. *)
Definition distinct_codes : sources :=
  two_sources (sheet [row "Blender 500W" (Number 200) (Text "a1")])
              (sheet [row "Blender 500 Watt" (Number 180) (Text "b2")]).

(** Two listings of one retailer under the same code. *)
Definition same_retailer_pair : sources :=
  two_sources (sheet [row "Kettle 1.7L" (Number 10) (Text "k17");
                      row "Kettle 1.7 L" (Number 12) (Text "k17")])
              (sheet [row "Iron 2000W" (Number 5) (Text "i20")]).


(** One retailer lists the code twice, the cheaper listing second. *)
Definition duplicate_listing : sources :=
  two_sources (sheet [row "Widget X1" (Number 100) (Text "x1");
                      row "Widget X1 refurbished" (Number 50) (Text "x1")])
              (sheet [row "Widget X1 Pro" (Number 80) (Text "x1")]).

(** A price cell that is not a number. *)
Definition unparseable_price : sources :=
  two_sources (sheet [row "Widget X1" (Unparseable "call us") (Text "x1")])
              (sheet [row "Widget X1 Pro" (Number 90) (Text "x1")]).

(** Two listings without a code. *)
Definition codeless : sources :=
  two_sources (sheet [row "Widget X1" (Number 100) Missing])
              (sheet [row "Widget X1 Pro" (Number 90) Missing]).

(** Equal lowest price at Btech and Raneen. *)
Definition tied_prices : sources :=
  three_sources (sheet [row "Widget X1" (Number 100) (Text "x1")])
                (sheet [row "Widget X1 Pro" (Number 90) (Text "x1")])
                (sheet [row "Widget X1 Max" (Number 90) (Text "x1")]).

(** One retailer lists the code twice, the second listing at the price
    that another retailer asks. *)
Definition hidden_tie : sources :=
  two_sources (sheet [row "Widget X1" (Number 100) (Text "x1");
                      row "Widget X1 refurbished" (Number 50) (Text "x1")])
              (sheet [row "Widget X1 Pro" (Number 50) (Text "x1")]).


End Scenario.

(** ** File names: [extract_info_from_filename]

    Both scripts match a file name against
    [([a-zA-Z0-9]+)_([A-Za-z0-9\-]+)_\d{4}-\d{2}-\d{2}\.xlsx] with
    [re.match]: anchored at the start, free at the end.  Neither
    character class holds the underscore that must follow it, so the
    greedy repetition can only stop at the end of the run of class
    characters: the pattern is matched by reading the two runs and the
    fixed date and extension.

    A file name is read as ASCII text.  There [\d] is one of [0-9]; on a
    [str] Python's [\d] also matches the decimal digits of other scripts,
    and a name holding such characters is outside this model. *)

Module Filename.

Definition in_range (lo hi : nat) (c : ascii) : bool :=
  let n := nat_of_ascii c in (lo <=? n) && (n <=? hi).

(** A character of ASCII text. *)
Definition is_ascii (c : ascii) : bool := nat_of_ascii c <? 128.

(** [\d] on ASCII text. *)
Definition is_digit (c : ascii) : bool := in_range 48 57 c.
Definition is_upper (c : ascii) : bool := in_range 65 90 c.
Definition is_lower (c : ascii) : bool := in_range 97 122 c.

(** The class [[a-zA-Z0-9]]. *)
Definition is_alnum (c : ascii) : bool :=
  is_lower c || is_upper c || is_digit c.

(** The class [[A-Za-z0-9\-]]. *)
Definition is_category_char (c : ascii) : bool :=
  is_alnum c || Ascii.eqb c "-".

(** A greedy repetition of a class: the longest run and what follows. *)
Fixpoint span (p : ascii -> bool) (s : string) : string * string :=
  match s with
  | EmptyString => (EmptyString, EmptyString)
  | String c s' =>
      if p c then let (run, rest) := span p s' in (String c run, rest)
      else (EmptyString, s)
  end.

(** Literal text: what follows it, when the subject starts with it. *)
Fixpoint literal (lit s : string) : option string :=
  match lit with
  | EmptyString => Some s
  | String c lit' =>
      match s with
      | EmptyString => None
      | String d s' => if Ascii.eqb c d then literal lit' s' else None
      end
  end.

(** [\d{n}]. *)
Fixpoint digits (n : nat) (s : string) : option string :=
  match n with
  | O => Some s
  | S n' =>
      match s with
      | EmptyString => None
      | String d s' => if is_digit d then digits n' s' else None
      end
  end.

Definition is_empty (s : string) : bool :=
  match s with
  | EmptyString => true
  | String _ _ => false
  end.

Definition and_then {A B} (o : option A) (f : A -> option B) : option B :=
  match o with
  | Some a => f a
  | None => None
  end.

(** [_\d{4}-\d{2}-\d{2}\.xlsx], the part after the second group. *)
Definition date_and_extension (s : string) : option string :=
  and_then (literal "_" s) (fun s =>
  and_then (digits 4 s) (fun s =>
  and_then (literal "-" s) (fun s =>
  and_then (digits 2 s) (fun s =>
  and_then (literal "-" s) (fun s =>
  and_then (digits 2 s) (fun s =>
  literal ".xlsx" s)))))).

(** [re.match(pattern, filename)]: the two groups of a match. *)
Definition re_match (filename : string) : option (string * string) :=
  let (g1, rest1) := span is_alnum filename in
  if is_empty g1 then None
  else
    and_then (literal "_" rest1) (fun rest1 =>
    let (g2, rest2) := span is_category_char rest1 in
    if is_empty g2 then None
    else and_then (date_and_extension rest2) (fun _ => Some (g1, g2))).

(** [str.upper()] and [str.capitalize()] on ASCII letters. *)
Definition upper_char (c : ascii) : ascii :=
  if is_lower c then ascii_of_nat (nat_of_ascii c - 32) else c.

Fixpoint upper (s : string) : string :=
  match s with
  | EmptyString => EmptyString
  | String c s' => String (upper_char c) (upper s')
  end.

Definition capitalize (s : string) : string :=
  match s with
  | EmptyString => EmptyString
  | String c s' => String (upper_char c) (Py.lower s')
  end.

(** [str.endswith(suffix)]. *)
Fixpoint endswith (suffix s : string) : bool :=
  String.eqb s suffix
  || match s with
     | EmptyString => false
     | String _ s' => endswith suffix s'
     end.

(** A file name of the shape the scrapers write:
    [<retailer>_<category>_<yyyy-mm-dd>.xlsx]. *)
Definition all_chars (p : ascii -> bool) (s : string) : bool :=
  forallb p (list_ascii_of_string s).

Definition is_date (d : string) : Prop :=
  exists y1 y2 y3 y4 m1 m2 d1 d2,
    d = String y1 (String y2 (String y3 (String y4 (String "-"
          (String m1 (String m2 (String "-"
             (String d1 (String d2 EmptyString)))))))))
    /\ forallb is_digit [y1; y2; y3; y4; m1; m2; d1; d2] = true.

Definition file_name (name category date : string) : string :=
  name ++ "_" ++ category ++ "_" ++ date ++ ".xlsx".

End Filename.

(** ** Insertion-ordered dicts *)

Module Dict.

Section Dict.
Context {K V : Type} (eqb : K -> K -> bool).

Definition dict := list (K * V).

(** [d.get(k)]. *)
Fixpoint get (d : dict) (k : K) : option V :=
  match d with
  | [] => None
  | (k', v) :: d' => if eqb k' k then Some v else get d' k
  end.

(** [d[k] = v]: a key already present keeps its place. *)
Fixpoint set (d : dict) (k : K) (v : V) : dict :=
  match d with
  | [] => [(k, v)]
  | (k', v') :: d' =>
      if eqb k' k then (k', v) :: d' else (k', v') :: set d' k v
  end.

(** [d.setdefault(k, v)], as the dict it leaves. *)
Definition setdefault (d : dict) (k : K) (v : V) : dict :=
  match get d k with
  | Some _ => d
  | None => set d k v
  end.

Definition keys (d : dict) : list K := map fst d.

End Dict.

End Dict.

(** ** Step 1 of both scripts: scanning the retailer folders

    [folders r] is [None] when the folder of [r] does not exist and
    otherwise the list that [os.listdir] returns for it.  A path is
    [os.path.join(folder_path, filename)]; with the folder fixed by the
    retailer, the file name stands for the path. *)

Definition folders := retailer -> option (list string).

Definition inner_dict := list (retailer * string).

Definition category_dict := list (string * inner_dict).

Module LongMain.

(** [extract_info_from_filename(filename)]; [None] stands for the pair
    [(None, None)]. *)
Definition extract_info_from_filename (filename : string)
  : option (string * string) :=
  match Filename.re_match filename with
  | Some (g1, g2) => Some (Filename.capitalize g1, g2)
  | None => None
  end.

(** The body of the loop over the files of a folder:
    [category_map.setdefault(category, {})[retailer] = path]. *)
Definition record (category_map : category_dict) (r : retailer)
           (filename : string) : category_dict :=
  match extract_info_from_filename filename with
  | Some (ret_name, category) =>
      if negb (Filename.is_empty ret_name) && negb (Filename.is_empty category)
      then
        let inner :=
          match Dict.get String.eqb category_map category with
          | Some d => d
          | None => []
          end in
        Dict.set String.eqb category_map category
                 (Dict.set retailer_eqb inner r filename)
      else category_map
  | None => category_map
  end.

Definition scan_folder (category_map : category_dict) (r : retailer)
           (listing : list string) : category_dict :=
  fold_left (fun m f => record m r f)
            (filter (Filename.endswith ".xlsx") listing) category_map.

Definition scan (fs : folders) : category_dict :=
  fold_left (fun m r => match fs r with
                        | Some listing => scan_folder m r listing
                        | None => m
                        end) RETAILER_FOLDERS [].

(** Step 2 for one category.  [read r f] is the sheet that
    [pd.read_excel] returns for file [f] of retailer [r], [None] when it
    raises; the [try] block then logs and goes on. *)
Definition load (read : retailer -> string -> option Pandas.raw_table)
           (inner : inner_dict) : list (list Long.listing) :=
  flat_map (fun rf => match read (fst rf) (snd rf) with
                      | Some df =>
                          match Long.prepare df (fst rf) with
                          | Some prepared => [prepared]
                          | None => []
                          end
                      | None => []
                      end) inner.

Definition process (read : retailer -> string -> option Pandas.raw_table)
           (inner : inner_dict) : option Long.output :=
  if length inner <? 2 then None
  else
    let all_dfs := load read inner in
    if length all_dfs <? 2 then None
    else Some (Long.compare (concat all_dfs)).

(** The loop over the categories: the outputs exported, by category. *)
Definition run (read : retailer -> string -> option Pandas.raw_table)
           (category_map : category_dict) : list (string * Long.output) :=
  flat_map (fun cs => match process read (snd cs) with
                      | Some out => [(fst cs, out)]
                      | None => []
                      end) category_map.

(** [matched_categories]. *)
Definition matched_categories
           (read : retailer -> string -> option Pandas.raw_table)
           (category_map : category_dict) : list string :=
  map fst (run read category_map).

(** [skipped_list]: each skipped category with [list(srcs.keys())]. *)
Definition skipped_list (category_map : category_dict)
  : list (string * list string) :=
  map (fun cs => (fst cs, map (fun rf => Long.key (fst rf)) (snd cs)))
      (filter (fun cs => length (snd cs) <? 2) category_map).

(** What the script logs after the scan: [cat: list(data.keys())] for
    every item of [category_map]. *)
Definition logged (category_map : category_dict)
  : list (string * list string) :=
  map (fun cs => (fst cs, map (fun rf => Long.key (fst rf)) (snd cs)))
      category_map.

(** [export_results(rows, filename, highlight_confidence)]: no file for
    an empty table; otherwise the rows, each with the mark of the fill
    that the highlight policy gives it. *)
Definition export_results (rows : list Long.merged) (threshold : option Q)
  : option (list (Long.merged * bool)) :=
  match rows with
  | [] => None
  | _ :: _ =>
      Some (map (fun m =>
                   (m, match threshold with
                       | Some t =>
                           if Qlt_le_dec (Long.Confidence m) t then true
                           else false
                       | None => false
                       end)) rows)
  end.

(** The three calls at the end of a category. *)
Definition exports (out : Long.output)
  : option (list (Long.merged * bool))
    * option (list (Long.merged * bool))
    * option (list (Long.merged * bool)) :=
  (export_results (Long.matched_rows out) None,
   export_results (Long.weak_matched_rows out)
                  (Some Long.HIGHLIGHT_CONFIDENCE_WEAK),
   export_results (Long.unmatched_rows out)
                  (Some Long.HIGHLIGHT_CONFIDENCE_UNMATCHED)).

End LongMain.

Module ShortMain.

(** [extract_info_from_filename(filename)]. *)
Definition extract_info_from_filename (filename : string)
  : option (string * string) :=
  match Filename.re_match filename with
  | Some (g1, g2) => Some (Filename.upper g1, g2)
  | None => None
  end.

(** [category_map.setdefault(category, {}).setdefault(retailer, path)]. *)
Definition record (category_map : category_dict) (r : retailer)
           (filename : string) : category_dict :=
  match extract_info_from_filename filename with
  | Some (r_name, category) =>
      if negb (Filename.is_empty r_name) && negb (Filename.is_empty category)
      then
        let inner :=
          match Dict.get String.eqb category_map category with
          | Some d => d
          | None => []
          end in
        Dict.set String.eqb category_map category
                 (Dict.setdefault retailer_eqb inner r filename)
      else category_map
  | None => category_map
  end.

Definition scan_folder (category_map : category_dict) (r : retailer)
           (listing : list string) : category_dict :=
  fold_left (fun m f => record m r f)
            (filter (Filename.endswith ".xlsx") listing) category_map.

Definition scan (fs : folders) : category_dict :=
  fold_left (fun m r => match fs r with
                        | Some listing => scan_folder m r listing
                        | None => m
                        end) RETAILER_FOLDERS [].

Definition load (read : retailer -> string -> option Pandas.raw_table)
           (inner : inner_dict) : list (list Short.listing) :=
  flat_map (fun rf => match read (fst rf) (snd rf) with
                      | Some df =>
                          match Short.prepare df (fst rf) with
                          | Some prepared => [prepared]
                          | None => []
                          end
                      | None => []
                      end) inner.

(** One iteration of the loop over the categories. *)
Definition process (read : retailer -> string -> option Pandas.raw_table)
           (inner : inner_dict) : Short.outcome (option Short.output) :=
  if length inner <? 2 then Short.Ok None
  else
    let all_data := load read inner in
    if length all_data <? 2 then Short.Ok None
    else Short.bind (Short.compare (concat all_data))
                    (fun out => Short.Ok (Some out)).

(** The state of the run: the outputs exported so far and the two
    counters. *)
Record state := {
  exported : list (string * Short.output);
  matched_categories : nat;
  skipped_categories : nat
}.

(** The loop over the categories.  An exception that leaves the loop
    over the groups ends the run: the state reached is kept, with the
    exception. *)
Fixpoint run (read : retailer -> string -> option Pandas.raw_table)
         (category_map : category_dict) (st : state) : state * option Short.exn :=
  match category_map with
  | [] => (st, None)
  | (category, inner) :: rest =>
      if length inner <? 2
      then run read rest
               {| exported := exported st;
                  matched_categories := matched_categories st;
                  skipped_categories := S (skipped_categories st) |}
      else
        let st' := {| exported := exported st;
                      matched_categories := S (matched_categories st);
                      skipped_categories := skipped_categories st |} in
        match process read inner with
        | Short.Raise e => (st', Some e)
        | Short.Ok None => run read rest st'
        | Short.Ok (Some out) =>
            run read rest
                {| exported := exported st' ++ [(category, out)];
                   matched_categories := matched_categories st';
                   skipped_categories := skipped_categories st' |}
        end
  end.

Definition initial : state :=
  {| exported := []; matched_categories := 0; skipped_categories := 0 |}.

(** The fill of a row in [export_results]:
    [float(row[conf_idx].value) < HIGHLIGHT_THRESHOLD]. *)
Definition highlighted (r : Short.result) : bool :=
  if Qlt_le_dec (Short.Confidence r) Short.HIGHLIGHT_THRESHOLD then true
  else false.

(** [skipped_list]: each skipped category with [list(srcs.keys())]. *)
Definition skipped_list (category_map : category_dict)
  : list (string * list string) :=
  map (fun cs => (fst cs, map (fun rf => Short.key (fst rf)) (snd cs)))
      (filter (fun cs => length (snd cs) <? 2) category_map).

(** What the script logs after the scan: [cat: list(data.keys())] for
    every item of [category_map]. *)
Definition logged (category_map : category_dict)
  : list (string * list string) :=
  map (fun cs => (fst cs, map (fun rf => Short.key (fst rf)) (snd cs)))
      category_map.

End ShortMain.

(** ** Reading a scan *)

(** The file recorded for a retailer under a category. *)
Definition recorded (category_map : category_dict) (category : string)
           (r : retailer) : option string :=
  match Dict.get String.eqb category_map category with
  | Some inner => Dict.get retailer_eqb inner r
  | None => None
  end.

(** Whether a file name matches the pattern with the given category. *)
Definition has_category (category filename : string) : bool :=
  match Filename.re_match filename with
  | Some (_, c) => String.eqb c category
  | None => false
  end.

(** The files of a folder listing that the scan files under a category,
    in listing order. *)
Definition candidates (listing : list string) (category : string)
  : list string :=
  filter (has_category category) (filter (Filename.endswith ".xlsx") listing).

(** The sheets of a category, by retailer: what [read] returns for the
    recorded files. *)
Definition sources_of (read : retailer -> string -> option Pandas.raw_table)
           (inner : inner_dict) : sources :=
  fun r => match Dict.get retailer_eqb inner r with
           | Some f => read r f
           | None => None
           end.

(** Two retailers in the iteration order of [RETAILER_FOLDERS]. *)
Definition before (r1 r2 : retailer) : Prop := position r1 < position r2.

(** What an inner dict looks like while the folder of the retailer at
    position [p] is scanned: not empty, its keys in order, none after
    position [p]. *)
Definition inner_ok (p : nat) (inner : inner_dict) : Prop :=
  inner <> []
  /\ StronglySorted before (map fst inner)
  /\ Forall (fun r => position r <= p) (map fst inner).

Definition map_ok (p : nat) (m : category_dict) : Prop :=
  Forall (fun cs => inner_ok p (snd cs)) m.

(** Folders used as an example: 2B holds two files for the category
    "TVs", a file that is not a sheet and one more category; Btech holds
    one file; the folder of Raneen is missing. *)
Module ScanScenario.

Definition shops : folders :=
  fun r =>
    match r with
    | R_2B => Some ["2b_TVs_2024-05-01.xlsx"; "notes.txt";
                    "2b_TVs_2024-05-02.xlsx"; "2b_Fridges_2024-05-01.xlsx"]
    | R_Btech => Some ["btech_TVs_2024-05-01.xlsx"]
    | R_Raneen => None
    end.

End ScanScenario.



(** The order in which [groupby] yields its keys. *)
Definition code_lt (a b : string) : Prop := String.compare a b = Lt.

(** Sheets of one category in which the name cell of a priced row is not
    text: it is empty, or it holds a number. *)
Module RaiseScenario.

Definition nameless_row : Pandas.raw_row :=
  {| Pandas.raw_Item_Name := Pandas.Missing;
     Pandas.raw_New_Price := Pandas.Number 100;
     Pandas.raw_Normalized_Code := Pandas.Text "x1";
     Pandas.raw_Product_URL := Pandas.Text "https://shop.example/p" |}.

Definition nameless : sources :=
  Scenario.two_sources
    (Scenario.sheet [nameless_row])
    (Scenario.sheet [Scenario.row "Widget X1 Pro" (Pandas.Number 90)
                                  (Pandas.Text "x1")]).

(** A priced row whose name cell holds the number 4500. *)
Definition numbered_row : Pandas.raw_row :=
  {| Pandas.raw_Item_Name := Pandas.Value "4500";
     Pandas.raw_New_Price := Pandas.Number 100;
     Pandas.raw_Normalized_Code := Pandas.Text "x1";
     Pandas.raw_Product_URL := Pandas.Text "https://shop.example/p" |}.

Definition numbered : sources :=
  Scenario.two_sources
    (Scenario.sheet [numbered_row])
    (Scenario.sheet [Scenario.row "Widget X1 Pro" (Pandas.Number 90)
                                  (Pandas.Text "x1")]).

(** A category map of three categories: the first has one file, the
    second the sheets of [nameless], the third the Widget sheets. *)
Definition category_map : category_dict :=
  [("Fridges", [(R_2B, "2b_Fridges_2024-05-01.xlsx")]);
   ("Irons", [(R_2B, "2b_Irons_2024-05-01.xlsx");
              (R_Btech, "btech_Irons_2024-05-01.xlsx")]);
   ("TVs", [(R_2B, "2b_TVs_2024-05-01.xlsx");
            (R_Btech, "btech_TVs_2024-05-01.xlsx")])].

Definition read (r : retailer) (f : string) : option Pandas.raw_table :=
  if Filename.endswith "Irons_2024-05-01.xlsx" f then nameless r
  else Scenario.widget r.

End RaiseScenario.

(** The priced listings of a group as (retailer, price) pairs, in frame
    order: of a long-form group and of a short-form group. *)
Definition long_offers (group : list Long.listing) : list (retailer * Q) :=
  flat_map (fun l => match Long.New_Price l with
                     | Some p => [(Long.Retailer l, p)]
                     | None => []
                     end) group.

Definition short_offers (group : list Short.listing) : list (retailer * Q) :=
  flat_map (fun l => match Short.New_Price l with
                     | Some p => [(Short.Source l, p)]
                     | None => []
                     end) group.

(** The categories of a category map, each with the folders in which a
    file was recorded for it. *)
Definition outline (category_map : category_dict)
  : list (string * list retailer) :=
  map (fun cs => (fst cs, Dict.keys (snd cs))) category_map.

(** * Properties *)

(** ** The matcher stays inside its window *)

Module DifflibFacts.

Import Difflib.

Section Window.

Variables a b : list ascii.
Variables alo ahi blo bhi : nat.

Lemma get_run_ok n d j :
  Forall (run_ok blo n) d -> get d j = 0 \/ run_ok blo n (j, get d j).
Proof.
  induction 1 as [|[j' k] d Hjk _ IH]; simpl; [now left|].
  destruct (Nat.eqb_spec j' j) as [->|_]; [right; exact Hjk | exact IH].
Qed.

Lemma get_prev_bound n d j :
  Forall (run_ok blo n) d -> blo <= j ->
  get_prev d j + 1 <= j + 1 - blo /\ get_prev d j + 1 <= n + 1.
Proof.
  intros Hd Hj. destruct j as [|j']; cbn [get_prev]; [lia|].
  destruct (get_run_ok n d j' Hd) as [->|(H1 & H2 & H3)];
    cbn [fst snd] in *; lia.
Qed.

Lemma scan_row_inside i j2len js :
  alo <= i -> i < ahi ->
  Forall (run_ok blo (i - alo)) j2len ->
  forall newj2len best,
    Forall (run_ok blo (i + 1 - alo)) newj2len -> inside alo ahi blo bhi best ->
    Forall (run_ok blo (i + 1 - alo))
           (fst (scan_row i blo bhi j2len js newj2len best))
    /\ inside alo ahi blo bhi (snd (scan_row i blo bhi j2len js newj2len best)).
Proof.
  intros Hlo Hhi Hd.
  induction js as [|j js IH]; intros new best Hnew Hbest; simpl; [now split|].
  destruct (Nat.ltb_spec j blo) as [_|Hj]; [now apply IH|].
  destruct (Nat.leb_spec bhi j) as [_|Hj']; [now split|].
  destruct (get_prev_bound (i - alo) j2len j Hd Hj) as [K1 K2].
  apply IH.
  - constructor; [|exact Hnew]. unfold run_ok; simpl. lia.
  - destruct (Nat.ltb_spec (size best) (get_prev j2len j + 1)); [|exact Hbest].
    unfold inside. lia.
Qed.

Lemma scan_inside len : forall i j2len best,
  alo <= i -> i + len <= ahi ->
  Forall (run_ok blo (i - alo)) j2len -> inside alo ahi blo bhi best ->
  inside alo ahi blo bhi (scan a b (seq i len) blo bhi j2len best).
Proof.
  induction len as [|len IH]; intros i j2len best Hlo Hhi Hd Hbest; simpl;
    [exact Hbest|].
  destruct (scan_row_inside i j2len (b2j b (item a i)) Hlo ltac:(lia) Hd
                            [] best (Forall_nil _) Hbest) as [H1 H2].
  destruct (scan_row i blo bhi j2len (b2j b (item a i)) [] best)
    as [new best'].
  simpl in H1, H2. apply IH; try lia; [|exact H2].
  replace (S i - alo) with (i + 1 - alo) by lia. exact H1.
Qed.

Lemma extend_back_inside junk : forall besti bestj bestsize,
  inside alo ahi blo bhi (besti, bestj, bestsize) ->
  inside alo ahi blo bhi (extend_back a b junk alo blo besti bestj bestsize).
Proof.
  induction besti as [|i' IH]; intros bestj bestsize H; cbn [extend_back];
    [exact H|].
  destruct bestj as [|j']; [exact H|].
  destruct (Nat.ltb_spec alo (S i')); cbn [andb]; [|exact H].
  destruct (Nat.ltb_spec blo (S j')); cbn [andb]; [|exact H].
  destruct (Bool.eqb _ junk); cbn [andb]; [|exact H].
  destruct (Ascii.eqb _ _); [|exact H].
  apply IH. unfold inside in *. lia.
Qed.

Lemma extend_fwd_inside junk besti bestj : forall n bestsize,
  inside alo ahi blo bhi (besti, bestj, bestsize) ->
  inside alo ahi blo bhi (besti, bestj, extend_fwd a b junk ahi bhi besti bestj n bestsize).
Proof.
  induction n as [|n IH]; intros bestsize H; cbn [extend_fwd]; [exact H|].
  destruct (Nat.ltb_spec (besti + bestsize) ahi); cbn [andb]; [|exact H].
  destruct (Nat.ltb_spec (bestj + bestsize) bhi); cbn [andb]; [|exact H].
  destruct (Bool.eqb _ junk); cbn [andb]; [|exact H].
  destruct (Ascii.eqb _ _); [|exact H].
  apply IH. unfold inside in *. lia.
Qed.

Lemma find_longest_match_inside :
  alo <= ahi -> blo <= bhi ->
  inside alo ahi blo bhi (find_longest_match a b alo ahi blo bhi).
Proof.
  intros Ha Hb. unfold find_longest_match.
  assert (H0 : inside alo ahi blo bhi (scan a b (seq alo (ahi - alo)) blo bhi [] (alo, blo, 0))).
  { apply scan_inside; try lia; [constructor | unfold inside; lia]. }
  destruct (scan a b _ blo bhi [] _) as [[i j] k].
  apply (extend_back_inside false) in H0.
  destruct (extend_back a b false alo blo i j k) as [[i1 j1] k1].
  apply (extend_fwd_inside false i1 j1 (ahi - (i1 + k1))) in H0.
  apply (extend_back_inside true) in H0.
  destruct (extend_back a b true alo blo i1 j1 _) as [[i2 j2] k2].
  now apply (extend_fwd_inside true i2 j2 (ahi - (i2 + k2))) in H0.
Qed.

End Window.

(** The blocks found in a window fit in it, side by side. *)
Lemma matching_blocks_sum a b : forall fuel alo ahi blo bhi,
  alo <= ahi -> blo <= bhi ->
  list_sum (map size (matching_blocks a b fuel alo ahi blo bhi)) <= ahi - alo
  /\ list_sum (map size (matching_blocks a b fuel alo ahi blo bhi)) <= bhi - blo.
Proof.
  induction fuel as [|fuel IH]; intros alo ahi blo bhi Ha Hb; simpl; [lia|].
  pose proof (find_longest_match_inside a b alo ahi blo bhi Ha Hb) as Hin.
  destruct (find_longest_match a b alo ahi blo bhi) as [[i j] k].
  unfold inside in Hin.
  destruct (Nat.eqb_spec k 0); [simpl; lia|].
  rewrite map_app, list_sum_app. cbn [map list_sum].
  change (size (i, j, k)) with k.
  assert (L : list_sum (map size (if (alo <? i) && (blo <? j)
                then matching_blocks a b fuel alo i blo j else [])) <= i - alo
           /\ list_sum (map size (if (alo <? i) && (blo <? j)
                then matching_blocks a b fuel alo i blo j else [])) <= j - blo).
  { destruct ((alo <? i) && (blo <? j)); [apply IH; lia | simpl; lia]. }
  assert (R : list_sum (map size (if (i + k <? ahi) && (j + k <? bhi)
                then matching_blocks a b fuel (i + k) ahi (j + k) bhi else []))
              <= ahi - (i + k)
           /\ list_sum (map size (if (i + k <? ahi) && (j + k <? bhi)
                then matching_blocks a b fuel (i + k) ahi (j + k) bhi else []))
              <= bhi - (j + k)).
  { destruct ((i + k <? ahi) && (j + k <? bhi)); [apply IH; lia | simpl; lia]. }
  set (right := map size _) in R |- *.
  change (list_sum (k :: right)) with (k + list_sum right).
  lia.
Qed.

(** The recursion of [matching_blocks] ends before its fuel does: any
    fuel above the width of the window gives the same blocks. *)
Lemma matching_blocks_fuel a b : forall fuel fuel' alo ahi blo bhi,
  alo <= ahi -> blo <= bhi -> ahi - alo < fuel -> ahi - alo < fuel' ->
  matching_blocks a b fuel alo ahi blo bhi
  = matching_blocks a b fuel' alo ahi blo bhi.
Proof.
  induction fuel as [|fuel IH]; intros fuel' alo ahi blo bhi Ha Hb H1 H2;
    [lia|].
  destruct fuel' as [|fuel']; [lia|]. simpl.
  pose proof (find_longest_match_inside a b alo ahi blo bhi Ha Hb) as Hin.
  destruct (find_longest_match a b alo ahi blo bhi) as [[i j] k].
  unfold inside in Hin.
  destruct (Nat.eqb_spec k 0); [reflexivity|].
  f_equal; [|f_equal].
  - destruct ((alo <? i) && (blo <? j)); [apply IH; lia | reflexivity].
  - destruct ((i + k <? ahi) && (j + k <? bhi)); [apply IH; lia | reflexivity].
Qed.

(** The fuel that [get_matching_blocks] starts with is enough. *)
Lemma get_matching_blocks_fuel a b fuel :
  length a < fuel ->
  matching_blocks a b fuel 0 (length a) 0 (length b) = get_matching_blocks a b.
Proof.
  intros H. unfold get_matching_blocks.
  apply matching_blocks_fuel; lia.
Qed.

Lemma matches_bound a b :
  2 * matches a b <= length a + length b.
Proof.
  unfold matches, get_matching_blocks.
  pose proof (matching_blocks_sum a b (S (length a)) 0 (length a) 0 (length b)
                                  ltac:(lia) ltac:(lia)).
  lia.
Qed.

(** The ratio is a number between 0 and 1. *)
Lemma ratio_range (x y : string) :
  (0 <= ratio x y <= 1)%Q.
Proof.
  unfold ratio, calculate_ratio.
  pose proof (matches_bound (list_ascii_of_string x) (list_ascii_of_string y)) as H.
  destruct (length (list_ascii_of_string x) + length (list_ascii_of_string y))
    as [|n] eqn:E.
  - split; [discriminate | apply Qle_refl].
  - unfold Qle; cbn [Qnum Qden].
    rewrite <- Pos.of_nat_succ, Zpos_P_of_succ_nat. lia.
Qed.

End DifflibFacts.

(** ** Grouping *)

Module PandasFacts.

Import Pandas.

Lemma insert_key_in k k0 ks :
  In k (insert_key k0 ks) <-> k = k0 \/ In k ks.
Proof.
  induction ks as [|k' ks IH]; simpl; [intuition congruence|].
  destruct (String.compare k0 k') eqn:E; simpl.
  - apply String.compare_eq_iff in E. subst. intuition congruence.
  - intuition congruence.
  - rewrite IH. intuition congruence.
Qed.

Lemma sorted_keys_in k ks : In k (sorted_keys ks) <-> In k ks.
Proof.
  induction ks as [|k0 ks IH]; simpl; [reflexivity|].
  rewrite insert_key_in, IH. intuition congruence.
Qed.

Section GroupBy.
Context {A : Type} (key : A -> string).

Lemma rows_of_in (df : list A) k r :
  In r (rows_of key df k) <-> In r df /\ key r = k.
Proof.
  unfold rows_of. rewrite filter_In, String.eqb_eq. reflexivity.
Qed.

(** A group is the set of rows of the frame that carry its key. *)
Lemma groupby_in (df : list A) k g :
  In (k, g) (groupby key df) <->
  In k (map key df) /\ g = rows_of key df k.
Proof.
  unfold groupby. rewrite in_map_iff. split.
  - intros (k' & E & Hk). inversion E; subst.
    now rewrite sorted_keys_in in Hk.
  - intros (Hk & ->). exists k. now rewrite sorted_keys_in.
Qed.

Lemma groupby_of_row (df : list A) r :
  In r df -> In (key r, rows_of key df (key r)) (groupby key df).
Proof.
  intros H. apply groupby_in. split; [now apply in_map | reflexivity].
Qed.

Lemma isin_keys (df : list A) r :
  In r df -> isin key (map fst (groupby key df)) r = true.
Proof.
  intros H. unfold isin. apply existsb_exists. exists (key r).
  split; [|apply String.eqb_refl].
  apply in_map_iff. exists (key r, rows_of key df (key r)).
  split; [reflexivity | now apply groupby_of_row].
Qed.
End GroupBy.

End PandasFacts.

(** ** Counting retailers *)

Module RetailerFacts.

Lemma retailer_eqb_eq r1 r2 : retailer_eqb r1 r2 = true <-> r1 = r2.
Proof. destruct r1, r2; simpl; split; congruence. Qed.

Lemma existsb_retailer r rs : existsb (retailer_eqb r) rs = true <-> In r rs.
Proof.
  rewrite existsb_exists. split.
  - intros (x & Hx & E). apply retailer_eqb_eq in E. now subst.
  - intros H. exists r. split; [exact H | now apply retailer_eqb_eq].
Qed.

Lemma distinct_in r rs : In r (distinct rs) <-> In r rs.
Proof.
  induction rs as [|x rs IH]; simpl; [reflexivity|].
  destruct (existsb (retailer_eqb x) rs) eqn:E; simpl; rewrite IH.
  - apply existsb_retailer in E. intuition congruence.
  - reflexivity.
Qed.

Lemma distinct_NoDup rs : NoDup (distinct rs).
Proof.
  induction rs as [|x rs IH]; simpl; [constructor|].
  destruct (existsb (retailer_eqb x) rs) eqn:E; [exact IH|].
  constructor; [|exact IH].
  rewrite distinct_in, <- existsb_retailer. congruence.
Qed.

(** Two distinct retailers in a column make [nunique] at least 2 ... *)
Lemma nunique_two r1 r2 rs :
  In r1 rs -> In r2 rs -> r1 <> r2 -> 2 <= nunique rs.
Proof.
  unfold nunique. rewrite <- (distinct_in r1), <- (distinct_in r2).
  destruct (distinct rs) as [|a [|b l]]; simpl; intros H1 H2 Hne.
  - contradiction.
  - destruct H1 as [<-|[]], H2 as [<-|[]]. congruence.
  - lia.
Qed.

(** ... and only they do. *)
Lemma nunique_two_inv rs :
  2 <= nunique rs -> exists r1 r2, In r1 rs /\ In r2 rs /\ r1 <> r2.
Proof.
  unfold nunique. pose proof (distinct_NoDup rs) as ND.
  pose proof (fun r => proj1 (distinct_in r rs)) as Hin.
  destruct (distinct rs) as [|a [|b l]]; simpl; intros H; [lia | lia |].
  exists a, b. repeat split; try (apply Hin; simpl; tauto).
  inversion ND as [|? ? Hna _]; subst. intros ->. apply Hna. now left.
Qed.

End RetailerFacts.

(** ** The two passes of the long-form script *)

Module LongFacts.

Import Pandas PandasFacts RetailerFacts Long.

(** The rows of the first loop: one per code carried by two retailers. *)
Lemma primary_pass_in combined m :
  In m (primary_pass combined) <->
  exists code,
    In code (map Normalized_Code combined)
    /\ 2 <= nunique (group_retailers (rows_of Normalized_Code combined code))
    /\ m = exact_row code (rows_of Normalized_Code combined code).
Proof.
  unfold primary_pass. rewrite in_flat_map. split.
  - intros ([code g] & Hg & Hm). apply groupby_in in Hg as [Hc ->].
    cbn [fst snd] in Hm.
    destruct (Nat.ltb_spec (nunique (group_retailers
                (rows_of Normalized_Code combined code))) 2) as [|Hn];
      [contradiction|].
    destruct Hm as [<-|[]]. now exists code.
  - intros (code & Hc & Hn & ->).
    exists (code, rows_of Normalized_Code combined code). split.
    + now apply groupby_in.
    + cbn [fst snd].
      destruct (Nat.ltb_spec (nunique (group_retailers
                  (rows_of Normalized_Code combined code))) 2); [lia|].
      now left.
Qed.

(** Every code of the frame is a key of [grouped], so no row survives the
    [isin] filter. *)
Lemma remaining_nil combined : remaining combined = [].
Proof.
  unfold remaining, all_seen_codes.
  assert (H : forall l, In l combined ->
            negb (isin Normalized_Code
                       (map fst (groupby Normalized_Code combined)) l) = false).
  { intros l Hl. now rewrite isin_keys. }
  revert H. generalize (map fst (groupby Normalized_Code combined)) as codes.
  intros codes. induction combined as [|l ls IH]; intros H; simpl; [reflexivity|].
  rewrite (H l) by now left. apply IH. intros l' Hl'. apply H. now right.
Qed.

Lemma fallback_pass_nil : fallback_pass [] = ([], []).
Proof. reflexivity. Qed.

Lemma compare_tiers combined :
  compare combined
  = {| matched_rows := primary_pass combined;
       weak_matched_rows := [];
       unmatched_rows := [] |}.
Proof. unfold compare. now rewrite remaining_nil, fallback_pass_nil. Qed.

(** Two listings of different retailers under one code form a group of
    the first loop, whatever the code is. *)
Lemma exact_group combined l1 l2 :
  In l1 combined -> In l2 combined ->
  Normalized_Code l1 = Normalized_Code l2 ->
  Retailer l1 <> Retailer l2 ->
  let code := Normalized_Code l1 in
  let group := rows_of Normalized_Code combined code in
  In l1 group /\ In l2 group
  /\ In (exact_row code group) (matched_rows (compare combined))
  /\ Confidence (exact_row code group) = 100%Q
  /\ (forall m, In m (matched_rows (compare combined)) ->
                merged_Normalized_Code m = code -> m = exact_row code group).
Proof.
  intros H1 H2 Hc Hr code group.
  assert (G1 : In l1 group) by now apply rows_of_in.
  assert (G2 : In l2 group) by (apply rows_of_in; split; [exact H2 | now symmetry]).
  repeat split; try assumption.
  - rewrite compare_tiers. cbn [matched_rows]. apply primary_pass_in.
    exists code. repeat split.
    + now apply in_map.
    + apply (nunique_two (Retailer l1) (Retailer l2)); try assumption;
        unfold group_retailers; now apply in_map.
  - intros m Hm Hcode. rewrite compare_tiers in Hm. cbn [matched_rows] in Hm.
    apply primary_pass_in in Hm as (code' & _ & _ & ->).
    cbn [exact_row merged_Normalized_Code] in Hcode. now subst code'.
Qed.

(** A row of any of the three tables stands for a group that spans two
    retailers. *)
Lemma reported_group_spans_two_retailers combined m :
  In m (matched_rows (compare combined)
        ++ weak_matched_rows (compare combined)
        ++ unmatched_rows (compare combined)) ->
  exists l1 l2,
    In l1 combined /\ In l2 combined
    /\ Normalized_Code l1 = merged_Normalized_Code m
    /\ Normalized_Code l2 = merged_Normalized_Code m
    /\ Retailer l1 <> Retailer l2.
Proof.
  rewrite compare_tiers.
  cbn [matched_rows weak_matched_rows unmatched_rows]. rewrite app_nil_r.
  intros Hm. apply primary_pass_in in Hm as (code & _ & Hn & ->).
  apply nunique_two_inv in Hn as (r1 & r2 & I1 & I2 & Hne).
  unfold group_retailers in I1, I2.
  apply in_map_iff in I1 as (l1 & <- & I1). apply in_map_iff in I2 as (l2 & <- & I2).
  apply rows_of_in in I1 as [I1 C1]. apply rows_of_in in I2 as [I2 C2].
  exists l1, l2. cbn [exact_row merged_Normalized_Code]. tauto.
Qed.

End LongFacts.

(** ** Claims on grouping *)

Import Pandas.

(** C1 (the code does otherwise).  The pool that the second pass of the
    long-form script re-groups is [remaining]: the rows whose code is not
    a key of the first grouping.  Every code of the frame is such a key,
    so the pool is empty for every combined frame and the weak-matched
    and unmatched tables never receive a row.  For the two listings of
    [Scenario.distinct_codes], whose codes differ, the pool as the
    specification words it holds both listings. *)
Theorem C1_remaining_is_always_empty :
  (forall combined,
      Long.remaining combined = []
      /\ Long.weak_matched_rows (Long.compare combined) = []
      /\ Long.unmatched_rows (Long.compare combined) = [])
  /\ (let combined := concat (Long.all_dfs Scenario.distinct_codes) in
      length combined = 2
      /\ Spec.leftover_listings combined = combined
      /\ Long.remaining combined <> Spec.leftover_listings combined).
Proof.
  split.
  - intros combined. rewrite LongFacts.compare_tiers.
    split; [apply LongFacts.remaining_nil | split; reflexivity].
  - cbv zeta. rewrite LongFacts.remaining_nil.
    repeat split; try reflexivity. vm_compute. discriminate.
Qed.

(** ** The loop of the short-form script *)

Module ShortFacts.

Import PandasFacts RetailerFacts Short.

Lemma mapM_Ok {A B} (f : A -> outcome B) l ys :
  mapM f l = Ok ys -> Forall2 (fun x y => f x = Ok y) l ys.
Proof.
  revert ys. induction l as [|x l IH]; simpl; intros ys H.
  - inversion H. constructor.
  - destruct (f x) as [y|] eqn:E; simpl in H; [|discriminate].
    destruct (mapM f l) as [ys'|]; simpl in H; [|discriminate].
    inversion H; subst. constructor; auto.
Qed.

Lemma cat_options_in {A} (l : list (option A)) a :
  In a (cat_options l) <-> In (Some a) l.
Proof.
  unfold cat_options. rewrite in_flat_map. split.
  - intros ([x|] & H & Hx); simpl in Hx; [|contradiction].
    destruct Hx as [->|[]]. exact H.
  - intros H. exists (Some a). split; [exact H | now left].
Qed.

Lemma Forall2_in_r {A B} (R : A -> B -> Prop) l l' y :
  Forall2 R l l' -> In y l' -> exists x, In x l /\ R x y.
Proof.
  induction 1 as [|x0 y0 l l' H0 _ IH]; simpl; [contradiction|].
  intros [<-|H]; [exists x0; auto|].
  destruct (IH H) as (x & Hx & HR). exists x; auto.
Qed.

Lemma Forall2_in_l {A B} (R : A -> B -> Prop) l l' x :
  Forall2 R l l' -> In x l -> exists y, In y l' /\ R x y.
Proof.
  induction 1 as [|x0 y0 l l' H0 _ IH]; simpl; [contradiction|].
  intros [<-|H]; [exists y0; auto|].
  destruct (IH H) as (y & Hy & HR). exists y; auto.
Qed.

(** The rows handed to [export_results] are the results of the groups. *)
Lemma compare_in combined out r :
  compare combined = Ok out ->
  (In r (matched out) \/ In r (unmatched out) <->
   exists code,
     In code (map Normalized_Code combined)
     /\ group_result code (rows_of Normalized_Code combined code)
        = Ok (Some r)).
Proof.
  unfold compare. intros H.
  destruct (mapM _ (groupby Normalized_Code combined)) as [results|] eqn:E;
    simpl in H; [|discriminate].
  inversion H; subst; clear H. cbn [matched unmatched].
  apply mapM_Ok in E. rewrite !filter_In.
  assert (K : In r (cat_options results) <->
              exists code, In code (map Normalized_Code combined)
                /\ group_result code (rows_of Normalized_Code combined code)
                   = Ok (Some r)).
  { rewrite cat_options_in. split.
    - intros Hr. destruct (Forall2_in_r _ _ _ _ E Hr) as ([code g] & Hg & Hres).
      apply groupby_in in Hg as [Hc ->]. now exists code.
    - intros (code & Hc & Hres).
      assert (Hg : In (code, rows_of Normalized_Code combined code)
                      (groupby Normalized_Code combined))
        by now apply groupby_in.
      destruct (Forall2_in_l _ _ _ _ E Hg) as (y & Hy & Hres').
      cbn [fst snd] in Hres'. congruence. }
  rewrite <- K.
  destruct (Qle_bool CONFIDENCE_THRESHOLD (Confidence r)); simpl; intuition congruence.
Qed.

(** A result row carries the confidence that [compute_confidence] gives
    for the names of the priced rows of its group. *)
Lemma group_result_confidence code group r :
  group_result code group = Ok (Some r) ->
  2 <= length (dropna_price group)
  /\ result_Normalized_Code r = code
  /\ compute_confidence (map Item_Name (dropna_price group))
     = Ok (Confidence r).
Proof.
  unfold group_result.
  destruct (Nat.ltb_spec (length (dropna_price group)) 2) as [|Hn];
    [discriminate|].
  destruct (compute_confidence _) as [c|]; simpl; [|discriminate].
  destruct (idxmin _) as [[best_row price]|]; [|discriminate].
  intros H. inversion H; subst. auto.
Qed.


End ShortFacts.

(** C2 (amended).  Long form: two listings of different retailers that
    carry the same non-empty normalized code lie in the same group of the
    first loop; that group is reported in the matched table, by a row
    that is the only one for the code, with confidence exactly 100 and
    the names playing no part in it.  Short form: the two listings lie in
    the same group as well, but a row reported for that group carries the
    confidence that [compute_confidence] gives for the names of its
    priced rows. *)
Theorem C2_exact_code_group_long_only :
  (forall combined l1 l2,
      In l1 combined -> In l2 combined ->
      Long.Normalized_Code l1 = Long.Normalized_Code l2 ->
      Long.Normalized_Code l1 <> "" ->
      Long.Retailer l1 <> Long.Retailer l2 ->
      let code := Long.Normalized_Code l1 in
      let group := rows_of Long.Normalized_Code combined code in
      In l1 group /\ In l2 group
      /\ In (Long.exact_row code group)
            (Long.matched_rows (Long.compare combined))
      /\ Long.Confidence (Long.exact_row code group) = 100%Q
      /\ (forall m, In m (Long.matched_rows (Long.compare combined)) ->
                    Long.merged_Normalized_Code m = code ->
                    m = Long.exact_row code group))
  /\ (forall code group, Long.Confidence (Long.exact_row code group) = 100%Q)
  /\ (forall combined l1 l2,
      In l1 combined -> In l2 combined ->
      Short.Normalized_Code l1 = Short.Normalized_Code l2 ->
      Short.Normalized_Code l1 <> "" ->
      Short.Source l1 <> Short.Source l2 ->
      let code := Short.Normalized_Code l1 in
      let group := rows_of Short.Normalized_Code combined code in
      In l1 group /\ In l2 group
      /\ In (code, group) (groupby Short.Normalized_Code combined)
      /\ (forall r, Short.group_result code group = Short.Ok (Some r) ->
                    Short.compute_confidence
                      (map Short.Item_Name (Short.dropna_price group))
                    = Short.Ok (Short.Confidence r))).
Proof.
  split; [|split].
  - intros combined l1 l2 H1 H2 Hc _ Hr. now apply LongFacts.exact_group.
  - reflexivity.
  - intros combined l1 l2 H1 H2 Hc _ Hr code group.
    assert (G1 : In l1 group) by now apply PandasFacts.rows_of_in.
    assert (G2 : In l2 group)
      by (apply PandasFacts.rows_of_in; split; [exact H2 | now symmetry]).
    repeat split; try assumption.
    + now apply PandasFacts.groupby_of_row.
    + intros r Hres. now apply ShortFacts.group_result_confidence in Hres.
Qed.

(** The short-form script on the two Widget listings (same code "x1", 2B
    and Btech): its single row has confidence 81.8. *)
Lemma C2_short_widget_confidence :
  map (fun l => (Short.Normalized_Code l, Short.Source l))
      (concat (Short.all_data Scenario.widget))
  = [("x1", R_2B); ("x1", R_Btech)]
  /\ exists r,
      Short.process_category Scenario.widget
      = Short.Ok (Some {| Short.matched := [r]; Short.unmatched := [] |})
      /\ Short.result_Normalized_Code r = "x1"
      /\ Short.Confidence r = 81.8%Q
      /\ ~ (Short.Confidence r == 100)%Q.
Proof.
  split; [reflexivity|].
  eexists. split; [vm_compute; reflexivity|].
  repeat split. vm_compute. discriminate.
Qed.

(** C2 at an instance: the two Widget listings in the long form. *)
Lemma C2_witness_widget :
  let combined := concat (Long.all_dfs Scenario.widget) in
  exists m,
    Long.matched_rows (Long.compare combined) = [m]
    /\ Long.merged_Normalized_Code m = "x1"
    /\ Long.Confidence m = 100%Q.
Proof.
  pose (l1 := {| Long.Item_Name := "Widget X1"; Long.New_Price := Some 100%Q;
                 Long.Normalized_Code := "x1"; Long.Retailer := R_2B |}).
  pose (l2 := {| Long.Item_Name := "Widget X1 Pro"; Long.New_Price := Some 90%Q;
                 Long.Normalized_Code := "x1"; Long.Retailer := R_Btech |}).
  destruct (proj1 C2_exact_code_group_long_only [l1; l2] l1 l2)
    as (_ & _ & _ & Hconf & _).
  - simpl; auto.
  - simpl; auto.
  - reflexivity.
  - discriminate.
  - discriminate.
  - exists (Long.exact_row "x1" [l1; l2]).
    split; [reflexivity | split; [reflexivity | exact Hconf]].
Defined.

(** C3 (the code does otherwise).  The short-form script keeps a group as
    soon as it has two priced rows, whatever their retailers: on
    [Scenario.same_retailer_pair] the two rows under code "k17" both come
    from 2B, and the script reports a row for them. *)
Theorem C3_short_reports_single_retailer_group :
  let combined := concat (Short.all_data Scenario.same_retailer_pair) in
  map Short.Source (rows_of Short.Normalized_Code combined "k17")
  = [R_2B; R_2B]
  /\ nunique (map Short.Source (rows_of Short.Normalized_Code combined "k17"))
     = 1
  /\ exists r,
      Short.process_category Scenario.same_retailer_pair
      = Short.Ok (Some {| Short.matched := [r]; Short.unmatched := [] |})
      /\ Short.result_Normalized_Code r = "k17"
      /\ Short.Lowest_Retailer r = R_2B.
Proof.
  cbv zeta. split; [reflexivity | split; [reflexivity|]].
  eexists. split; [vm_compute; reflexivity|]. split; reflexivity.
Qed.

(** ** Minimum of a list and of a dict *)

Module PyFacts.

Import Py.

(** [min(d.values())] and [min(d, key=d.get)] pick the same item: the
    first one whose value is the least.  Every item before it has a
    strictly larger value. *)
Lemma min_key_from_split {K} (kvs : list (K * Q)) : forall k m,
  exists pre post m',
    (k, m) :: kvs = pre ++ (min_key_from k m kvs, m') :: post
    /\ min_from m (map snd kvs) = m'
    /\ Forall (fun e => (m' < snd e)%Q) pre
    /\ Forall (fun e => (m' <= snd e)%Q) post.
Proof.
  induction kvs as [|[k1 x] kvs IH]; intros k m; simpl.
  - exists [], [], m. repeat split; constructor.
  - destruct (Qlt_le_dec x m) as [Hlt|Hle].
    + destruct (IH k1 x) as (pre & post & m' & E & Hmin & Hpre & Hpost).
      exists ((k, m) :: pre), post, m'. rewrite E. repeat split; auto.
      constructor; [|exact Hpre]. cbn [snd].
      destruct pre as [|e pre']; simpl in E.
      * injection E as _ E2 _. now rewrite <- E2.
      * injection E as E1 _. inversion Hpre as [|? ? He _]; subst e.
        cbn [snd] in He. now apply Qlt_trans with x.
    + destruct (IH k m) as (pre & post & m' & E & Hmin & Hpre & Hpost).
      destruct pre as [|e pre']; simpl in E.
      * injection E as E1 E2 E3.
        exists [], ((k1, x) :: kvs), m'. cbn [app].
        rewrite <- E1. repeat split; auto.
        -- now rewrite <- E2.
        -- constructor; [cbn [snd]; now rewrite <- E2 | now rewrite E3].
      * injection E as E1 E2.
        exists ((k, m) :: (k1, x) :: pre'), post, m'. cbn [app].
        split; [do 2 f_equal; exact E2|]. repeat split; auto.
        inversion Hpre as [|? ? He Hpre']; subst e. cbn [snd] in He.
        constructor; [exact He|]. constructor; [|exact Hpre'].
        cbn [snd]. now apply Qlt_le_trans with m.
Qed.

Lemma min_key_split {K} (kvs : list (K * Q)) k :
  min_key kvs = Some k ->
  exists pre post p,
    kvs = pre ++ (k, p) :: post
    /\ min (map snd kvs) = Some p
    /\ Forall (fun e => (p < snd e)%Q) pre
    /\ Forall (fun e => (p <= snd e)%Q) post.
Proof.
  destruct kvs as [|[k0 x] kvs]; simpl; [discriminate|].
  intros H. inversion H; subst; clear H.
  destruct (min_key_from_split kvs k0 x) as (pre & post & m' & E & Hm & H1 & H2).
  exists pre, post, m'. rewrite Hm. auto.
Qed.

(** [max([...])] bounds every element. *)
Lemma max_from_ge xs : forall m,
  (m <= max_from m xs)%Q /\ Forall (fun x => (x <= max_from m xs)%Q) xs.
Proof.
  induction xs as [|x xs IH]; intros m; simpl.
  - split; [apply Qle_refl | constructor].
  - destruct (Qlt_le_dec m x) as [Hlt|Hle].
    + destruct (IH x) as [H1 H2]. split.
      * apply Qle_trans with x; [now apply Qlt_le_weak | exact H1].
      * constructor; assumption.
    + destruct (IH m) as [H1 H2]. split; [exact H1|].
      constructor; [|exact H2]. now apply Qle_trans with m.
Qed.

(** [max([...])] is one of the elements. *)
Lemma max_from_in xs : forall m, In (max_from m xs) (m :: xs).
Proof.
  induction xs as [|x xs IH]; intros m; simpl; [now left|].
  destruct (Qlt_le_dec m x).
  - right. apply IH.
  - destruct (IH m) as [H|H]; [now left | right; now right].
Qed.

End PyFacts.

(** ** Prices in a merged row of the long-form script *)

Module LongPriceFacts.

Import RetailerFacts Long.

Lemma position_nth r : nth_error RETAILER_FOLDERS (position r) = Some r.
Proof. now destruct r. Qed.

Lemma merge_keys code group : map fst (merge code group) = RETAILER_FOLDERS.
Proof.
  unfold merge. rewrite map_map. unfold entry_of.
  simpl. repeat match goal with |- context [filter ?f group] =>
    destruct (filter f group) end; reflexivity.
Qed.

Lemma prices_of_in es r p :
  In (r, p) (prices_of es) <->
  exists e, In (r, e) es /\ entry_Price e = Some p.
Proof.
  unfold prices_of. rewrite in_flat_map. split.
  - intros ([r' e] & He & H). cbn [fst snd] in H.
    destruct (entry_Price e) as [q|] eqn:E; [|contradiction].
    destruct H as [H|[]]. inversion H; subst. now exists e.
  - intros (e & He & E). exists (r, e). split; [exact He|].
    cbn [fst snd]. rewrite E. now left.
Qed.


(** The dict [prices] lists the retailers in the order of
    [RETAILER_FOLDERS]. *)
Lemma prices_sorted code group :
  StronglySorted (fun e1 e2 => position (fst e1) < position (fst e2))
                 (prices_of (merge code group)).
Proof.
  unfold merge, prices_of, entry_of. simpl.
  repeat match goal with |- context [filter ?f group] =>
    destruct (filter f group) end; cbn [fst snd entry_Price app];
  repeat match goal with |- context [match New_Price ?l with _ => _ end] =>
    destruct (New_Price l) end; cbn [app];
  repeat (constructor; cbn [fst position]; try lia).
Qed.

Lemma sorted_after {A} (R : A -> A -> Prop) pre x post :
  StronglySorted R (pre ++ x :: post) -> Forall (R x) post.
Proof.
  induction pre as [|y pre IH]; simpl; intros H; inversion H; subst; auto.
Qed.

(** What [best] returns for the prices of a merged row. *)
Lemma best_none code group :
  (forall r e, In (r, e) (merge code group) -> entry_Price e = None) ->
  best (prices_of (merge code group)) = (None, None).
Proof.
  intros H. destruct (prices_of (merge code group)) as [|[r p] ps] eqn:E;
    [reflexivity|].
  assert (Hin : In (r, p) (prices_of (merge code group)))
    by (rewrite E; now left).
  apply prices_of_in in Hin as (e & He & Hp). rewrite (H r e He) in Hp.
  discriminate.
Qed.

Lemma best_some code group r0 e0 p0 :
  In (r0, e0) (merge code group) -> entry_Price e0 = Some p0 ->
  exists p r pre post,
    best (prices_of (merge code group)) = (Some p, Some r)
    /\ prices_of (merge code group) = pre ++ (r, p) :: post
    /\ Forall (fun e => (p < snd e)%Q) pre
    /\ Forall (fun e => (p <= snd e)%Q) post.
Proof.
  intros He Hp.
  assert (Hin : In (r0, p0) (prices_of (merge code group)))
    by (apply prices_of_in; now exists e0).
  destruct (prices_of (merge code group)) as [|[r1 p1] ps] eqn:E;
    [contradiction|].
  unfold best.
  destruct (Py.min_key ((r1, p1) :: ps)) as [r|] eqn:K; [|discriminate].
  destruct (PyFacts.min_key_split _ _ K) as (pre & post & p & Es & Hm & H1 & H2).
  exists p, r, pre, post. rewrite Hm. auto.
Qed.

Lemma best_inv code group p r :
  best (prices_of (merge code group)) = (Some p, Some r) ->
  exists pre post,
    prices_of (merge code group) = pre ++ (r, p) :: post
    /\ Forall (fun e => (p < snd e)%Q) pre
    /\ Forall (fun e => (p <= snd e)%Q) post.
Proof.
  intros H.
  destruct (prices_of (merge code group)) as [|[r1 p1] ps] eqn:E;
    [discriminate|].
  unfold best in H.
  destruct (Py.min_key ((r1, p1) :: ps)) as [r'|] eqn:K; [|discriminate].
  destruct (PyFacts.min_key_split _ _ K) as (pre & post & p' & Es & Hm & H1 & H2).
  rewrite Hm in H. inversion H; subst. now exists pre, post.
Qed.

End LongPriceFacts.

(** ** Prices in a group of the short-form script *)

Module ShortPriceFacts.

Import RetailerFacts Short.

Lemma idxmin_from_split group : forall bestrow m,
  New_Price bestrow = Some m ->
  exists pre post m',
    bestrow :: group = pre ++ idxmin_from bestrow m group :: post
    /\ New_Price (idxmin_from bestrow m group) = Some m'
    /\ Forall (above m') pre /\ Forall (not_below m') post.
Proof.
  induction group as [|l group IH]; intros bestrow m Hb; simpl.
  - exists [], [], m. repeat split; auto.
  - destruct (New_Price l) as [p|] eqn:Hl.
    + destruct (Qlt_le_dec p m) as [Hlt|Hle].
      * destruct (IH l p Hl) as (pre & post & m' & E & Hm & Hpre & Hpost).
        exists (bestrow :: pre), post, m'. rewrite E. repeat split; auto.
        constructor; [|exact Hpre].
        intros q Hq. rewrite Hb in Hq. injection Hq as <-.
        destruct pre as [|e pre']; simpl in E.
        -- injection E as E1 _. rewrite <- E1, Hl in Hm.
           injection Hm as <-. exact Hlt.
        -- injection E as E1 _. inversion Hpre as [|? ? He _]; subst e.
           apply Qlt_trans with p; [now apply He | exact Hlt].
      * destruct (IH bestrow m Hb) as (pre & post & m' & E & Hm & Hpre & Hpost).
        destruct pre as [|e pre']; simpl in E.
        -- injection E as E1 E2.
           exists [], (l :: group), m'. cbn [app]. rewrite <- E1.
           rewrite <- E1, Hb in Hm. injection Hm as <-.
           repeat split; auto.
           constructor; [|now rewrite E2].
           intros q Hq. rewrite Hl in Hq. now injection Hq as <-.
        -- injection E as E1 E2.
           exists (bestrow :: l :: pre'), post, m'. cbn [app].
           split; [do 2 f_equal; exact E2|]. repeat split; auto.
           inversion Hpre as [|? ? He Hpre']; subst e.
           constructor; [exact He|]. constructor; [|exact Hpre'].
           intros q Hq. rewrite Hl in Hq. injection Hq as <-.
           apply Qlt_le_trans with m; [now apply He | exact Hle].
    + destruct (IH bestrow m Hb) as (pre & post & m' & E & Hm & Hpre & Hpost).
      destruct pre as [|e pre']; simpl in E.
      * injection E as E1 E2.
        exists [], (l :: group), m'. cbn [app]. rewrite <- E1.
        rewrite <- E1 in Hm. repeat split; auto.
        constructor; [|now rewrite E2].
        intros q Hq. rewrite Hl in Hq. discriminate.
      * injection E as E1 E2.
        exists (bestrow :: l :: pre'), post, m'. cbn [app].
        split; [do 2 f_equal; exact E2|]. repeat split; auto.
        inversion Hpre as [|? ? He Hpre']; subst e.
        constructor; [exact He|]. constructor; [|exact Hpre'].
        intros q Hq. rewrite Hl in Hq. discriminate.
Qed.

(** [idxmin] selects the first row that holds the least price. *)
Lemma idxmin_split group best_row m :
  idxmin group = Some (best_row, m) ->
  exists pre post,
    group = pre ++ best_row :: post
    /\ New_Price best_row = Some m
    /\ Forall (above m) pre /\ Forall (not_below m) post.
Proof.
  induction group as [|l group IH]; simpl; [discriminate|].
  destruct (New_Price l) as [p|] eqn:Hl.
  - destruct (idxmin_from_split group l p Hl)
      as (pre & post & m' & E & Hm & Hpre & Hpost).
    rewrite Hm. intros H. injection H as <- <-. now exists pre, post.
  - intros H. destruct (IH H) as (pre & post & E & Hm & Hpre & Hpost).
    exists (l :: pre), post. rewrite E. repeat split; auto.
    constructor; [|exact Hpre]. intros q Hq. rewrite Hl in Hq. discriminate.
Qed.

(** The result row of a group shows the first priced row of the group
    that holds the least price. *)
Lemma group_result_best code group r :
  group_result code group = Ok (Some r) ->
  exists pre best_row post,
    dropna_price group = pre ++ best_row :: post
    /\ New_Price best_row = Some (Best_Price r)
    /\ Source best_row = Lowest_Retailer r
    /\ Item_Name best_row = result_Item_Name r
    /\ Forall (above (Best_Price r)) pre
    /\ Forall (not_below (Best_Price r)) post.
Proof.
  unfold group_result.
  destruct (length (dropna_price group) <? 2); [discriminate|].
  destruct (compute_confidence _) as [c|]; simpl; [|discriminate].
  destruct (idxmin (dropna_price group)) as [[best_row price]|] eqn:I;
    [|discriminate].
  intros H. inversion H; subst; clear H. cbn.
  destruct (idxmin_split _ _ _ I) as (pre & post & E & Hm & Hpre & Hpost).
  now exists pre, best_row, post.
Qed.

Lemma dropna_price_in group l :
  In l (dropna_price group) <-> In l group /\ New_Price l <> None.
Proof.
  unfold dropna_price. rewrite filter_In. cbv beta.
  destruct (New_Price l); cbn; intuition congruence.
Qed.

End ShortPriceFacts.

(** ** Order of the rows of the combined frame of the short-form script *)

Module ShortOrderFacts.

Import RetailerFacts Short.

Lemma prepare_source df r f :
  prepare df r = Some f -> Forall (fun l => Source l = r) f.
Proof.
  unfold prepare. destruct (negb _); [discriminate|].
  intros H. injection H as <-. apply Forall_forall.
  intros l Hl. apply in_map_iff in Hl as (row & <- & _). reflexivity.
Qed.

(** The combined frame is the frame of 2B, then that of Btech, then that
    of Raneen, each possibly empty. *)
Lemma all_data_blocks srcs :
  exists f1 f2 f3,
    concat (all_data srcs) = f1 ++ f2 ++ f3
    /\ Forall (fun l => Source l = R_2B) f1
    /\ Forall (fun l => Source l = R_Btech) f2
    /\ Forall (fun l => Source l = R_Raneen) f3.
Proof.
  assert (B : forall r,
    exists f, (match srcs r with
               | Some df => match prepare df r with
                            | Some f => [f]
                            | None => []
                            end
               | None => []
               end = [f] \/
               match srcs r with
               | Some df => match prepare df r with
                            | Some f => [f]
                            | None => []
                            end
               | None => []
               end = [] /\ f = [])
              /\ Forall (fun l => Source l = r) f).
  { intros r. destruct (srcs r) as [df|]; [|exists []; auto].
    destruct (prepare df r) as [f|] eqn:P; [|exists []; auto].
    exists f. split; [now left | now apply prepare_source with df]. }
  destruct (B R_2B) as (f1 & E1 & S1), (B R_Btech) as (f2 & E2 & S2),
           (B R_Raneen) as (f3 & E3 & S3).
  exists f1, f2, f3. repeat split; try assumption.
  unfold all_data, items, RETAILER_FOLDERS. cbn [flat_map].
  rewrite !flat_map_app. cbn [flat_map app].
  destruct (srcs R_2B) as [d1|], (srcs R_Btech) as [d2|],
           (srcs R_Raneen) as [d3|]; cbn [flat_map app fst snd];
    repeat match goal with
           | |- context [prepare ?d ?r] => destruct (prepare d r)
           end;
    repeat match goal with
           | H : _ \/ _ |- _ => destruct H as [H|[H ->]]
           end;
    try discriminate;
    repeat match goal with
           | H : [_] = [_] |- _ => injection H as <-
           end;
    cbn [concat app]; rewrite ?app_nil_r; reflexivity.
Qed.

Lemma sorted_app {A} (R : A -> A -> Prop) l1 l2 :
  StronglySorted R l1 -> StronglySorted R l2 ->
  (forall x y, In x l1 -> In y l2 -> R x y) ->
  StronglySorted R (l1 ++ l2).
Proof.
  induction 1 as [|x l1 S1 IH F1]; simpl; intros S2 H12; [exact S2|].
  constructor.
  - apply IH; [exact S2 | intros; apply H12; auto].
  - apply Forall_app. split; [exact F1|].
    apply Forall_forall. intros y Hy. apply H12; auto.
Qed.

Lemma sorted_block r f :
  Forall (fun l => Source l = r) f -> StronglySorted by_position f.
Proof.
  induction 1 as [|l f Hl Hf IH]; constructor; [exact IH|].
  apply Forall_forall. intros l' Hl'. unfold by_position.
  rewrite Forall_forall in Hf. rewrite Hl, (Hf l' Hl'). lia.
Qed.

(** The rows of the combined frame come in the order of the retailers. *)
Lemma all_data_sorted srcs :
  StronglySorted by_position (concat (all_data srcs)).
Proof.
  destruct (all_data_blocks srcs) as (f1 & f2 & f3 & -> & S1 & S2 & S3).
  pose proof S1 as T1. pose proof S2 as T2. pose proof S3 as T3.
  rewrite Forall_forall in T1, T2, T3.
  apply sorted_app; [now apply sorted_block with R_2B | |].
  - apply sorted_app;
      [now apply sorted_block with R_Btech
      | now apply sorted_block with R_Raneen |].
    intros x y Hx Hy. unfold by_position.
    rewrite (T2 x Hx), (T3 y Hy). simpl. lia.
  - intros x y Hx Hy. unfold by_position. rewrite (T1 x Hx). simpl. lia.
Qed.

Lemma sorted_filter {A} (R : A -> A -> Prop) f l :
  StronglySorted R l -> StronglySorted R (filter f l).
Proof.
  induction 1 as [|x l S IH F]; simpl; [constructor|].
  destruct (f x); [|exact IH]. constructor; [exact IH|].
  apply Forall_forall. intros y Hy. apply filter_In in Hy as [Hy _].
  rewrite Forall_forall in F. now apply F.
Qed.

End ShortOrderFacts.

(** ** Claims on the best price *)




(** C6 (amended).  Long form: a reported row shows one price per
    retailer, that of the retailer's first listing under the code.  When
    some price is shown, the best price is the least of the prices shown
    and the lowest retailer is the first, in the iteration order of
    [RETAILER_FOLDERS], of the retailers shown at that price; when none
    is shown, neither is reported.  Short form: the best price of a
    reported row is the least price of the listings of its code, and the
    lowest retailer is the first, in that order, of the retailers having
    a listing at that price.  Both are functions of the input, so the
    choice is the same on every run. *)
Theorem C6_tie_goes_to_first_retailer_shown :
  (forall srcs out m,
      Long.process_category srcs = Some out ->
      In m (Long.matched_rows out ++ Long.weak_matched_rows out
            ++ Long.unmatched_rows out) ->
      let group := rows_of Long.Normalized_Code (concat (Long.all_dfs srcs))
                           (Long.merged_Normalized_Code m) in
      (forall r e,
          In (r, e) (Long.entries m) ->
          Long.entry_Price e
          = match filter (fun l => retailer_eqb (Long.Retailer l) r) group with
            | l :: _ => Long.New_Price l
            | [] => None
            end)
      /\ ((forall r e, In (r, e) (Long.entries m) -> Long.entry_Price e = None)
          -> Long.Best_Price m = None /\ Long.Lowest_Retailer m = None)
      /\ (forall r0 e0 p0,
             In (r0, e0) (Long.entries m) -> Long.entry_Price e0 = Some p0 ->
             exists p r e,
               Long.Best_Price m = Some p
               /\ Long.Lowest_Retailer m = Some r
               /\ In (r, e) (Long.entries m)
               /\ Long.entry_Price e = Some p
               /\ (forall r' e' q,
                      In (r', e') (Long.entries m) ->
                      Long.entry_Price e' = Some q ->
                      (p <= q)%Q
                      /\ ((q == p)%Q -> position r <= position r'))))
  /\ (forall srcs out r,
      Short.process_category srcs = Short.Ok (Some out) ->
      In r (Short.matched out) \/ In r (Short.unmatched out) ->
      (exists l, In l (concat (Short.all_data srcs))
                 /\ Short.Normalized_Code l = Short.result_Normalized_Code r
                 /\ Short.New_Price l = Some (Short.Best_Price r)
                 /\ Short.Source l = Short.Lowest_Retailer r)
      /\ (forall l q,
             In l (concat (Short.all_data srcs)) ->
             Short.Normalized_Code l = Short.result_Normalized_Code r ->
             Short.New_Price l = Some q ->
             (Short.Best_Price r <= q)%Q
             /\ ((q == Short.Best_Price r)%Q ->
                 position (Short.Lowest_Retailer r)
                 <= position (Short.Source l)))).
Proof.
  split.
  - intros srcs out m Hout Hm group.
    unfold Long.process_category in Hout.
    destruct (length (items srcs) <? 2); [discriminate|].
    destruct (length (Long.all_dfs srcs) <? 2); [discriminate|].
    injection Hout as <-. rewrite LongFacts.compare_tiers in Hm.
    cbn [Long.matched_rows Long.weak_matched_rows Long.unmatched_rows] in Hm.
    rewrite app_nil_r in Hm.
    apply LongFacts.primary_pass_in in Hm as (code & _ & _ & ->).
    subst group. cbn [Long.exact_row Long.merged_Normalized_Code Long.entries
                      Long.Best_Price Long.Lowest_Retailer].
    set (group := rows_of Long.Normalized_Code
                          (concat (Long.all_dfs srcs)) code).
    split; [|split].
    + intros r e He. unfold Long.merge in He.
      apply in_map_iff in He as (r' & E & _). unfold Long.entry_of in E.
      destruct (filter (fun l => retailer_eqb (Long.Retailer l) r') group)
        as [|l ls] eqn:F; injection E as -> <-; rewrite F; reflexivity.
    + intros Hnone. now rewrite (LongPriceFacts.best_none _ _ Hnone).
    + intros r0 e0 p0 H0 P0.
      destruct (LongPriceFacts.best_some _ _ _ _ _ H0 P0)
        as (p & r & pre & post & Hb & Hs & Hpre & Hpost).
      rewrite Hb. cbn [fst snd].
      assert (Hin : In (r, p) (Long.prices_of (Long.merge code group)))
        by (rewrite Hs; apply in_elt).
      apply LongPriceFacts.prices_of_in in Hin as (e & He & Hp).
      exists p, r, e. repeat split; auto.
      * assert (Hin' : In (r', q) (Long.prices_of (Long.merge code group)))
          by (apply LongPriceFacts.prices_of_in; now exists e').
        rewrite Hs in Hin'. apply in_app_or in Hin' as [Hin'|[Hin'|Hin']].
        -- rewrite Forall_forall in Hpre.
           apply Qlt_le_weak. exact (Hpre _ Hin').
        -- injection Hin' as _ <-. apply Qle_refl.
        -- rewrite Forall_forall in Hpost. exact (Hpost _ Hin').
      * intros Heq.
        pose proof (LongPriceFacts.prices_sorted code group) as Hsorted.
        rewrite Hs in Hsorted.
        assert (Hin' : In (r', q) (Long.prices_of (Long.merge code group)))
          by (apply LongPriceFacts.prices_of_in; now exists e').
        rewrite Hs in Hin'. apply in_app_or in Hin' as [Hin'|[Hin'|Hin']].
        -- rewrite Forall_forall in Hpre. specialize (Hpre _ Hin').
           cbn in Hpre. rewrite Heq in Hpre. now apply Qlt_irrefl in Hpre.
        -- injection Hin' as -> _. lia.
        -- apply LongPriceFacts.sorted_after in Hsorted.
           rewrite Forall_forall in Hsorted. specialize (Hsorted _ Hin').
           cbn in Hsorted. lia.
  - intros srcs out r Hout Hr.
    unfold Short.process_category in Hout.
    destruct (length (items srcs) <? 2); [discriminate|].
    destruct (length (Short.all_data srcs) <? 2); [discriminate|].
    destruct (Short.compare (concat (Short.all_data srcs))) as [out'|] eqn:C;
      simpl in Hout; [|discriminate].
    injection Hout as ->.
    apply (ShortFacts.compare_in _ _ r C) in Hr as (code & _ & Hres).
    destruct (ShortFacts.group_result_confidence _ _ _ Hres) as (_ & Hcode & _).
    destruct (ShortPriceFacts.group_result_best _ _ _ Hres)
      as (pre & best_row & post & E & Hp & Hs & _ & Hpre & Hpost).
    assert (Hsorted : StronglySorted Short.by_position
              (Short.dropna_price
                 (rows_of Short.Normalized_Code
                          (concat (Short.all_data srcs)) code))).
    { unfold Short.dropna_price, rows_of.
      do 2 apply ShortOrderFacts.sorted_filter.
      apply ShortOrderFacts.all_data_sorted. }
    rewrite E in Hsorted. split.
    + exists best_row.
      assert (Hin : In best_row (Short.dropna_price
                (rows_of Short.Normalized_Code
                         (concat (Short.all_data srcs)) code)))
        by (rewrite E; apply in_elt).
      apply ShortPriceFacts.dropna_price_in in Hin as [Hin _].
      apply PandasFacts.rows_of_in in Hin as [Hin Hc].
      repeat split; auto. congruence.
    + intros l q Hl Hc Hq.
      assert (Hin : In l (Short.dropna_price
                (rows_of Short.Normalized_Code
                         (concat (Short.all_data srcs)) code))).
      { apply ShortPriceFacts.dropna_price_in. split; [|congruence].
        apply PandasFacts.rows_of_in. split; [exact Hl | congruence]. }
      rewrite E in Hin. split.
      * apply in_app_or in Hin as [Hin|[Hin|Hin]].
        -- rewrite Forall_forall in Hpre.
           apply Qlt_le_weak. exact (Hpre _ Hin _ Hq).
        -- subst l. rewrite Hp in Hq. injection Hq as <-. apply Qle_refl.
        -- rewrite Forall_forall in Hpost. exact (Hpost _ Hin _ Hq).
      * intros Heq. apply in_app_or in Hin as [Hin|[Hin|Hin]].
        -- rewrite Forall_forall in Hpre. specialize (Hpre _ Hin _ Hq).
           rewrite Heq in Hpre. now apply Qlt_irrefl in Hpre.
        -- subst l. rewrite Hs. lia.
        -- apply LongPriceFacts.sorted_after in Hsorted.
           rewrite Forall_forall in Hsorted. specialize (Hsorted _ Hin).
           unfold Short.by_position in Hsorted. now rewrite Hs in Hsorted.
Qed.

(** [Scenario.hidden_tie]: 2B lists the code at 100 and then at 50, Btech
    at 50, so 2B and Btech tie on the least price of the group.  The
    long-form row shows 100 for 2B and names Btech, which comes after 2B
    in the iteration order; the short-form row names 2B. *)
Lemma C6_counterexample_hidden_tie :
  map (fun l => (Long.Retailer l, Long.New_Price l))
      (rows_of Long.Normalized_Code
               (concat (Long.all_dfs Scenario.hidden_tie)) "x1")
  = [(R_2B, Some 100%Q); (R_2B, Some 50%Q); (R_Btech, Some 50%Q)]
  /\ (exists m,
      Long.process_category Scenario.hidden_tie
      = Some {| Long.matched_rows := [m];
                Long.weak_matched_rows := [];
                Long.unmatched_rows := [] |}
      /\ Long.merged_Normalized_Code m = "x1"
      /\ Long.Best_Price m = Some 50%Q
      /\ Long.Lowest_Retailer m = Some R_Btech)
  /\ position R_2B < position R_Btech
  /\ (exists r,
      Short.process_category Scenario.hidden_tie
      = Short.Ok (Some {| Short.matched := [r]; Short.unmatched := [] |})
      /\ Short.Best_Price r = 50%Q
      /\ Short.Lowest_Retailer r = R_2B).
Proof.
  split; [reflexivity|]. split; [|split; [simpl; lia|]].
  - eexists. split; [vm_compute; reflexivity|]. repeat split.
  - eexists. split; [vm_compute; reflexivity|]. repeat split.
Qed.

(** C6 at an instance: Btech and Raneen both ask 90 in
    [Scenario.tied_prices]; both scripts name Btech. *)
Lemma C6_witness_tied_prices :
  (exists out m,
      Long.process_category Scenario.tied_prices = Some out
      /\ Long.matched_rows out = [m]
      /\ Long.Lowest_Retailer m = Some R_Btech
      /\ position R_Btech <= position R_Raneen)
  /\ (exists out r,
      Short.process_category Scenario.tied_prices = Short.Ok (Some out)
      /\ Short.matched out = [r]
      /\ Short.Lowest_Retailer r = R_Btech
      /\ position (Short.Lowest_Retailer r) <= position R_Raneen).
Proof.
  pose (e3 := {| Long.entry_Item_Name := "Widget X1 Max";
                 Long.entry_Price := Some 90%Q;
                 Long.entry_Item_SKU := "x1" |}).
  pose (l3 := {| Short.Item_Name := Text "Widget X1 Max";
                 Short.New_Price := Some 90%Q;
                 Short.Normalized_Code := "x1";
                 Short.Product_URL := Text "https://shop.example/p";
                 Short.Source := R_Raneen |}).
  pose (r0 := {| Short.result_Item_Name := Text "Widget X1 Pro";
                 Short.result_Normalized_Code := "x1";
                 Short.Confidence := 80.2%Q;
                 Short.Best_Price := 90%Q;
                 Short.Lowest_Retailer := R_Btech;
                 Short.result_Product_URL := Text "https://shop.example/p" |}).
  pose (out0 := {| Short.matched := [r0]; Short.unmatched := [] |}).
  pose (m0 := Long.exact_row "x1" (concat (Long.all_dfs Scenario.tied_prices))).
  pose (lout0 := {| Long.matched_rows := [m0];
                    Long.weak_matched_rows := [];
                    Long.unmatched_rows := [] |}).
  split.
  - assert (Hout : Long.process_category Scenario.tied_prices = Some lout0)
      by (vm_compute; reflexivity).
    exists lout0, m0. split; [exact Hout|]. split; [reflexivity|].
    split; [reflexivity|].
    destruct (proj1 C6_tie_goes_to_first_retailer_shown Scenario.tied_prices
                lout0 m0 Hout (or_introl eq_refl)) as (_ & _ & H).
    destruct (H R_Raneen e3 90%Q) as (p & r & e & Hp & Hr & _ & _ & Hall);
      [vm_compute; auto | reflexivity|].
    assert (Er : r = R_Btech) by (vm_compute in Hr; congruence).
    assert (Ep : p = 90%Q) by (vm_compute in Hp; congruence).
    subst r p.
    apply (Hall R_Raneen e3 90%Q); [vm_compute; auto | reflexivity
                                    | reflexivity].
  - assert (Hout : Short.process_category Scenario.tied_prices
                   = Short.Ok (Some out0)) by (vm_compute; reflexivity).
    exists out0, r0. repeat split; try exact Hout.
    destruct (proj2 C6_tie_goes_to_first_retailer_shown Scenario.tied_prices
                out0 r0 Hout (or_introl (or_introl eq_refl))) as [_ H].
    apply (H l3 90%Q); [vm_compute; auto | reflexivity | reflexivity
                        | reflexivity].
Defined.

(** ** Rounding *)

Module RoundFacts.

Import Py.

Open Scope Q_scope.


(** [round_half_even] keeps a number between the integers that bound it. *)
Lemma round_half_even_between y (lo hi : Z) :
  inject_Z lo <= y -> y <= inject_Z hi ->
  (lo <= round_half_even y <= hi)%Z.
Proof.
  intros Hlo Hhi.
  pose proof (Qfloor_resp_le _ _ Hlo) as Flo. rewrite Qfloor_Z in Flo.
  pose proof (Qfloor_resp_le _ _ Hhi) as Fhi. rewrite Qfloor_Z in Fhi.
  pose proof (Qfloor_le y) as Hf.
  unfold round_half_even.
  destruct (Qcompare_spec (y - inject_Z (Qfloor y)) (1 # 2)) as [E|L|G].
  - destruct (Z.even (Qfloor y)); [lia|].
    destruct (Z.eq_dec (Qfloor y) hi) as [Eq|Ne]; [|lia].
    rewrite Eq in E. lra.
  - lia.
  - destruct (Z.eq_dec (Qfloor y) hi) as [Eq|Ne]; [|lia].
    rewrite Eq in G. lra.
Qed.



(** A percentage stays a percentage when rounded. *)
Lemma round_percent x n :
  (n = 1 \/ n = 2)%nat -> 0 <= x -> x <= 100 ->
  0 <= round x n /\ round x n <= 100.
Proof.
  intros [-> | ->] H0 H1.
  - change (round x 1) with (round_half_even (x * 10) # 10).
    destruct (round_half_even_between (x * 10) 0 1000) as [A B];
      [change (inject_Z 0) with 0; lra
      | change (inject_Z 1000) with 1000; lra |].
    unfold Qle; cbn [Qnum Qden]. lia.
  - change (round x 2) with (round_half_even (x * 100) # 100).
    destruct (round_half_even_between (x * 100) 0 10000) as [A B];
      [change (inject_Z 0) with 0; lra
      | change (inject_Z 10000) with 10000; lra |].
    unfold Qle; cbn [Qnum Qden]. lia.
Qed.

(** [sum(xs)] of numbers between 0 and [M]. *)
Lemma fold_sum_bounds M xs : forall acc,
  Forall (fun x => 0 <= x /\ x <= M) xs ->
  acc <= fold_left Qplus xs acc
  /\ fold_left Qplus xs acc <= acc + inject_Z (Z.of_nat (length xs)) * M.
Proof.
  induction xs as [|x xs IH]; intros acc H; cbn [fold_left length].
  - change (inject_Z (Z.of_nat 0)) with 0. split; lra.
  - inversion H as [|? ? [Hx0 HxM] Hxs]; subst.
    destruct (IH (acc + x) Hxs) as [A B].
    rewrite Nat2Z.inj_succ, <- Z.add_1_r, inject_Z_plus.
    change (inject_Z 1) with 1. split; lra.
Qed.

(** The mean of numbers between 0 and [M] lies between 0 and [M]. *)
Lemma mean_bounds M xs :
  xs <> [] -> Forall (fun x => 0 <= x /\ x <= M) xs ->
  0 <= Short.mean xs /\ Short.mean xs <= M.
Proof.
  intros Hne H. unfold Short.mean, sum.
  destruct (fold_sum_bounds M xs 0 H) as [A B].
  assert (Hn : 0 < inject_Z (Z.of_nat (length xs))).
  { destruct xs; [congruence|]. cbn [length].
    unfold Qlt; cbn. lia. }
  split.
  - apply Qle_shift_div_l; [exact Hn | lra].
  - apply Qle_shift_div_r; [exact Hn | lra].
Qed.

End RoundFacts.

(** ** Name similarity *)

Module SimilarityFacts.

Import Py.

Open Scope Q_scope.

Lemma round_half_even_comp x y : x == y -> round_half_even x = round_half_even y.
Proof.
  intros E. unfold round_half_even.
  rewrite (Qfloor_comp _ _ E).
  assert (C : (x - inject_Z (Qfloor y) ?= 1 # 2)
              = (y - inject_Z (Qfloor y) ?= 1 # 2))
    by (apply Qcompare_comp; [now rewrite E | reflexivity]).
  now rewrite C.
Qed.



Lemma match_score_range a b : 0 <= Long.match_score a b <= 1.
Proof.
  destruct a as [x|], b as [y|]; cbn; try apply DifflibFacts.ratio_range;
    split; discriminate.
Qed.


Lemma pairs_map {A B} (f : A -> B) l :
  Short.pairs (map f l)
  = map (fun ab => (f (fst ab), f (snd ab))) (Short.pairs l).
Proof.
  induction l as [|x l IH]; [reflexivity|]. cbn [map Short.pairs].
  rewrite map_app, IH, !map_map. reflexivity.
Qed.

Lemma mapM_score_text (ps : list (string * string)) :
  Short.mapM Short.score
             (map (fun ab => (Pandas.Text (fst ab), Pandas.Text (snd ab))) ps)
  = Short.Ok (map Short.pair_ratio ps).
Proof.
  induction ps as [|[a b] ps IH]; [reflexivity|].
  cbn [map Short.mapM fst snd Short.score Short.bind]. now rewrite IH.
Qed.

Lemma scores_range ps :
  Forall (fun x => 0 <= x /\ x <= 1) (map Short.pair_ratio ps).
Proof.
  apply Forall_forall. intros x Hx. apply in_map_iff in Hx as (ab & <- & _).
  apply DifflibFacts.ratio_range.
Qed.

Lemma pairs_length {A} (l : list A) :
  (2 <= length l)%nat -> Short.pairs l <> [].
Proof. destruct l as [|x [|y l]]; cbn; try lia. discriminate. Qed.

(** [compute_confidence] on names that are all text. *)
Lemma compute_confidence_text (names : list string) :
  (2 <= length names)%nat ->
  Short.compute_confidence (map Pandas.Text names)
  = Short.Ok (round (Short.mean (map Short.pair_ratio (Short.pairs names)) * 100) 1).
Proof.
  intros H. unfold Short.compute_confidence. rewrite length_map.
  destruct (Nat.ltb_spec (length names) 2); [lia|].
  now rewrite pairs_map, mapM_score_text.
Qed.

End SimilarityFacts.

(** ** What [compute_confidence] raises and returns *)

Module RaiseFacts.

Import Short.

(** A loop whose body raises nothing but [e0] raises exactly when the
    body raises on some element. *)
Lemma mapM_raise {A B} (f : A -> outcome B) e0 l :
  (forall x e, f x = Raise e -> e = e0) ->
  (forall e, mapM f l = Raise e -> e = e0)
  /\ (mapM f l = Raise e0 <-> exists x, In x l /\ f x = Raise e0).
Proof.
  intros Hf. induction l as [|x l [IH1 IH2]]; simpl.
  - split; [discriminate|]. split; [discriminate | intros (x & [] & _)].
  - destruct (f x) as [y|e] eqn:E; simpl.
    + destruct (mapM f l) as [ys|e'] eqn:M; simpl.
      * split; [discriminate|]. split; [discriminate|].
        intros (x' & [<-|Hx'] & Hr); [congruence|].
        assert (Raise (A := list B) e0 = Raise e0) by reflexivity.
        destruct IH2 as [_ IH2]. specialize (IH2 (ex_intro _ x' (conj Hx' Hr))).
        discriminate IH2.
      * split; [intros e He; injection He as <-; now apply IH1|].
        split.
        -- intros He. injection He as ->.
           destruct (proj1 IH2 eq_refl) as (x' & Hx' & Hr).
           exists x'. split; [now right | exact Hr].
        -- intros _. f_equal. now apply IH1.
    + pose proof (Hf x e E) as ->. split; [intros e He; now injection He|].
      split; [intros _; exists x; split; [now left | exact E] | reflexivity].
Qed.

Lemma score_raise ab e :
  score ab = Raise e ->
  e = TypeError
  /\ (Pandas.is_text (fst ab) = false \/ Pandas.is_text (snd ab) = false).
Proof.
  destruct ab as [[a| |a] [b| |b]]; simpl; try discriminate;
    intros H; injection H as <-; auto.
Qed.

Lemma score_none ab :
  Pandas.is_text (fst ab) = false \/ Pandas.is_text (snd ab) = false ->
  score ab = Raise TypeError.
Proof.
  destruct ab as [[a| |a] [b| |b]]; simpl; intros [H|H];
    congruence || reflexivity.
Qed.

Lemma pairs_in {A} (names : list A) a b :
  In (a, b) (pairs names) -> In a names /\ In b names.
Proof.
  induction names as [|x names IH]; simpl; [contradiction|].
  rewrite in_app_iff, in_map_iff. intros [(y & E & Hy)|H].
  - injection E as <- <-. auto.
  - destruct (IH H). auto.
Qed.

(** With two names or more, every name stands in some pair. *)
Lemma in_some_pair {A} (names : list A) n :
  2 <= length names -> In n names ->
  exists ab, In ab (pairs names) /\ (fst ab = n \/ snd ab = n).
Proof.
  induction names as [|x names IH]; simpl; [lia|]. intros L [->|Hn].
  - destruct names as [|y names]; [simpl in L; lia|].
    exists (n, y). split; [left; reflexivity | now left].
  - exists (x, n). split; [|now right].
    apply in_or_app. left. now apply in_map.
Qed.

(** [compute_confidence] raises exactly on two names or more of which one
    is not text, and then a [TypeError]. *)
Lemma compute_confidence_raise names :
  (forall e, compute_confidence names = Raise e -> e = TypeError)
  /\ (compute_confidence names = Raise TypeError <->
      2 <= length names
      /\ exists n, In n names /\ Pandas.is_text n = false).
Proof.
  unfold compute_confidence.
  destruct (mapM_raise score TypeError (pairs names))
    as [R1 R2]; [intros x e H; now apply score_raise in H|].
  destruct (Nat.ltb_spec (length names) 2) as [L|L].
  - split; [discriminate|]. split; [discriminate | lia].
  - destruct (mapM score (pairs names)) as [scores|e] eqn:M; simpl.
    + split; [discriminate|]. split; [discriminate|].
      intros [_ (n & Hn & Ht)].
      destruct (in_some_pair names n L Hn) as (ab & Hab & Hnone).
      assert (Hraise : score ab = Raise TypeError)
        by (apply score_none; destruct Hnone as [->| ->]; auto).
      destruct R2 as [_ R2].
      specialize (R2 (ex_intro _ ab (conj Hab Hraise))).
      discriminate R2.
    + rewrite (R1 e eq_refl) in *.
      split; [intros e' H; now injection H|].
      split; [|reflexivity]. intros _. split; [exact L|].
      destruct (proj1 R2 eq_refl) as ([a b] & Hab & Hr).
      apply score_raise in Hr as [_ Hr]. cbn [fst snd] in Hr.
      apply pairs_in in Hab as [Ha Hb].
      destruct Hr as [Hr|Hr]; [now exists a | now exists b].
Qed.

(** Names that [compute_confidence] accepts are all text. *)
Lemma compute_confidence_ok_text names c :
  2 <= length names -> compute_confidence names = Ok c ->
  exists texts, names = map Pandas.Text texts.
Proof.
  intros L H.
  assert (Hn : forall n, In n names -> Pandas.is_text n = true).
  { intros n Hn. destruct (Pandas.is_text n) eqn:T; [reflexivity|].
    assert (R : compute_confidence names = Raise TypeError)
      by (apply compute_confidence_raise; eauto).
    congruence. }
  clear L H. induction names as [|n names IH].
  - now exists [].
  - destruct IH as [texts ->]; [intros n' H; apply Hn; now right|].
    specialize (Hn n (or_introl eq_refl)).
    destruct n as [t| |t]; try discriminate Hn.
    now exists (t :: texts).
Qed.



(** [idxmin] finds a row as soon as one row has a price. *)
Lemma idxmin_some group :
  Short.dropna_price group <> [] -> idxmin (Short.dropna_price group) <> None.
Proof.
  unfold dropna_price.
  induction group as [|l group IH]; simpl; [congruence|].
  destruct (New_Price l) as [p|] eqn:P; cbn [Pandas.notna Pandas.isna negb].
  - intros _. cbn [idxmin]. rewrite P.
    destruct (ShortPriceFacts.idxmin_from_split
                (filter (fun l => Pandas.notna (New_Price l)) group) l p P)
      as (_ & _ & m' & _ & -> & _).
    discriminate.
  - exact IH.
Qed.

(** The body of the loop raises exactly on a group with two priced rows
    or more of which one has an item name that is not text. *)
Lemma group_result_raise code group :
  (forall e, group_result code group = Raise e -> e = TypeError)
  /\ (group_result code group = Raise TypeError <->
      2 <= length (dropna_price group)
      /\ exists l, In l (dropna_price group)
                   /\ Pandas.is_text (Item_Name l) = false).
Proof.
  unfold group_result.
  destruct (compute_confidence_raise (map Item_Name (dropna_price group)))
    as [C1 C2].
  rewrite length_map in C2.
  destruct (Nat.ltb_spec (length (dropna_price group)) 2) as [L|L].
  - split; [discriminate|]. split; [discriminate | lia].
  - destruct (compute_confidence (map Item_Name (dropna_price group)))
      as [c|e] eqn:C; simpl.
    + assert (I : idxmin (dropna_price group) <> None).
      { apply idxmin_some. destruct (dropna_price group); simpl in L;
          [lia | discriminate]. }
      destruct (idxmin (dropna_price group)) as [[row price]|];
        [|congruence].
      split; [discriminate|]. split; [discriminate|].
      intros (_ & l & Hl & Hn).
      destruct C2 as [_ C2]. discriminate C2.
      split; [exact L|]. exists (Item_Name l). split; [now apply in_map|].
      exact Hn.
    + rewrite (C1 e eq_refl) in *.
      split; [intros e' H; now injection H|].
      split; [|reflexivity]. intros _. split; [exact L|].
      destruct (proj1 C2 eq_refl) as [_ (n & Hn & Ht)].
      apply in_map_iff in Hn as (l & <- & Hl). now exists l.
Qed.

End RaiseFacts.

(** ** Claims on the confidence *)

Open Scope Q_scope.






Close Scope Q_scope.

(** ** Claims on missing prices and missing codes *)

Module PrepareFacts.

Import Pandas.

Lemma long_prepare_in df r f l :
  Long.prepare df r = Some f ->
  (In l f <->
   exists row, In row (rows df)
               /\ raw_Normalized_Code row <> Missing
               /\ l = Long.prepare_row r row).
Proof.
  unfold Long.prepare. destruct (negb _); [discriminate|].
  intros H. injection H as <-. rewrite in_map_iff. split.
  - intros (row & <- & Hrow). apply filter_In in Hrow as [Hrow Hc].
    exists row. repeat split; auto.
    destruct (raw_Normalized_Code row); [discriminate | discriminate Hc
                                         | discriminate].
  - intros (row & Hrow & Hc & ->). exists row. split; [reflexivity|].
    apply filter_In. split; [exact Hrow|].
    destruct (raw_Normalized_Code row); [reflexivity | congruence
                                         | reflexivity].
Qed.

(** A frame of [all_dfs] is the prepared sheet of some retailer. *)
Lemma all_dfs_in srcs f :
  In f (Long.all_dfs srcs) ->
  exists r df, srcs r = Some df /\ Long.prepare df r = Some f.
Proof.
  unfold Long.all_dfs, items. rewrite in_flat_map.
  intros ([r df] & Hrd & Hf). apply in_flat_map in Hrd as (r' & _ & Hrd).
  destruct (srcs r') as [df'|] eqn:S; [|contradiction].
  destruct Hrd as [E|[]]. injection E as -> ->. cbn [fst snd] in Hf.
  destruct (Long.prepare df r) as [g|] eqn:P; [|contradiction].
  destruct Hf as [<-|[]]. now exists r, df.
Qed.

Lemma long_prepare_some df r :
  has_columns Long.REQUIRED_COLUMNS df = true ->
  exists f, Long.prepare df r = Some f.
Proof. unfold Long.prepare. intros ->. cbn. eauto. Qed.

Lemma short_prepare_some df r :
  has_columns Short.REQUIRED_COLUMNS df = true ->
  Short.prepare df r = Some (map (Short.prepare_row r) (rows df)).
Proof. unfold Short.prepare. now intros ->. Qed.

Lemma dropna_price_idem group :
  Short.dropna_price (Short.dropna_price group) = Short.dropna_price group.
Proof.
  unfold Short.dropna_price. induction group as [|l g IH]; cbn; [reflexivity|].
  destruct (notna (Short.New_Price l)) eqn:E; cbn; [rewrite E|]; now rewrite IH.
Qed.

(** The body of the loop sees the priced rows of a group only. *)
Lemma group_result_dropna code group :
  Short.group_result code group
  = Short.group_result code (Short.dropna_price group).
Proof. unfold Short.group_result. now rewrite dropna_price_idem. Qed.

End PrepareFacts.

(** C5 (amended).  Long form: [prepare] drops the rows whose code cell
    is empty before anything is grouped.  Every listing of the combined
    frame comes from a row that has a code, every row of a table stands
    for two such listings of different retailers, and a category whose
    rows all lack a code yields an empty frame and three empty tables:
    listings without a code join no group, exact or fallback. *)
Theorem C5_codeless_listings_are_dropped :
  forall srcs,
    (forall l,
        In l (concat (Long.all_dfs srcs)) ->
        exists r df row,
          srcs r = Some df /\ In row (rows df)
          /\ raw_Normalized_Code row <> Missing
          /\ l = Long.prepare_row r row)
    /\ (forall out m,
        Long.process_category srcs = Some out ->
        In m (Long.matched_rows out ++ Long.weak_matched_rows out
              ++ Long.unmatched_rows out) ->
        exists l1 l2,
          In l1 (concat (Long.all_dfs srcs))
          /\ In l2 (concat (Long.all_dfs srcs))
          /\ Long.Normalized_Code l1 = Long.merged_Normalized_Code m
          /\ Long.Normalized_Code l2 = Long.merged_Normalized_Code m
          /\ Long.Retailer l1 <> Long.Retailer l2)
    /\ ((forall r df row,
            srcs r = Some df -> In row (rows df) ->
            raw_Normalized_Code row = Missing) ->
        concat (Long.all_dfs srcs) = []
        /\ forall out,
             Long.process_category srcs = Some out ->
             out = {| Long.matched_rows := [];
                      Long.weak_matched_rows := [];
                      Long.unmatched_rows := [] |}).
Proof.
  intros srcs.
  assert (H1 : forall l,
             In l (concat (Long.all_dfs srcs)) ->
             exists r df row,
               srcs r = Some df /\ In row (rows df)
               /\ raw_Normalized_Code row <> Missing
               /\ l = Long.prepare_row r row).
  { intros l Hl. apply in_concat in Hl as (f & Hf & Hl).
    apply PrepareFacts.all_dfs_in in Hf as (r & df & Hs & Hp).
    apply (PrepareFacts.long_prepare_in _ _ _ l Hp) in Hl
      as (row & Hrow & Hc & ->).
    now exists r, df, row. }
  split; [exact H1|]. split.
  - intros out m Hout Hm. unfold Long.process_category in Hout.
    destruct (length (items srcs) <? 2); [discriminate|].
    destruct (length (Long.all_dfs srcs) <? 2); [discriminate|].
    injection Hout as <-.
    now apply LongFacts.reported_group_spans_two_retailers.
  - intros Hall.
    assert (E : concat (Long.all_dfs srcs) = []).
    { destruct (concat (Long.all_dfs srcs)) as [|l ls] eqn:C; [reflexivity|].
      destruct (H1 l (or_introl eq_refl)) as (r & df & row & Hs & Hrow & Hc & _).
      elim Hc. now apply (Hall r df row). }
    split; [exact E|].
    intros out Hout. unfold Long.process_category in Hout.
    destruct (length (items srcs) <? 2); [discriminate|].
    destruct (length (Long.all_dfs srcs) <? 2); [discriminate|].
    injection Hout as <-. now rewrite E.
Qed.

(** The long-form script on the two Blender listings, whose code cells
    are empty: both are dropped, the combined frame is empty and so are
    the three tables.  No fallback group is formed and no row with a
    confidence of 55 is reported in the weak-matched table. *)
Lemma C5_long_blender_is_not_reported :
  map (fun df => length (rows df))
      (map snd (items Scenario.blender)) = [1; 1]
  /\ concat (Long.all_dfs Scenario.blender) = []
  /\ Long.process_category Scenario.blender
     = Some {| Long.matched_rows := [];
               Long.weak_matched_rows := [];
               Long.unmatched_rows := [] |}
  /\ ~ (exists out m,
          Long.process_category Scenario.blender = Some out
          /\ In m (Long.weak_matched_rows out)).
Proof.
  split; [reflexivity|]. split; [reflexivity|]. split; [reflexivity|].
  intros (out & m & Hout & Hm). vm_compute in Hout. injection Hout as <-.
  exact Hm.
Qed.

(** C5 at an instance: the two Blender listings. *)
Lemma C5_witness_blender :
  concat (Long.all_dfs Scenario.blender) = []
  /\ forall out,
       Long.process_category Scenario.blender = Some out ->
       Long.weak_matched_rows out = [].
Proof.
  destruct (C5_codeless_listings_are_dropped Scenario.blender)
    as (_ & _ & H).
  destruct H as [E Hout].
  - intros r df row Hs Hrow.
    destruct r; cbn in Hs; try discriminate Hs;
      injection Hs as <-; destruct Hrow as [<-|[]]; reflexivity.
  - split; [exact E|]. intros out Ho. now rewrite (Hout out Ho).
Defined.

(** C9 (amended).  Both scripts turn a price cell that is blank or not a
    number into "no price" and keep the row in the frame.  Long form: the
    listing is in the prepared frame with no price, it belongs to the
    group of its code in any combined frame that holds it, and it can be
    shown in a reported row with an empty price
    ([Scenario.unparseable_price]).  Short form: the listing is in the
    prepared frame with no price, but the loop drops the rows without a
    price from a group before anything else: the listing is not among the
    rows that are examined, and the outcome for the group is the one of
    its priced rows alone. *)
Theorem C9_unparseable_price_long_keeps_short_drops :
  (forall s, to_numeric_coerce (Unparseable s) = None)
  /\ to_numeric_coerce Blank = None
  /\ (forall df r row,
      has_columns Long.REQUIRED_COLUMNS df = true ->
      In row (rows df) -> raw_Normalized_Code row <> Missing ->
      to_numeric_coerce (raw_New_Price row) = None ->
      let l := Long.prepare_row r row in
      (exists f, Long.prepare df r = Some f /\ In l f)
      /\ Long.New_Price l = None
      /\ (forall combined, In l combined ->
            In l (rows_of Long.Normalized_Code combined
                          (Long.Normalized_Code l))))
  /\ (exists m e,
      Long.process_category Scenario.unparseable_price
      = Some {| Long.matched_rows := [m];
                Long.weak_matched_rows := [];
                Long.unmatched_rows := [] |}
      /\ In (R_2B, e) (Long.entries m)
      /\ Long.entry_Item_Name e = "Widget X1"
      /\ Long.entry_Price e = None)
  /\ (forall df r row,
      has_columns Short.REQUIRED_COLUMNS df = true ->
      In row (rows df) ->
      to_numeric_coerce (raw_New_Price row) = None ->
      let l := Short.prepare_row r row in
      (exists f, Short.prepare df r = Some f /\ In l f
                 /\ length f = length (rows df))
      /\ Short.New_Price l = None
      /\ (forall group, ~ In l (Short.dropna_price group))
      /\ (forall code group,
            Short.group_result code group
            = Short.group_result code (Short.dropna_price group))).
Proof.
  split; [reflexivity|]. split; [reflexivity|]. split; [|split].
  - intros df r row Hcols Hrow Hcode Hprice l.
    destruct (PrepareFacts.long_prepare_some df r Hcols) as [f Hf].
    repeat split.
    + exists f. split; [exact Hf|].
      apply (PrepareFacts.long_prepare_in _ _ _ _ Hf). now exists row.
    + exact Hprice.
    + intros combined Hl. now apply PandasFacts.rows_of_in.
  - do 2 eexists. split; [vm_compute; reflexivity|].
    split; [left; reflexivity | split; reflexivity].
  - intros df r row Hcols Hrow Hprice l. repeat split.
    + exists (map (Short.prepare_row r) (rows df)).
      split; [now apply PrepareFacts.short_prepare_some|].
      split; [now apply in_map | apply length_map].
    + exact Hprice.
    + intros group Hl. apply ShortPriceFacts.dropna_price_in in Hl as [_ Hl].
      now apply Hl.
    + intros code group. apply PrepareFacts.group_result_dropna.
Qed.

(** The short-form script on [Scenario.unparseable_price]: the 2B listing
    is in the combined frame without a price, it is not among the rows of
    group "x1" that the loop examines, and no row is reported. *)
Lemma C9_counterexample_short_drops_row :
  let combined := concat (Short.all_data Scenario.unparseable_price) in
  map (fun l => (Short.Normalized_Code l, Short.Source l, Short.New_Price l))
      combined
  = [("x1", R_2B, None); ("x1", R_Btech, Some 90%Q)]
  /\ map Short.Source
         (Short.dropna_price (rows_of Short.Normalized_Code combined "x1"))
     = [R_Btech]
  /\ Short.process_category Scenario.unparseable_price
     = Short.Ok (Some {| Short.matched := []; Short.unmatched := [] |}).
Proof. cbv zeta. repeat split; vm_compute; reflexivity. Qed.

(** C9 at an instance: the 2B sheet of [Scenario.unparseable_price]. *)
Lemma C9_witness_unparseable_price :
  Long.New_Price
    (Long.prepare_row R_2B
       (Scenario.row "Widget X1" (Unparseable "call us") (Text "x1"))) = None
  /\ Short.New_Price
       (Short.prepare_row R_2B
          (Scenario.row "Widget X1" (Unparseable "call us") (Text "x1")))
     = None.
Proof.
  pose (row := Scenario.row "Widget X1" (Unparseable "call us") (Text "x1")).
  pose (df := Scenario.sheet [row]).
  destruct C9_unparseable_price_long_keeps_short_drops
    as (_ & _ & HL & _ & HS).
  split.
  - destruct (HL df R_2B row) as (_ & H & _).
    + reflexivity.
    + simpl; auto.
    + discriminate.
    + reflexivity.
    + exact H.
  - destruct (HS df R_2B row) as (_ & H & _).
    + reflexivity.
    + simpl; auto.
    + reflexivity.
    + exact H.
Defined.

(** C10.  Short form: a sheet with the required columns keeps all its
    rows, and a row whose code cell is missing gets the code "nan";
    listings with that code lie in one group of the loop, and the two
    codeless listings of [Scenario.codeless], from 2B and Btech, are
    reported as a matched row under "nan".  Long form: the prepared frame
    holds exactly the rows whose code cell is present, and for
    [Scenario.codeless] nothing is left to group. *)
Theorem C10_missing_code_is_nan_in_short_form :
  (forall df r,
      has_columns Short.REQUIRED_COLUMNS df = true ->
      exists f,
        Short.prepare df r = Some f
        /\ length f = length (rows df)
        /\ (forall row,
               In row (rows df) -> raw_Normalized_Code row = Missing ->
               In (Short.prepare_row r row) f
               /\ Short.Normalized_Code (Short.prepare_row r row) = "nan"))
  /\ (forall combined l1 l2,
      In l1 combined -> In l2 combined ->
      Short.Normalized_Code l1 = "nan" -> Short.Normalized_Code l2 = "nan" ->
      In ("nan", rows_of Short.Normalized_Code combined "nan")
         (groupby Short.Normalized_Code combined)
      /\ In l1 (rows_of Short.Normalized_Code combined "nan")
      /\ In l2 (rows_of Short.Normalized_Code combined "nan"))
  /\ (map (fun l => (Short.Normalized_Code l, Short.Source l))
          (concat (Short.all_data Scenario.codeless))
      = [("nan", R_2B); ("nan", R_Btech)]
      /\ exists r,
          Short.process_category Scenario.codeless
          = Short.Ok (Some {| Short.matched := [r]; Short.unmatched := [] |})
          /\ Short.result_Normalized_Code r = "nan")
  /\ (forall df r f,
      Long.prepare df r = Some f ->
      length f
      = length (filter (fun row => cell_notna (raw_Normalized_Code row)) (rows df))
      /\ (forall l, In l f <->
            exists row, In row (rows df)
                        /\ raw_Normalized_Code row <> Missing
                        /\ l = Long.prepare_row r row))
  /\ (concat (Long.all_dfs Scenario.codeless) = []
      /\ Long.process_category Scenario.codeless
         = Some {| Long.matched_rows := [];
                   Long.weak_matched_rows := [];
                   Long.unmatched_rows := [] |}).
Proof.
  split; [|split; [|split; [|split]]].
  - intros df r Hcols. exists (map (Short.prepare_row r) (rows df)).
    split; [now apply PrepareFacts.short_prepare_some|].
    split; [apply length_map|].
    intros row Hrow Hc. split; [now apply in_map|].
    unfold Short.prepare_row. cbn. now rewrite Hc.
  - intros combined l1 l2 H1 H2 C1 C2. repeat split.
    + rewrite <- C1. now apply PandasFacts.groupby_of_row.
    + now apply PandasFacts.rows_of_in.
    + now apply PandasFacts.rows_of_in.
  - split; [reflexivity|]. eexists. split; [vm_compute; reflexivity|].
    reflexivity.
  - intros df r f Hf. split.
    + unfold Long.prepare in Hf. destruct (negb _); [discriminate|].
      injection Hf as <-. apply length_map.
    + intros l. now apply PrepareFacts.long_prepare_in.
  - split; reflexivity.
Qed.

(** C10 at an instance: the 2B sheet of [Scenario.codeless]. *)
Lemma C10_witness_codeless :
  Short.Normalized_Code
    (Short.prepare_row R_2B (Scenario.row "Widget X1" (Number 100) Missing))
  = "nan"
  /\ Long.prepare
       (Scenario.sheet [Scenario.row "Widget X1" (Number 100) Missing])
       R_2B = Some [].
Proof.
  pose (row := Scenario.row "Widget X1" (Number 100) Missing).
  pose (df := Scenario.sheet [row]).
  destruct C10_missing_code_is_nan_in_short_form as (HS & _ & _ & HL & _).
  split.
  - destruct (HS df R_2B) as (f & _ & _ & H); [reflexivity|].
    destruct (H row) as [_ Hc]; [simpl; auto | reflexivity | exact Hc].
  - destruct (HL df R_2B [] eq_refl) as [_ _]. reflexivity.
Defined.

(** * Further properties *)

(** ** File names *)

Module FilenameFacts.

Import Filename.

#[local] Arguments is_digit : simpl never.

Lemma append_assoc (s1 s2 s3 : string) :
  ((s1 ++ s2) ++ s3 = s1 ++ (s2 ++ s3))%string.
Proof. induction s1 as [|c s1 IH]; simpl; [reflexivity | now rewrite IH]. Qed.

Lemma all_chars_cons p c s :
  all_chars p (String c s) = p c && all_chars p s.
Proof. reflexivity. Qed.

(** A greedy run stops where the class stops. *)
Lemma span_run p run rest :
  all_chars p run = true ->
  (forall c rest', rest = String c rest' -> p c = false) ->
  span p (run ++ rest)%string = (run, rest).
Proof.
  intros Hrun Hstop. induction run as [|c run IH]; simpl.
  - destruct rest as [|c rest']; [reflexivity|]. simpl.
    now rewrite (Hstop c rest' eq_refl).
  - rewrite all_chars_cons in Hrun. apply andb_prop in Hrun as [Hc Hrun].
    now rewrite Hc, (IH Hrun).
Qed.

Lemma span_spec p s run rest :
  span p s = (run, rest) ->
  s = (run ++ rest)%string /\ all_chars p run = true.
Proof.
  revert run rest. induction s as [|c s IH]; simpl; intros run rest H.
  - injection H as <- <-. now split.
  - destruct (p c) eqn:Hc.
    + destruct (span p s) as [run' rest'] eqn:E. injection H as <- <-.
      destruct (IH _ _ eq_refl) as [-> Hrun]. split; [reflexivity|].
      rewrite all_chars_cons. now rewrite Hc.
    + injection H as <- <-. now split.
Qed.

Lemma literal_app lit rest : literal lit (lit ++ rest)%string = Some rest.
Proof.
  induction lit as [|c lit IH]; simpl; [reflexivity|].
  now rewrite Ascii.eqb_refl.
Qed.

Lemma literal_spec lit s rest :
  literal lit s = Some rest -> s = (lit ++ rest)%string.
Proof.
  revert s. induction lit as [|c lit IH]; simpl; intros s H.
  - now injection H as ->.
  - destruct s as [|d s]; [discriminate|].
    destruct (Ascii.eqb_spec c d) as [->|]; [|discriminate].
    now rewrite (IH _ H).
Qed.

(** The date and the extension are read off a well-formed tail ... *)
Lemma date_and_extension_app date rest :
  is_date date ->
  date_and_extension ("_" ++ date ++ ".xlsx" ++ rest)%string = Some rest.
Proof.
  intros (y1 & y2 & y3 & y4 & m1 & m2 & d1 & d2 & -> & Hd).
  cbn [forallb] in Hd.
  repeat (apply andb_prop in Hd as [? Hd]).
  unfold date_and_extension.
  repeat (cbn; match goal with
               | H : is_digit ?c = true |- context [is_digit ?c] => rewrite H
               end).
  cbn. reflexivity.
Qed.

Lemma digits_spec n : forall s rest,
  digits n s = Some rest ->
  exists ds, s = (ds ++ rest)%string /\ String.length ds = n
             /\ all_chars is_digit ds = true.
Proof.
  induction n as [|n IH]; intros s rest H; cbn [digits] in H.
  - injection H as ->. now exists "".
  - destruct s as [|d s]; [discriminate|].
    destruct (is_digit d) eqn:Hd; [|discriminate].
    destruct (IH _ _ H) as (ds & -> & Hl & Ha).
    exists (String d ds). cbn [String.length]. rewrite all_chars_cons, Hd, Ha.
    now rewrite Hl.
Qed.

(** ... and only off such a tail. *)
Lemma date_and_extension_spec s rest :
  date_and_extension s = Some rest ->
  exists date, is_date date /\ s = ("_" ++ date ++ ".xlsx" ++ rest)%string.
Proof.
  unfold date_and_extension, and_then. intros H.
  destruct (literal "_" s) as [s1|] eqn:E1; [|discriminate].
  apply literal_spec in E1. subst s.
  destruct (digits 4 s1) as [s2|] eqn:D1; [|discriminate].
  apply digits_spec in D1 as (y & -> & Ly & Ay).
  destruct (literal "-" s2) as [s3|] eqn:E3; [|discriminate].
  apply literal_spec in E3. subst s2.
  destruct (digits 2 s3) as [s4|] eqn:D2; [|discriminate].
  apply digits_spec in D2 as (m & -> & Lm & Am).
  destruct (literal "-" s4) as [s5|] eqn:E5; [|discriminate].
  apply literal_spec in E5. subst s4.
  destruct (digits 2 s5) as [s6|] eqn:D3; [|discriminate].
  apply digits_spec in D3 as (d & -> & Ld & Ad).
  apply literal_spec in H. subst s6.
  destruct y as [|y1 [|y2 [|y3 [|y4 [|]]]]]; try discriminate Ly.
  destruct m as [|m1 [|m2 [|]]]; try discriminate Lm.
  destruct d as [|d1 [|d2 [|]]]; try discriminate Ld.
  exists (String y1 (String y2 (String y3 (String y4 (String "-"
            (String m1 (String m2 (String "-"
               (String d1 (String d2 EmptyString)))))))))).
  split; [|reflexivity].
  exists y1, y2, y3, y4, m1, m2, d1, d2. split; [reflexivity|].
  unfold all_chars in Ay, Am, Ad. cbn [list_ascii_of_string forallb] in *.
  repeat match goal with
         | H : _ && _ = true |- _ => apply andb_prop in H as [? H]
         end.
  repeat match goal with H : is_digit _ = true |- _ => rewrite H end.
  reflexivity.
Qed.

Lemma is_empty_false s : is_empty s = false <-> s <> "".
Proof. destruct s; simpl; split; congruence. Qed.

(** The pattern matches exactly the names that start with
    [<run>_<run>_<date>.xlsx]. *)
Lemma re_match_iff filename g1 g2 :
  re_match filename = Some (g1, g2) <->
  g1 <> "" /\ all_chars is_alnum g1 = true
  /\ g2 <> "" /\ all_chars is_category_char g2 = true
  /\ exists date rest,
       is_date date /\ filename = (file_name g1 g2 date ++ rest)%string.
Proof.
  unfold re_match, file_name. split.
  - destruct (span is_alnum filename) as [r1 rest1] eqn:S1.
    apply span_spec in S1 as [-> A1].
    destruct (is_empty r1) eqn:N1; [discriminate|].
    unfold and_then.
    destruct (literal "_" rest1) as [rest1'|] eqn:L1; [|discriminate].
    apply literal_spec in L1. subst rest1.
    destruct (span is_category_char rest1') as [r2 rest2] eqn:S2.
    apply span_spec in S2 as [-> A2].
    destruct (is_empty r2) eqn:N2; [discriminate|].
    destruct (date_and_extension rest2) as [rest|] eqn:D; [|discriminate].
    intros H. injection H as <- <-.
    apply date_and_extension_spec in D as (date & Hdate & ->).
    apply is_empty_false in N1, N2.
    repeat split; auto. exists date, rest. split; [exact Hdate|].
    now rewrite !append_assoc.
  - intros (N1 & A1 & N2 & A2 & date & rest & Hdate & ->).
    rewrite !append_assoc.
    rewrite (span_run is_alnum g1); [|exact A1|].
    2:{ intros c rest' E. injection E as <- _. reflexivity. }
    apply is_empty_false in N1. rewrite N1.
    cbn [and_then]. rewrite (literal_app "_"). cbn [and_then].
    rewrite (span_run is_category_char g2); [|exact A2|].
    2:{ intros c rest' E. injection E as <- _. reflexivity. }
    apply is_empty_false in N2. rewrite N2.
    now rewrite date_and_extension_app.
Qed.

End FilenameFacts.

(** X1.  A file name of the shape the scrapers write, whatever follows
    the extension, is accepted by both scripts: the category is the text
    between the two underscores, the retailer name is capitalized by the
    long-form script and upper-cased by the short-form one. *)
Theorem X1_extract_info_accepts_scraper_names :
  forall name category date rest,
    name <> "" -> Filename.all_chars Filename.is_alnum name = true ->
    category <> "" ->
    Filename.all_chars Filename.is_category_char category = true ->
    Filename.is_date date ->
    LongMain.extract_info_from_filename
      (Filename.file_name name category date ++ rest)%string
    = Some (Filename.capitalize name, category)
    /\ ShortMain.extract_info_from_filename
         (Filename.file_name name category date ++ rest)%string
       = Some (Filename.upper name, category).
Proof.
  intros name category date rest N1 A1 N2 A2 D.
  assert (M : Filename.re_match
                (Filename.file_name name category date ++ rest)%string
              = Some (name, category)).
  { apply FilenameFacts.re_match_iff. repeat split; auto.
    now exists date, rest. }
  unfold LongMain.extract_info_from_filename,
         ShortMain.extract_info_from_filename.
  now rewrite M.
Qed.

(** X1 at an instance: a file of the 2B scraper. *)
Lemma X1_witness_2b_file :
  LongMain.extract_info_from_filename "2b_Air-Conditioners_2024-05-01.xlsx"
  = Some ("2b", "Air-Conditioners")
  /\ ShortMain.extract_info_from_filename "2b_Air-Conditioners_2024-05-01.xlsx"
     = Some ("2B", "Air-Conditioners").
Proof.
  apply (X1_extract_info_accepts_scraper_names
           "2b" "Air-Conditioners" "2024-05-01" "").
  - discriminate.
  - reflexivity.
  - discriminate.
  - reflexivity.
  - exists "2"%char, "0"%char, "2"%char, "4"%char, "0"%char, "5"%char,
           "0"%char, "1"%char.
    split; reflexivity.
Defined.

(** X2.  Either script accepts a file name written in ASCII only when
    it starts with a non-empty run of letters and digits, an underscore,
    a non-empty run of letters, digits and hyphens, an underscore, a date
    written dddd-dd-dd and [.xlsx]; the category returned is the second
    run and neither component returned is empty.  (In a name that is not
    ASCII, Python also takes the decimal digits of other scripts for the
    date.) *)
Theorem X2_extract_info_rejects_other_ascii_names :
  forall filename n category,
    Filename.all_chars Filename.is_ascii filename = true ->
    LongMain.extract_info_from_filename filename = Some (n, category)
    \/ ShortMain.extract_info_from_filename filename = Some (n, category) ->
    exists g1 date rest,
      (n = Filename.capitalize g1 \/ n = Filename.upper g1)
      /\ n <> "" /\ category <> ""
      /\ Filename.all_chars Filename.is_alnum g1 = true
      /\ Filename.all_chars Filename.is_category_char category = true
      /\ Filename.is_date date
      /\ filename = (Filename.file_name g1 category date ++ rest)%string.
Proof.
  intros filename n category _ H.
  unfold LongMain.extract_info_from_filename,
         ShortMain.extract_info_from_filename in H.
  destruct (Filename.re_match filename) as [[g1 g2]|] eqn:M;
    [|destruct H; discriminate].
  apply FilenameFacts.re_match_iff
    in M as (N1 & A1 & N2 & A2 & date & rest & D & E).
  assert (Hn : (n = Filename.capitalize g1 \/ n = Filename.upper g1)
               /\ category = g2).
  { destruct H as [H|H]; injection H as <- <-; auto. }
  destruct Hn as [Hn ->]. exists g1, date, rest.
  repeat split; auto.
  destruct g1; [congruence|]. destruct Hn as [-> | ->]; discriminate.
Qed.

(** X2 at an instance. *)
Lemma X2_witness_btech_file :
  exists g1 date rest,
    "btech_TVs_2024-05-01.xlsx"
    = (Filename.file_name g1 "TVs" date ++ rest)%string.
Proof.
  destruct (X2_extract_info_rejects_other_ascii_names
              "btech_TVs_2024-05-01.xlsx" "Btech" "TVs")
    as (g1 & date & rest & _ & _ & _ & _ & _ & _ & E).
  - reflexivity.
  - left. reflexivity.
  - now exists g1, date, rest.
Defined.

(** ** Insertion-ordered dicts *)

Module DictFacts.

Section Dict.
Context {K V : Type} (eqb : K -> K -> bool).
Hypothesis eqb_eq : forall a b, eqb a b = true <-> a = b.

Lemma eqb_refl k : eqb k k = true.
Proof. now apply eqb_eq. Qed.

Lemma eqb_neq a b : a <> b -> eqb a b = false.
Proof.
  intros H. destruct (eqb a b) eqn:E; [|reflexivity].
  apply eqb_eq in E. contradiction.
Qed.

Lemma get_set_same (d : Dict.dict) k (v : V) :
  Dict.get eqb (Dict.set eqb d k v) k = Some v.
Proof.
  induction d as [|[k' v'] d IH]; simpl.
  - now rewrite eqb_refl.
  - destruct (eqb k' k) eqn:E; simpl; rewrite E; [reflexivity | exact IH].
Qed.

Lemma get_set_other (d : Dict.dict) k (v : V) k0 :
  k <> k0 -> Dict.get eqb (Dict.set eqb d k v) k0 = Dict.get eqb d k0.
Proof.
  intros Hne. induction d as [|[k' v'] d IH]; simpl.
  - now rewrite (eqb_neq _ _ Hne).
  - destruct (eqb k' k) eqn:E; simpl.
    + apply eqb_eq in E. subst k'. now rewrite (eqb_neq _ _ Hne).
    + now rewrite IH.
Qed.

Lemma get_in (d : Dict.dict) k (v : V) :
  Dict.get eqb d k = Some v -> In (k, v) d.
Proof.
  induction d as [|[k' v'] d IH]; simpl; [discriminate|].
  destruct (eqb k' k) eqn:E.
  - apply eqb_eq in E. intros H. injection H as ->. subst. now left.
  - intros H. right. now apply IH.
Qed.

Lemma get_none (d : Dict.dict (V := V)) k :
  Dict.get eqb d k = None -> ~ In k (Dict.keys d).
Proof.
  induction d as [|[k' v'] d IH]; simpl; [tauto|].
  destruct (eqb k' k) eqn:E; [discriminate|].
  intros H [->|Hin]; [now rewrite eqb_refl in E | now apply IH].
Qed.

(** Setting a key either keeps the keys or adds the key at the end. *)
Lemma keys_set (d : Dict.dict) k (v : V) :
  Dict.keys (Dict.set eqb d k v)
  = match Dict.get eqb d k with
    | Some _ => Dict.keys d
    | None => Dict.keys d ++ [k]
    end.
Proof.
  unfold Dict.keys. induction d as [|[k' v'] d IH]; simpl; [reflexivity|].
  destruct (eqb k' k) eqn:E; simpl; [reflexivity|].
  rewrite IH. now destruct (Dict.get eqb d k).
Qed.

(** A property of the values that holds of the old values and of the new
    one holds after [d[k] = v]. *)
Lemma Forall_set (P : V -> Prop) (d : Dict.dict) k v :
  Forall (fun kv => P (snd kv)) d -> P v ->
  Forall (fun kv => P (snd kv)) (Dict.set eqb d k v).
Proof.
  intros Hd Hv. induction Hd as [|[k' v'] d Hkv Hd IH]; simpl.
  - now constructor.
  - destruct (eqb k' k); constructor; auto.
Qed.

End Dict.

End DictFacts.

(** ** The scan of the retailer folders *)

Module ScanFacts.

Import RetailerFacts.

Lemma string_eqb_eq a b : String.eqb a b = true <-> a = b.
Proof. apply String.eqb_eq. Qed.

Lemma inner_ok_mono p p' inner : p <= p' -> inner_ok p inner -> inner_ok p' inner.
Proof.
  intros Hp (N & S & B). repeat split; auto.
  eapply Forall_impl; [|exact B]. simpl. intros; lia.
Qed.

Lemma sorted_snoc rs r :
  StronglySorted before rs -> Forall (fun r' => before r' r) rs ->
  StronglySorted before (rs ++ [r]).
Proof.
  induction 1 as [|x rs S IH F]; simpl; intros H.
  - repeat constructor.
  - inversion H; subst. constructor; [now apply IH|].
    apply Forall_app. split; [exact F | now constructor].
Qed.

Lemma set_snoc_nonempty {K V} (eqb : K -> K -> bool) (d : Dict.dict) k (v : V) :
  Dict.set eqb d k v <> [].
Proof. destruct d as [|[k' v'] d]; simpl; [|destruct (eqb k' k)]; discriminate. Qed.

(** Recording a file of retailer [r] keeps the inner dict in order. *)
Lemma set_inner_ok inner r f :
  inner = [] \/ inner_ok (position r) inner ->
  inner_ok (position r) (Dict.set retailer_eqb inner r f).
Proof.
  intros H. split; [apply set_snoc_nonempty|].
  change (map fst (Dict.set retailer_eqb inner r f))
    with (Dict.keys (Dict.set retailer_eqb inner r f)).
  rewrite (DictFacts.keys_set retailer_eqb).
  destruct H as [->|(N & S & B)].
  - simpl. split; repeat constructor.
  - destruct (Dict.get retailer_eqb inner r) eqn:G; [now split|].
    apply (DictFacts.get_none retailer_eqb retailer_eqb_eq) in G.
    assert (F : Forall (fun r' => before r' r) (Dict.keys inner)).
    { apply Forall_forall. intros r' Hr'. unfold before.
      rewrite Forall_forall in B. specialize (B r' Hr').
      assert (position r' <> position r)
        by (intros E; destruct r', r; simpl in E; try discriminate;
            now apply G).
      lia. }
    split; [now apply sorted_snoc|].
    apply Forall_app. split; [exact B | repeat constructor].
Qed.

Lemma setdefault_inner_ok inner r f :
  inner = [] \/ inner_ok (position r) inner ->
  inner_ok (position r) (Dict.setdefault retailer_eqb inner r f).
Proof.
  intros H. unfold Dict.setdefault.
  destruct (Dict.get retailer_eqb inner r) eqn:G; [|now apply set_inner_ok].
  destruct H as [->|H]; [discriminate | exact H].
Qed.

Lemma map_ok_mono p p' m : p <= p' -> map_ok p m -> map_ok p' m.
Proof.
  intros Hp. apply Forall_impl. intros cs. now apply inner_ok_mono.
Qed.

Lemma inner_of_map p m c :
  map_ok p m ->
  match Dict.get String.eqb m c with
  | Some d => d
  | None => []
  end = []
  \/ inner_ok p match Dict.get String.eqb m c with
                | Some d => d
                | None => []
                end.
Proof.
  intros H. destruct (Dict.get String.eqb m c) as [d|] eqn:G; [|now left].
  right. apply (DictFacts.get_in String.eqb string_eqb_eq) in G.
  unfold map_ok in H. rewrite Forall_forall in H. exact (H _ G).
Qed.

Lemma long_record_ok m r f :
  map_ok (position r) m -> map_ok (position r) (LongMain.record m r f).
Proof.
  intros H. unfold LongMain.record.
  destruct (LongMain.extract_info_from_filename f) as [[n c]|]; [|exact H].
  destruct (negb _ && negb _); [|exact H].
  apply (DictFacts.Forall_set String.eqb (inner_ok (position r))); [exact H|].
  apply set_inner_ok. now apply inner_of_map.
Qed.

Lemma short_record_ok m r f :
  map_ok (position r) m -> map_ok (position r) (ShortMain.record m r f).
Proof.
  intros H. unfold ShortMain.record.
  destruct (ShortMain.extract_info_from_filename f) as [[n c]|]; [|exact H].
  destruct (negb _ && negb _); [|exact H].
  apply (DictFacts.Forall_set String.eqb (inner_ok (position r))); [exact H|].
  apply setdefault_inner_ok. now apply inner_of_map.
Qed.

Lemma fold_record_ok (record : category_dict -> retailer -> string -> category_dict) r :
  (forall m f, map_ok (position r) m -> map_ok (position r) (record m r f)) ->
  forall files m,
    map_ok (position r) m ->
    map_ok (position r) (fold_left (fun m f => record m r f) files m).
Proof.
  intros Hrec files. induction files as [|f files IH]; simpl; auto.
Qed.

Lemma long_scan_ok fs : map_ok 2 (LongMain.scan fs).
Proof.
  unfold LongMain.scan, RETAILER_FOLDERS, LongMain.scan_folder.
  cbn [fold_left].
  assert (S0 : map_ok (position R_2B) []) by constructor.
  assert (S1 : map_ok (position R_2B)
                 match fs R_2B with
                 | Some listing =>
                     fold_left (fun m f => LongMain.record m R_2B f)
                       (filter (Filename.endswith ".xlsx") listing) []
                 | None => []
                 end).
  { destruct (fs R_2B); [|exact S0].
    apply (fold_record_ok LongMain.record R_2B);
      [intros ? ?; apply long_record_ok | exact S0]. }
  apply (map_ok_mono _ (position R_Btech)) in S1; [|simpl; lia].
  set (m1 := match fs R_2B with Some _ => _ | None => _ end) in *.
  assert (S2 : map_ok (position R_Btech)
                 match fs R_Btech with
                 | Some listing =>
                     fold_left (fun m f => LongMain.record m R_Btech f)
                       (filter (Filename.endswith ".xlsx") listing) m1
                 | None => m1
                 end).
  { destruct (fs R_Btech); [|exact S1].
    apply (fold_record_ok LongMain.record R_Btech);
      [intros ? ?; apply long_record_ok | exact S1]. }
  apply (map_ok_mono _ (position R_Raneen)) in S2; [|simpl; lia].
  set (m2 := match fs R_Btech with Some _ => _ | None => _ end) in *.
  destruct (fs R_Raneen); [|exact S2].
  apply (fold_record_ok LongMain.record R_Raneen);
    [intros ? ?; apply long_record_ok | exact S2].
Qed.

Lemma short_scan_ok fs : map_ok 2 (ShortMain.scan fs).
Proof.
  unfold ShortMain.scan, RETAILER_FOLDERS, ShortMain.scan_folder.
  cbn [fold_left].
  assert (S0 : map_ok (position R_2B) []) by constructor.
  assert (S1 : map_ok (position R_2B)
                 match fs R_2B with
                 | Some listing =>
                     fold_left (fun m f => ShortMain.record m R_2B f)
                       (filter (Filename.endswith ".xlsx") listing) []
                 | None => []
                 end).
  { destruct (fs R_2B); [|exact S0].
    apply (fold_record_ok ShortMain.record R_2B);
      [intros ? ?; apply short_record_ok | exact S0]. }
  apply (map_ok_mono _ (position R_Btech)) in S1; [|simpl; lia].
  set (m1 := match fs R_2B with Some _ => _ | None => _ end) in *.
  assert (S2 : map_ok (position R_Btech)
                 match fs R_Btech with
                 | Some listing =>
                     fold_left (fun m f => ShortMain.record m R_Btech f)
                       (filter (Filename.endswith ".xlsx") listing) m1
                 | None => m1
                 end).
  { destruct (fs R_Btech); [|exact S1].
    apply (fold_record_ok ShortMain.record R_Btech);
      [intros ? ?; apply short_record_ok | exact S1]. }
  apply (map_ok_mono _ (position R_Raneen)) in S2; [|simpl; lia].
  set (m2 := match fs R_Btech with Some _ => _ | None => _ end) in *.
  destruct (fs R_Raneen); [|exact S2].
  apply (fold_record_ok ShortMain.record R_Raneen);
    [intros ? ?; apply short_record_ok | exact S2].
Qed.

End ScanFacts.

(** X3.  In the category map that either script builds, the dict of every
    category is non-empty and lists its retailers in the order of
    [RETAILER_FOLDERS], each at most once, whatever the order in which
    the folders list their files. *)
Theorem X3_scan_lists_retailers_in_folder_order :
  forall fs category inner,
    In (category, inner) (LongMain.scan fs)
    \/ In (category, inner) (ShortMain.scan fs) ->
    inner <> []
    /\ StronglySorted before (map fst inner)
    /\ NoDup (map fst inner).
Proof.
  intros fs category inner H.
  assert (Hok : inner_ok 2 inner).
  { destruct H as [H|H].
    - pose proof (ScanFacts.long_scan_ok fs) as M.
      unfold map_ok in M. rewrite Forall_forall in M.
      exact (M _ H).
    - pose proof (ScanFacts.short_scan_ok fs) as M.
      unfold map_ok in M. rewrite Forall_forall in M.
      exact (M _ H). }
  destruct Hok as (N & S & _). repeat split; auto.
  clear -S. induction S as [|r rs S IH F]; constructor; [|exact IH].
  intros Hin. rewrite Forall_forall in F. specialize (F r Hin).
  unfold before in F. lia.
Qed.

(** X3 at an instance: the category "TVs" of [ScanScenario.shops]. *)
Lemma X3_witness_shops :
  In ("TVs", [(R_2B, "2b_TVs_2024-05-02.xlsx");
              (R_Btech, "btech_TVs_2024-05-01.xlsx")])
     (LongMain.scan ScanScenario.shops)
  /\ NoDup [R_2B; R_Btech].
Proof.
  assert (H : In ("TVs", [(R_2B, "2b_TVs_2024-05-02.xlsx");
                          (R_Btech, "btech_TVs_2024-05-01.xlsx")])
                 (LongMain.scan ScanScenario.shops))
    by (vm_compute; auto).
  split; [exact H|].
  exact (proj2 (proj2 (X3_scan_lists_retailers_in_folder_order
                         ScanScenario.shops _ _ (or_introl H)))).
Defined.

Module RecordedFacts.

Import RetailerFacts.

Lemma groups_nonempty f g1 g2 :
  Filename.re_match f = Some (g1, g2) ->
  negb (Filename.is_empty (Filename.capitalize g1))
  && negb (Filename.is_empty g2) = true
  /\ negb (Filename.is_empty (Filename.upper g1))
     && negb (Filename.is_empty g2) = true.
Proof.
  intros M. apply FilenameFacts.re_match_iff in M as (N1 & _ & N2 & _).
  destruct g1; [congruence|]. destruct g2; [congruence|]. now split.
Qed.

(** The file recorded for [(c, r0)] after one more file of retailer [r]. *)
Lemma recorded_set m c c' inner r0 :
  recorded (Dict.set String.eqb m c' inner) c r0
  = if String.eqb c' c then Dict.get retailer_eqb inner r0
    else recorded m c r0.
Proof.
  unfold recorded. destruct (String.eqb_spec c' c) as [->|Hne].
  - now rewrite (DictFacts.get_set_same String.eqb ScanFacts.string_eqb_eq).
  - now rewrite (DictFacts.get_set_other String.eqb ScanFacts.string_eqb_eq).
Qed.

Lemma long_record_recorded m r f c r0 :
  recorded (LongMain.record m r f) c r0
  = if has_category c f && retailer_eqb r r0 then Some f
    else recorded m c r0.
Proof.
  unfold LongMain.record, LongMain.extract_info_from_filename, has_category.
  destruct (Filename.re_match f) as [[g1 g2]|] eqn:M; [|reflexivity].
  rewrite (proj1 (groups_nonempty _ _ _ M)), recorded_set.
  destruct (String.eqb_spec g2 c) as [->|Hne]; [|reflexivity].
  cbn [andb]. destruct (retailer_eqb r r0) eqn:E.
  - apply retailer_eqb_eq in E. subst r0.
    now rewrite (DictFacts.get_set_same retailer_eqb retailer_eqb_eq).
  - assert (Hr : r <> r0) by (intros ->; destruct r0; discriminate E).
    rewrite (DictFacts.get_set_other retailer_eqb retailer_eqb_eq _ _ _ _ Hr).
    unfold recorded. now destruct (Dict.get String.eqb m c).
Qed.

Lemma short_record_recorded m r f c r0 :
  recorded (ShortMain.record m r f) c r0
  = if has_category c f && retailer_eqb r r0
    then match recorded m c r0 with
         | Some old => Some old
         | None => Some f
         end
    else recorded m c r0.
Proof.
  unfold ShortMain.record, ShortMain.extract_info_from_filename, has_category.
  destruct (Filename.re_match f) as [[g1 g2]|] eqn:M; [|reflexivity].
  rewrite (proj2 (groups_nonempty _ _ _ M)), recorded_set.
  destruct (String.eqb_spec g2 c) as [->|Hne]; [|reflexivity].
  cbn [andb]. unfold recorded.
  destruct (Dict.get String.eqb m c) as [inner|].
  - unfold Dict.setdefault. destruct (retailer_eqb r r0) eqn:E.
    + apply retailer_eqb_eq in E. subst r0.
      destruct (Dict.get retailer_eqb inner r) eqn:G;
        [now rewrite G|].
      now rewrite (DictFacts.get_set_same retailer_eqb retailer_eqb_eq).
    + assert (Hr : r <> r0) by (intros ->; destruct r0; discriminate E).
      destruct (Dict.get retailer_eqb inner r); [reflexivity|].
      now rewrite (DictFacts.get_set_other retailer_eqb retailer_eqb_eq).
  - cbn. now destruct (retailer_eqb r r0).
Qed.

Lemma hd_error_rev_cons {A} (x : A) l :
  hd_error (rev (x :: l))
  = match hd_error (rev l) with
    | Some y => Some y
    | None => Some x
    end.
Proof. simpl. now destruct (rev l). Qed.

(** After the files of one folder: the last candidate, for the long-form
    script ... *)
Lemma long_fold_recorded r c r0 files : forall m,
  recorded (fold_left (fun m f => LongMain.record m r f) files m) c r0
  = if retailer_eqb r r0
    then match hd_error (rev (filter (has_category c) files)) with
         | Some f => Some f
         | None => recorded m c r0
         end
    else recorded m c r0.
Proof.
  induction files as [|f files IH]; intros m; cbn [fold_left filter].
  - now destruct (retailer_eqb r r0).
  - rewrite IH, long_record_recorded.
    destruct (retailer_eqb r r0); [|now rewrite andb_false_r].
    rewrite andb_true_r. destruct (has_category c f); [|reflexivity].
    rewrite hd_error_rev_cons.
    now destruct (hd_error (rev (filter (has_category c) files))).
Qed.

(** ... and the first one, for the short-form script. *)
Lemma short_fold_recorded r c r0 files : forall m,
  recorded (fold_left (fun m f => ShortMain.record m r f) files m) c r0
  = if retailer_eqb r r0
    then match recorded m c r0 with
         | Some old => Some old
         | None => hd_error (filter (has_category c) files)
         end
    else recorded m c r0.
Proof.
  induction files as [|f files IH]; intros m; cbn [fold_left filter].
  - destruct (retailer_eqb r r0); [|reflexivity].
    now destruct (recorded m c r0).
  - rewrite IH, short_record_recorded.
    destruct (retailer_eqb r r0); [|now rewrite andb_false_r].
    rewrite andb_true_r. destruct (has_category c f); cbn [hd_error].
    + now destruct (recorded m c r0).
    + reflexivity.
Qed.

End RecordedFacts.

(** X4.  When a folder holds several sheets for one category, the
    long-form script keeps the one that [os.listdir] lists last and the
    short-form script the one it lists first; a retailer whose folder is
    missing, or holds no sheet for the category, is not recorded under
    that category. *)
Theorem X4_long_keeps_last_file_short_keeps_first :
  forall fs category r,
    recorded (LongMain.scan fs) category r
    = match fs r with
      | Some listing => hd_error (rev (candidates listing category))
      | None => None
      end
    /\ recorded (ShortMain.scan fs) category r
       = match fs r with
         | Some listing => hd_error (candidates listing category)
         | None => None
         end.
Proof.
  intros fs category r. unfold candidates. split.
  - unfold LongMain.scan, LongMain.scan_folder, RETAILER_FOLDERS.
    cbn [fold_left].
    destruct r, (fs R_2B), (fs R_Btech), (fs R_Raneen);
      rewrite ?RecordedFacts.long_fold_recorded; cbn [retailer_eqb];
      repeat match goal with
             | |- context [hd_error ?l] => destruct (hd_error l)
             end; reflexivity.
  - unfold ShortMain.scan, ShortMain.scan_folder, RETAILER_FOLDERS.
    cbn [fold_left].
    destruct r, (fs R_2B), (fs R_Btech), (fs R_Raneen);
      rewrite ?RecordedFacts.short_fold_recorded; cbn [retailer_eqb];
      reflexivity.
Qed.

(** ** From the category map to the comparison of a category *)

Module ProcessFacts.

(** A dict whose retailers come in order holds at most one file for
    each of 2B, Btech and Raneen, in that order. *)
Lemma sorted_inner_shape (inner : inner_dict) :
  StronglySorted before (map fst inner) ->
  exists o1 o2 o3 : list string,
    inner = map (pair R_2B) o1 ++ map (pair R_Btech) o2
            ++ map (pair R_Raneen) o3
    /\ length o1 <= 1 /\ length o2 <= 1 /\ length o3 <= 1.
Proof.
  intros S.
  destruct inner as [|[r1 f1] [|[r2 f2] [|[r3 f3] [|[r4 f4] t]]]];
    cbn [map fst] in S.
  - exists [], [], []. simpl. repeat split; lia.
  - destruct r1;
      [exists [f1], [], [] | exists [], [f1], [] | exists [], [], [f1]];
      simpl; repeat split; lia.
  - inversion S as [|? ? _ F1]; subst.
    inversion F1 as [|? ? B12 _]; subst. unfold before in B12.
    destruct r1, r2; simpl in B12; try lia;
      [exists [f1], [f2], [] | exists [f1], [], [f2] | exists [], [f1], [f2]];
      simpl; repeat split; lia.
  - inversion S as [|? ? S' F1]; subst.
    inversion F1 as [|? ? B12 F1']; subst. inversion F1' as [|? ? B13 _]; subst.
    inversion S' as [|? ? _ F2]; subst. inversion F2 as [|? ? B23 _]; subst.
    unfold before in *.
    destruct r1, r2, r3; simpl in *; try lia.
    exists [f1], [f2], [f3]. simpl. repeat split; lia.
  - exfalso.
    inversion S as [|? ? S' F1]; subst.
    inversion F1 as [|? ? B12 F1']; subst. inversion F1' as [|? ? B13 F1'']; subst.
    inversion F1'' as [|? ? B14 _]; subst.
    inversion S' as [|? ? S'' F2]; subst.
    inversion F2 as [|? ? B23 F2']; subst. inversion F2' as [|? ? B24 _]; subst.
    inversion S'' as [|? ? _ F3]; subst. inversion F3 as [|? ? B34 _]; subst.
    unfold before in *.
    destruct r1, r2, r3, r4; simpl in *; lia.
Qed.

(** The sheets loaded for a category are those of the sources it stands
    for, and there are no more sources than recorded files. *)
Lemma load_sources read (inner : inner_dict) :
  StronglySorted before (map fst inner) ->
  LongMain.load read inner = Long.all_dfs (sources_of read inner)
  /\ ShortMain.load read inner = Short.all_data (sources_of read inner)
  /\ length (items (sources_of read inner)) <= length inner
  /\ length (Long.all_dfs (sources_of read inner))
     <= length (items (sources_of read inner))
  /\ length (Short.all_data (sources_of read inner))
     <= length (items (sources_of read inner)).
Proof.
  intros S.
  destruct (sorted_inner_shape inner S) as (o1 & o2 & o3 & -> & L1 & L2 & L3).
  destruct o1 as [|f1 [|]]; try (simpl in L1; lia);
  destruct o2 as [|f2 [|]]; try (simpl in L2; lia);
  destruct o3 as [|f3 [|]]; try (simpl in L3; lia);
  unfold LongMain.load, ShortMain.load, Long.all_dfs, Short.all_data, items,
         sources_of, RETAILER_FOLDERS;
  cbn [map app flat_map Dict.get retailer_eqb fst snd];
  repeat match goal with
         | |- context [read ?r ?f] => destruct (read r f)
         end;
  cbn [map app flat_map fst snd];
  repeat match goal with
         | |- context [Long.prepare ?d ?r] => destruct (Long.prepare d r)
         end;
  repeat match goal with
         | |- context [Short.prepare ?d ?r] => destruct (Short.prepare d r)
         end;
  cbn [app length]; repeat split; lia.
Qed.

End ProcessFacts.

(** X5.  For a dict of recorded files that lists its retailers in order,
    as every dict of a scan does, the step that either script takes for
    the category gives what the comparison of the category's sheets gives,
    the sheet of a retailer being what [pd.read_excel] returns for the
    recorded file and a file that cannot be read counting as no sheet. *)
Theorem X5_process_agrees_with_category_comparison :
  forall read inner,
    StronglySorted before (map fst inner) ->
    LongMain.process read inner
    = Long.process_category (sources_of read inner)
    /\ ShortMain.process read inner
       = Short.process_category (sources_of read inner).
Proof.
  intros read inner S.
  destruct (ProcessFacts.load_sources read inner S)
    as (EL & ES & Hitems & HL & HS).
  unfold LongMain.process, Long.process_category,
         ShortMain.process, Short.process_category.
  rewrite EL, ES.
  destruct (Nat.ltb_spec (length inner) 2),
           (Nat.ltb_spec (length (items (sources_of read inner))) 2);
    try lia; split; try reflexivity.
  - destruct (Nat.ltb_spec (length (Long.all_dfs (sources_of read inner))) 2);
      [reflexivity | lia].
  - destruct (Nat.ltb_spec (length (Short.all_data (sources_of read inner))) 2);
      [reflexivity | lia].
Qed.

(** X5 at an instance: the category "TVs" of [ScanScenario.shops], with
    the Widget sheets behind the two files. *)
Lemma X5_witness_shops :
  let inner := [(R_2B, "2b_TVs_2024-05-02.xlsx");
                (R_Btech, "btech_TVs_2024-05-01.xlsx")] in
  let read := fun r (_ : string) => Scenario.widget r in
  LongMain.process read inner = Long.process_category Scenario.widget.
Proof.
  cbv zeta.
  rewrite (proj1 (X5_process_agrees_with_category_comparison
                    (fun r (_ : string) => Scenario.widget r)
                    [(R_2B, "2b_TVs_2024-05-02.xlsx");
                     (R_Btech, "btech_TVs_2024-05-01.xlsx")]
                    ltac:(repeat constructor))).
  reflexivity.
Defined.

(** ** Normalized text *)

Module StripFacts.

Import Py.












End StripFacts.



(** ** Categories that are skipped *)

Module SkipFacts.




End SkipFacts.



(** ** The rows of the long-form tables *)

Module RowFacts.

Import RetailerFacts Long.

Lemma filter_first {A} (p : A -> bool) pre x post :
  (forall y, In y pre -> p y = false) -> p x = true ->
  filter p (pre ++ x :: post) = x :: filter p post.
Proof.
  intros Hpre Hx. induction pre as [|y pre IH]; simpl.
  - now rewrite Hx.
  - rewrite (Hpre y) by now left. apply IH. intros; apply Hpre; now right.
Qed.

Lemma filter_none {A} (p : A -> bool) l :
  (forall y, In y l -> p y = false) -> filter p l = [].
Proof.
  intros H. induction l as [|y l IH]; simpl; [reflexivity|].
  rewrite (H y) by now left. apply IH. intros; apply H; now right.
Qed.

Lemma retailer_eqb_neq r1 r2 : r1 <> r2 -> retailer_eqb r1 r2 = false.
Proof.
  intros H. destruct (retailer_eqb r1 r2) eqn:E; [|reflexivity].
  apply retailer_eqb_eq in E. contradiction.
Qed.

Lemma merge_in code group r e :
  In (r, e) (merge code group) -> (r, e) = entry_of code group r.
Proof.
  unfold merge. rewrite in_map_iff. intros (r0 & E & _).
  assert (r0 = r).
  { unfold entry_of in E.
    destruct (filter _ group); now injection E as <- _. }
  now subst r0.
Qed.

End RowFacts.

(** X8.  A row of a long-form table has one entry per retailer, in the
    order 2B, Btech, Raneen, and every entry repeats the code of the row
    as its SKU.  The entry of a retailer without a listing in the group
    shows the name "N/A" and no price; the entry of a retailer with
    listings shows the name and the price of the first of them. *)
Theorem X8_merged_row_shape :
  forall code group,
    map fst (Long.merge code group) = RETAILER_FOLDERS
    /\ forall r e,
         In (r, e) (Long.merge code group) ->
         Long.entry_Item_SKU e = code
         /\ ((forall l, In l group -> Long.Retailer l <> r) ->
             Long.entry_Item_Name e = "N/A" /\ Long.entry_Price e = None)
         /\ (forall pre l post,
                group = pre ++ l :: post -> Long.Retailer l = r ->
                (forall l', In l' pre -> Long.Retailer l' <> r) ->
                Long.entry_Item_Name e = Long.Item_Name l
                /\ Long.entry_Price e = Long.New_Price l).
Proof.
  intros code group. split; [apply LongPriceFacts.merge_keys|].
  intros r e Hin. apply RowFacts.merge_in in Hin.
  unfold Long.entry_of in Hin. split; [|split].
  - destruct (filter _ group); now injection Hin as ->.
  - intros Hnone. rewrite RowFacts.filter_none in Hin.
    + injection Hin as ->. now split.
    + intros l Hl. apply RowFacts.retailer_eqb_neq. now apply Hnone.
  - intros pre l post -> Hr Hpre.
    rewrite (RowFacts.filter_first _ pre l post) in Hin.
    + injection Hin as ->. now split.
    + intros l' Hl'. apply RowFacts.retailer_eqb_neq. now apply Hpre.
    + now apply RetailerFacts.retailer_eqb_eq.
Qed.

(** X8 at an instance: the Raneen entry of the Widget row. *)
Lemma X8_witness_widget_raneen :
  let e := {| Long.entry_Item_Name := "N/A";
              Long.entry_Price := None;
              Long.entry_Item_SKU := "x1" |} in
  In (R_Raneen, e) (Long.merge "x1" (concat (Long.all_dfs Scenario.widget)))
  /\ Long.entry_Item_SKU e = "x1".
Proof.
  cbv zeta.
  assert (H : In (R_Raneen, {| Long.entry_Item_Name := "N/A";
                               Long.entry_Price := None;
                               Long.entry_Item_SKU := "x1" |})
                 (Long.merge "x1" (concat (Long.all_dfs Scenario.widget))))
    by (vm_compute; auto).
  split; [exact H|].
  exact (proj1 (proj2 (X8_merged_row_shape _ _) _ _ H)).
Defined.

(** ** The order of the groups *)

Module OrderFacts.

Import Pandas.

Lemma ascii_compare_trans a b c :
  Ascii.compare a b = Lt -> Ascii.compare b c = Lt -> Ascii.compare a c = Lt.
Proof.
  unfold Ascii.compare. rewrite !N.compare_lt_iff. apply N.lt_trans.
Qed.

Lemma string_compare_trans s1 : forall s2 s3,
  String.compare s1 s2 = Lt -> String.compare s2 s3 = Lt ->
  String.compare s1 s3 = Lt.
Proof.
  induction s1 as [|c1 s1 IH]; intros [|c2 s2] [|c3 s3]; simpl;
    try discriminate; try reflexivity.
  destruct (Ascii.compare c1 c2) eqn:E12; try discriminate.
  - apply Ascii.compare_eq_iff in E12. subst c2.
    destruct (Ascii.compare c1 c3); try discriminate; [apply IH | reflexivity].
  - intros _. destruct (Ascii.compare c2 c3) eqn:E23; try discriminate.
    + apply Ascii.compare_eq_iff in E23. subst c3. now rewrite E12.
    + intros _. now rewrite (ascii_compare_trans _ _ _ E12 E23).
Qed.

Lemma string_compare_refl s : String.compare s s = Eq.
Proof.
  pose proof (String.compare_antisym s s) as H.
  destruct (String.compare s s); simpl in H; congruence.
Qed.

Lemma insert_key_sorted k ks :
  StronglySorted code_lt ks -> StronglySorted code_lt (insert_key k ks).
Proof.
  induction 1 as [|k' ks S IH F]; simpl; [repeat constructor|].
  destruct (String.compare k k') eqn:E.
  - now constructor.
  - constructor; [now constructor|].
    constructor; [exact E|].
    eapply Forall_impl; [|exact F]. intros x Hx.
    exact (string_compare_trans _ _ _ E Hx).
  - constructor; [exact IH|].
    apply Forall_forall. intros x Hx.
    apply PandasFacts.insert_key_in in Hx as [->|Hx].
    + unfold code_lt. rewrite String.compare_antisym, E. reflexivity.
    + rewrite Forall_forall in F. now apply F.
Qed.

(** The keys of [groupby] come in increasing order. *)
Lemma sorted_keys_sorted ks : StronglySorted code_lt (sorted_keys ks).
Proof.
  induction ks as [|k ks IH]; simpl; [constructor|].
  now apply insert_key_sorted.
Qed.

(** Rows built from an increasing list of keys, at most one per key, come
    in increasing order of their keys. *)
Lemma flat_map_sorted {A B} (key : B -> string) (f : string * A -> list B)
      (groups : list (string * A)) :
  (forall g b, In b (f g) -> f g = [b] /\ key b = fst g) ->
  StronglySorted code_lt (map fst groups) ->
  StronglySorted code_lt (map key (flat_map f groups)).
Proof.
  intros Hf. induction groups as [|g groups IH]; simpl; intros S;
    [constructor|].
  inversion S as [|? ? S' F]; subst. specialize (IH S').
  destruct (f g) as [|b bs] eqn:E; [exact IH|].
  destruct (Hf g b) as [E1 Hk]; [rewrite E; now left|].
  rewrite E in E1. injection E1 as ->. simpl.
  constructor; [exact IH|].
  apply Forall_forall. intros x Hx.
  apply in_map_iff in Hx as (b' & <- & Hb').
  apply in_flat_map in Hb' as (g' & Hg' & Hb').
  destruct (Hf g' b' Hb') as [_ ->]. rewrite Hk.
  rewrite Forall_forall in F. apply F. now apply in_map.
Qed.

Lemma sorted_NoDup ks : StronglySorted code_lt ks -> NoDup ks.
Proof.
  induction 1 as [|k ks S IH F]; constructor; [|exact IH].
  intros Hin. rewrite Forall_forall in F. specialize (F k Hin).
  unfold code_lt in F. now rewrite string_compare_refl in F.
Qed.

Lemma groupby_keys {A} (key : A -> string) df :
  map fst (groupby key df) = sorted_keys (map key df).
Proof. unfold groupby. rewrite map_map. simpl. apply map_id. Qed.

Lemma NoDup_filter_split {A} (p : A -> bool) l :
  NoDup l -> NoDup (filter p l ++ filter (fun x => negb (p x)) l).
Proof.
  induction 1 as [|x l Hx ND IH]; simpl; [constructor|].
  destruct (p x); simpl.
  - constructor; [|exact IH].
    rewrite in_app_iff, !filter_In. tauto.
  - apply NoDup_Add with (a := x) (l := filter p l ++ filter (fun x => negb (p x)) l).
    + apply Add_app.
    + split; [exact IH|]. rewrite in_app_iff, !filter_In. tauto.
Qed.

End OrderFacts.

Module TableFacts.

Import Pandas.

Lemma NoDup_map_filter_split {A B} (f : A -> B) (p : A -> bool) l :
  NoDup (map f l) ->
  NoDup (map f (filter p l ++ filter (fun x => negb (p x)) l)).
Proof.
  induction l as [|x l IH]; simpl; intros ND; [constructor|].
  inversion ND as [|? ? Hx ND']; subst. specialize (IH ND').
  assert (Hx' : ~ In (f x) (map f (filter p l
                                   ++ filter (fun x => negb (p x)) l))).
  { intros Hin. apply Hx. apply in_map_iff in Hin as (y & E & Hy).
    apply in_map_iff. exists y. split; [exact E|].
    apply in_app_or in Hy as [Hy|Hy]; now apply filter_In in Hy. }
  destruct (p x); simpl.
  - now constructor.
  - rewrite map_app in *. simpl.
    apply NoDup_Add with (a := f x)
      (l := map f (filter p l) ++ map f (filter (fun x => negb (p x)) l));
      [apply Add_app | now split].
Qed.

(** The result rows of the short-form loop come in increasing order of
    their codes. *)
Lemma short_results_sorted groups : forall results,
  Forall2 (fun cg res => Short.group_result (fst cg) (snd cg) = Short.Ok res)
          groups results ->
  StronglySorted code_lt (map fst groups) ->
  StronglySorted code_lt
    (map Short.result_Normalized_Code (Short.cat_options results)).
Proof.
  induction groups as [|g groups IH]; intros results F S;
    inversion F as [|? res ? results' Hg F']; subst; [constructor|].
  inversion S as [|? ? S' Fk]; subst. specialize (IH _ F' S').
  unfold Short.cat_options in *. cbn [flat_map].
  destruct res as [r|]; [|exact IH]. cbn [app map].
  constructor; [exact IH|].
  apply Forall_forall. intros c Hc.
  apply in_map_iff in Hc as (r' & <- & Hr').
  apply (ShortFacts.cat_options_in results' r') in Hr'.
  destruct (ShortFacts.Forall2_in_r _ _ _ _ F' Hr') as (g' & Hg' & Hres').
  apply ShortFacts.group_result_confidence in Hres' as (_ & -> & _).
  apply ShortFacts.group_result_confidence in Hg as (_ & -> & _).
  rewrite Forall_forall in Fk. apply Fk. now apply in_map.
Qed.

End TableFacts.

(** X9.  The matched table of the long-form script lists its rows in
    increasing order of their codes, one row per code.  In the
    short-form script no code has more than one row in the matched and
    unmatched tables taken together. *)
Theorem X9_one_row_per_code :
  (forall combined,
      StronglySorted code_lt
        (map Long.merged_Normalized_Code
             (Long.matched_rows (Long.compare combined)))
      /\ NoDup (map Long.merged_Normalized_Code
                    (Long.matched_rows (Long.compare combined))))
  /\ (forall combined out,
      Short.compare combined = Short.Ok out ->
      NoDup (map Short.result_Normalized_Code
                 (Short.matched out ++ Short.unmatched out))).
Proof.
  split.
  - intros combined.
    assert (S : StronglySorted code_lt
                  (map Long.merged_Normalized_Code
                       (Long.matched_rows (Long.compare combined)))).
    { rewrite LongFacts.compare_tiers. cbn [Long.matched_rows].
      unfold Long.primary_pass. apply OrderFacts.flat_map_sorted.
      - intros [code g] b. cbn [fst snd].
        destruct (nunique _ <? 2); [contradiction|].
        intros [<-|[]]. now split.
      - rewrite OrderFacts.groupby_keys. apply OrderFacts.sorted_keys_sorted. }
    split; [exact S | now apply OrderFacts.sorted_NoDup].
  - intros combined out H. unfold Short.compare in H.
    destruct (Short.mapM _ (groupby Short.Normalized_Code combined))
      as [results|] eqn:E; simpl in H; [|discriminate].
    injection H as <-. cbn [Short.matched Short.unmatched].
    apply TableFacts.NoDup_map_filter_split. apply OrderFacts.sorted_NoDup.
    apply ShortFacts.mapM_Ok in E.
    apply (TableFacts.short_results_sorted _ _ E).
    rewrite OrderFacts.groupby_keys. apply OrderFacts.sorted_keys_sorted.
Qed.

(** X9 at an instance: the Widget category in the short form. *)
Lemma X9_witness_widget :
  exists out,
    Short.compare (concat (Short.all_data Scenario.widget)) = Short.Ok out
    /\ NoDup (map Short.result_Normalized_Code
                  (Short.matched out ++ Short.unmatched out)).
Proof.
  destruct (Short.compare (concat (Short.all_data Scenario.widget)))
    as [out|e] eqn:E.
  - exists out. split; [reflexivity|].
    exact (proj2 X9_one_row_per_code _ _ E).
  - vm_compute in E. discriminate E.
Defined.

(** X10.  A row reported by the short-form script is drawn from a single
    listing of its group: the item name, the price, the retailer and the
    product URL of the row are those of one priced listing, the first in
    frame order among those holding the least price. *)
Theorem X10_short_row_shows_one_listing :
  forall code group r,
    Short.group_result code group = Short.Ok (Some r) ->
    exists pre l post,
      Short.dropna_price group = pre ++ l :: post
      /\ In l group
      /\ Short.result_Item_Name r = Short.Item_Name l
      /\ Short.New_Price l = Some (Short.Best_Price r)
      /\ Short.Lowest_Retailer r = Short.Source l
      /\ Short.result_Product_URL r = Short.Product_URL l
      /\ Short.result_Normalized_Code r = code
      /\ Forall (Short.above (Short.Best_Price r)) pre
      /\ Forall (Short.not_below (Short.Best_Price r)) post.
Proof.
  intros code group r. unfold Short.group_result.
  destruct (length (Short.dropna_price group) <? 2); [discriminate|].
  destruct (Short.compute_confidence _) as [c|]; simpl; [|discriminate].
  destruct (Short.idxmin (Short.dropna_price group))
    as [[best_row price]|] eqn:I; [|discriminate].
  intros H. injection H as <-. cbn.
  destruct (ShortPriceFacts.idxmin_split _ _ _ I)
    as (pre & post & E & Hm & Hpre & Hpost).
  exists pre, best_row, post. repeat split; auto.
  assert (Hin : In best_row (Short.dropna_price group))
    by (rewrite E; apply in_elt).
  now apply ShortPriceFacts.dropna_price_in in Hin.
Qed.

(** X10 at an instance: the group of [Scenario.duplicate_listing]. *)
Lemma X10_witness_duplicate_listing :
  exists r l,
    Short.group_result
      "x1" (concat (Short.all_data Scenario.duplicate_listing))
    = Short.Ok (Some r)
    /\ Short.result_Item_Name r = Short.Item_Name l
    /\ Short.result_Product_URL r = Short.Product_URL l.
Proof.
  destruct (Short.group_result
              "x1" (concat (Short.all_data Scenario.duplicate_listing)))
    as [[r|]|e] eqn:E.
  - destruct (X10_short_row_shows_one_listing _ _ _ E)
      as (_ & l & _ & _ & _ & Hn & _ & _ & Hu & _).
    exists r, l. auto.
  - vm_compute in E. discriminate E.
  - vm_compute in E. discriminate E.
Defined.

(** ** Exceptions of the short-form loop *)


(** X11.  The short-form script files a row as matched when its
    confidence is at least 10 and as unmatched otherwise; every
    confidence lies between 0 and 100.  The export then fills the rows
    whose confidence is below 30: every row of the unmatched table, and
    the rows of the matched table between 10 and 30. *)
Theorem X11_short_tiers_and_highlight :
  forall combined out,
    Short.compare combined = Short.Ok out ->
    (forall r, In r (Short.matched out) ->
       (10 <= Short.Confidence r)%Q /\ (Short.Confidence r <= 100)%Q
       /\ (ShortMain.highlighted r = true <-> (Short.Confidence r < 30)%Q))
    /\ (forall r, In r (Short.unmatched out) ->
          (0 <= Short.Confidence r)%Q /\ (Short.Confidence r < 10)%Q
          /\ ShortMain.highlighted r = true).
Proof.
  intros combined out H.
  assert (Range : forall r,
             In r (Short.matched out) \/ In r (Short.unmatched out) ->
             (0 <= Short.Confidence r)%Q /\ (Short.Confidence r <= 100)%Q).
  { intros r Hr.
    apply (ShortFacts.compare_in _ _ r H) in Hr as (code & _ & Hres).
    apply ShortFacts.group_result_confidence in Hres as (L & _ & Hc).
    rewrite <- (length_map Short.Item_Name) in L.
    destruct (RaiseFacts.compute_confidence_ok_text _ _ L Hc) as [texts E].
    rewrite E in Hc, L. rewrite length_map in L.
    rewrite (SimilarityFacts.compute_confidence_text texts L) in Hc.
    injection Hc as <-.
    destruct (RoundFacts.mean_bounds 1
                (map Short.pair_ratio (Short.pairs texts))) as [M0 M1].
    - intros E'. apply map_eq_nil in E'.
      now apply SimilarityFacts.pairs_length in E'.
    - apply SimilarityFacts.scores_range.
    - apply (RoundFacts.round_percent _ 1); [auto | lra | lra]. }
  unfold Short.compare in H.
  destruct (Short.mapM _ _) as [results|]; simpl in H; [|discriminate].
  injection H as <-. cbn [Short.matched Short.unmatched] in *.
  unfold ShortMain.highlighted, Short.HIGHLIGHT_THRESHOLD,
         Short.CONFIDENCE_THRESHOLD in *.
  split; intros r Hr.
  - destruct (Range r (or_introl Hr)) as [R0 R1].
    apply filter_In in Hr as [_ Hc]. apply Qle_bool_iff in Hc.
    repeat split; auto.
    + destruct (Qlt_le_dec (Short.Confidence r) 30); [auto | discriminate].
    + intros Hlt. destruct (Qlt_le_dec (Short.Confidence r) 30);
        [reflexivity | lra].
  - destruct (Range r (or_intror Hr)) as [R0 R1].
    apply filter_In in Hr as [_ Hc].
    assert (Hlt : (Short.Confidence r < 10)%Q).
    { destruct (Qlt_le_dec (Short.Confidence r) 10) as [|Hge]; [assumption|].
      apply Qle_bool_iff in Hge. rewrite Hge in Hc. discriminate. }
    repeat split; auto.
    destruct (Qlt_le_dec (Short.Confidence r) 30); [reflexivity | lra].
Qed.

(** X11 at an instance: the Widget category. *)
Lemma X11_witness_widget :
  exists out r,
    Short.compare (concat (Short.all_data Scenario.widget)) = Short.Ok out
    /\ Short.matched out = [r]
    /\ (10 <= Short.Confidence r)%Q.
Proof.
  destruct (Short.compare (concat (Short.all_data Scenario.widget)))
    as [out|e] eqn:E; [|vm_compute in E; discriminate E].
  destruct (Short.matched out) as [|r [|]] eqn:M;
    try (vm_compute in E; injection E as <-; discriminate M).
  exists out, r. split; [reflexivity|]. split; [exact M|].
  apply (proj1 (X11_short_tiers_and_highlight _ _ E) r).
  rewrite M. now left.
Defined.

(** X12.  The loop of the short-form script over the groups raises
    nothing but a [TypeError], and raises it exactly when some group has
    two priced rows or more of which one has an item name that is not
    text: an empty cell, a number, a date or a boolean, which the script
    hands to [SequenceMatcher] as read.  No table is produced then. *)
Theorem X12_short_raises_iff_priced_name_is_not_text :
  forall combined,
    (forall e, Short.compare combined = Short.Raise e -> e = Short.TypeError)
    /\ (Short.compare combined = Short.Raise Short.TypeError <->
        exists l,
          In l combined /\ Short.New_Price l <> None
          /\ Pandas.is_text (Short.Item_Name l) = false
          /\ 2 <= length (Short.dropna_price
                            (rows_of Short.Normalized_Code combined
                                     (Short.Normalized_Code l)))).
Proof.
  intros combined. unfold Short.compare.
  destruct (RaiseFacts.mapM_raise
              (fun cg => Short.group_result (fst cg) (snd cg))
              Short.TypeError (groupby Short.Normalized_Code combined))
    as [R1 R2].
  { intros [c g] e He. now apply RaiseFacts.group_result_raise in He. }
  destruct (Short.mapM _ (groupby Short.Normalized_Code combined))
    as [results|e] eqn:M; simpl.
  - split; [discriminate|]. split; [discriminate|].
    intros (l & Hl & Hp & Hn & L). exfalso.
    assert (R : Short.Raise (A := list (option Short.result)) Short.TypeError
                = Short.Raise Short.TypeError) by reflexivity.
    destruct R2 as [_ R2]. discriminate R2.
    exists (Short.Normalized_Code l,
            rows_of Short.Normalized_Code combined (Short.Normalized_Code l)).
    split; [now apply PandasFacts.groupby_of_row|]. cbn [fst snd].
    apply RaiseFacts.group_result_raise. split; [exact L|].
    exists l. split; [|exact Hn].
    apply ShortPriceFacts.dropna_price_in. split; [|exact Hp].
    now apply PandasFacts.rows_of_in.
  - rewrite (R1 e eq_refl) in *.
    split; [intros e' H; now injection H|].
    split; [|reflexivity]. intros _.
    destruct (proj1 R2 eq_refl) as ([c g] & Hg & Hr). cbn [fst snd] in Hr.
    apply PandasFacts.groupby_in in Hg as [_ ->].
    apply RaiseFacts.group_result_raise in Hr as (L & l & Hl & Hn).
    apply ShortPriceFacts.dropna_price_in in Hl as [Hl Hp].
    apply PandasFacts.rows_of_in in Hl as [Hl <-].
    exists l. auto.
Qed.

(** ** Identical names *)

Module DiagonalFacts.

Import Difflib.

Section Same.
Variable a : list ascii.
Hypothesis short : length a < 200.

Lemma not_popular c : popular a c = false.
Proof.
  unfold popular. destruct (Nat.leb_spec 200 (length a)); [lia | reflexivity].
Qed.

Lemma indices_from_sorted s c : forall j0,
  StronglySorted lt (indices_from j0 s c)
  /\ Forall (fun j => j0 <= j < j0 + length s) (indices_from j0 s c).
Proof.
  induction s as [|x s IH]; intros j0; simpl; [split; constructor|].
  destruct (IH (S j0)) as [Hsort F].
  assert (F' : Forall (fun j => j0 <= j < j0 + S (length s))
                      (indices_from (S j0) s c))
    by (eapply Forall_impl; [|exact F]; simpl; intros; lia).
  destruct (Ascii.eqb x c); [|now split].
  split.
  - constructor; [exact Hsort|].
    eapply Forall_impl; [|exact F]. simpl. intros; lia.
  - constructor; [lia | exact F'].
Qed.

Lemma indices_from_in s : forall j0 i,
  i < length s -> In (j0 + i) (indices_from j0 s (item s i)).
Proof.
  unfold item. induction s as [|x s IH]; intros j0 i Hi; simpl in *; [lia|].
  destruct i as [|i].
  - rewrite Ascii.eqb_refl, Nat.add_0_r. now left.
  - replace (j0 + S i) with (S j0 + i) by lia.
    specialize (IH (S j0) i ltac:(lia)).
    destruct (Ascii.eqb x (nth i s zero)); [now right | exact IH].
Qed.

(** Once the entry of column [i] is written, the rest of the row leaves
    it alone and the best match does not shrink. *)
Lemma scan_row_after i n j2len js : forall new best v,
  Forall (fun j => i < j < n) js -> get new i = v ->
  get (fst (scan_row i 0 n j2len js new best)) i = v
  /\ size best <= size (snd (scan_row i 0 n j2len js new best)).
Proof.
  induction js as [|j js IH]; intros new best v F G; simpl; [auto|].
  inversion F as [|? ? Hj F']; subst.
  destruct (Nat.leb_spec n j); [lia|].
  destruct (IH ((j, get_prev j2len j + 1) :: new)
               (if size best <? get_prev j2len j + 1
                then (i + 1 - (get_prev j2len j + 1),
                      j + 1 - (get_prev j2len j + 1),
                      get_prev j2len j + 1)
                else best) (get new i) F') as [H1 H2].
  - simpl. destruct (Nat.eqb_spec j i); [lia | reflexivity].
  - split; [exact H1|].
    eapply Nat.le_trans; [|exact H2].
    destruct (Nat.ltb_spec (size best) (get_prev j2len j + 1));
      [cbn; lia | lia].
Qed.

(** A row that meets the diagonal writes [i + 1] in column [i]. *)
Lemma scan_row_diag i n j2len js : forall new best,
  StronglySorted lt js -> Forall (fun j => j < n) js -> In i js ->
  get_prev j2len i = i ->
  get (fst (scan_row i 0 n j2len js new best)) i = i + 1
  /\ i + 1 <= size (snd (scan_row i 0 n j2len js new best)).
Proof.
  induction js as [|j js IH]; intros new best Hsort F Hin P; [contradiction|].
  inversion Hsort as [|? ? Hsort' Fj]; subst. inversion F as [|? ? Hj F']; subst.
  simpl. destruct (Nat.leb_spec n j); [lia|].
  destruct (Nat.eq_dec j i) as [->|Hne].
  - rewrite P.
    assert (F2 : Forall (fun j => i < j < n) js).
    { rewrite Forall_forall in *. intros x Hx.
      split; [now apply Fj | now apply F']. }
    destruct (scan_row_after i n j2len js ((i, i + 1) :: new)
                (if size best <? i + 1
                 then (i + 1 - (i + 1), i + 1 - (i + 1), i + 1) else best)
                (i + 1) F2) as [H1 H2].
    + simpl. now rewrite Nat.eqb_refl.
    + split; [exact H1|].
      eapply Nat.le_trans; [|exact H2].
      destruct (Nat.ltb_spec (size best) (i + 1)); [cbn; lia | lia].
  - apply IH; auto. destruct Hin; [congruence | assumption].
Qed.

(** After [len] rows from row [i], the best match is at least as long as
    the diagonal up to there. *)
Lemma scan_diag len : forall i j2len best,
  i + len <= length a -> get_prev j2len i = i -> i <= size best ->
  i + len <= size (scan a a (seq i len) 0 (length a) j2len best).
Proof.
  induction len as [|len IH]; intros i j2len best Hlen P B; simpl; [lia|].
  assert (Hi : i < length a) by lia.
  destruct (indices_from_sorted a (item a i) 0) as [Hsort F].
  pose proof (indices_from_in a 0 i Hi) as Hin. simpl in Hin.
  destruct (scan_row_diag i (length a) j2len (b2j a (item a i)) [] best)
    as [H1 H2]; unfold b2j; rewrite ?not_popular; auto.
  { eapply Forall_impl; [|exact F]. simpl. intros; lia. }
  unfold b2j in *. rewrite not_popular in *.
  destruct (scan_row i 0 (length a) j2len (indices_from 0 a (item a i))
                     [] best) as [new best'].
  cbn [fst snd] in H1, H2.
  specialize (IH (S i) new best' ltac:(lia)
                 ltac:(cbn [get_prev]; lia) ltac:(lia)). lia.
Qed.

(** The longest match of a sequence with itself is the whole sequence. *)
Lemma find_longest_match_same :
  find_longest_match a a 0 (length a) 0 (length a) = (0, 0, length a).
Proof.
  unfold find_longest_match.
  pose proof (scan_diag (length a) 0 [] (0, 0, 0) ltac:(lia) eq_refl
                        ltac:(cbn; lia)) as Hsize.
  pose proof (DifflibFacts.scan_inside a a 0 (length a) 0 (length a)
                (length a) 0 [] (0, 0, 0) ltac:(lia) ltac:(lia)
                (Forall_nil _) ltac:(unfold inside; lia)) as Hin.
  rewrite Nat.sub_0_r.
  destruct (scan a a (seq 0 (length a)) 0 (length a) [] (0, 0, 0))
    as [[i j] k].
  unfold inside in Hin. cbn [size snd] in Hsize.
  assert (i = 0) by lia. assert (j = 0) by lia.
  assert (k = length a) by lia. subst i j k.
  cbn [extend_back Nat.add]. rewrite Nat.sub_diag.
  cbn [extend_fwd extend_back Nat.add]. rewrite ?Nat.sub_diag.
  reflexivity.
Qed.

Lemma matches_same : matches a a = length a.
Proof.
  unfold matches, get_matching_blocks. cbn [matching_blocks].
  rewrite find_longest_match_same.
  destruct (Nat.eqb_spec (length a) 0) as [->|]; [reflexivity|].
  rewrite Nat.ltb_irrefl. cbn [andb app].
  rewrite Nat.add_0_l, Nat.ltb_irrefl. cbn. lia.
Qed.

End Same.

Lemma length_list_ascii s : length (list_ascii_of_string s) = String.length s.
Proof. induction s; simpl; congruence. Qed.

(** The ratio of a text shorter than 200 characters with itself is 1. *)
Lemma ratio_same s : String.length s < 200 -> (ratio s s == 1)%Q.
Proof.
  intros H. unfold ratio. rewrite matches_same
    by now rewrite length_list_ascii.
  rewrite length_list_ascii. unfold calculate_ratio.
  destruct (String.length s + String.length s) as [|n] eqn:E; [reflexivity|].
  unfold Qeq; cbn [Qnum Qden].
  rewrite <- Pos.of_nat_succ, Zpos_P_of_succ_nat. lia.
Qed.

End DiagonalFacts.

(** X13.  Two identical item names shorter than 200 characters have
    similarity 1, so both policies give them the confidence 100: the
    long-form confidence of a row in which two of the three names are
    such a pair is 100.00, and the short-form confidence of the pair is
    100.0. *)
Theorem X13_identical_names_score_100 :
  forall s,
    String.length s < 200 ->
    (Long.match_score (Some s) (Some s) == 1)%Q
    /\ (forall es i j,
           (i, j) = (0, 1) \/ (i, j) = (0, 2) \/ (i, j) = (1, 2) ->
           Long.name_at es i = Some s -> Long.name_at es j = Some s ->
           Long.confidence es = Qmake 10000 100)
    /\ Short.compute_confidence [Pandas.Text s; Pandas.Text s] = Short.Ok (Qmake 1000 10).
Proof.
  intros s Hs. pose proof (DiagonalFacts.ratio_same s Hs) as R.
  split; [exact R|]. split.
  - intros es i j Hij Hi Hj.
    assert (Hmax : (Long.max_score es == 1)%Q).
    { pose proof (PyFacts.max_from_in
                    [Long.match_score (Long.name_at es 0) (Long.name_at es 2);
                     Long.match_score (Long.name_at es 1) (Long.name_at es 2)]
                    (Long.match_score (Long.name_at es 0) (Long.name_at es 1)))
        as Hin.
      destruct (PyFacts.max_from_ge
                  [Long.match_score (Long.name_at es 0) (Long.name_at es 2);
                   Long.match_score (Long.name_at es 1) (Long.name_at es 2)]
                  (Long.match_score (Long.name_at es 0) (Long.name_at es 1)))
        as [G0 G12].
      inversion G12 as [|? ? G1 G2']; subst.
      inversion G2' as [|? ? G2 _]; subst.
      fold (Long.max_score es) in *.
      assert (Hle : (Long.max_score es <= 1)%Q).
      { destruct Hin as [H|[H|[H|[]]]]; rewrite <- H;
          apply SimilarityFacts.match_score_range. }
      apply Qle_antisym; [exact Hle|].
      destruct Hij as [E|[E|E]]; injection E as -> ->;
        rewrite Hi, Hj in *; cbn [Long.match_score] in *;
        rewrite <- R; assumption. }
    unfold Long.confidence.
    change (Py.round (Long.max_score es * 100) 2)
      with (Qmake (Py.round_half_even (Long.max_score es * 100 * 100)) 100).
    rewrite (SimilarityFacts.round_half_even_comp
               (Long.max_score es * 100 * 100) 10000)
      by (rewrite Hmax; reflexivity).
    reflexivity.
  - change [Pandas.Text s; Pandas.Text s] with (map Pandas.Text [s; s]).
    rewrite (SimilarityFacts.compute_confidence_text [s; s])
      by (simpl; lia).
    change (map Short.pair_ratio (Short.pairs [s; s]))
      with [Difflib.ratio s s].
    change (Py.round (Short.mean [Difflib.ratio s s] * 100) 1)
      with (Qmake (Py.round_half_even
                     (Short.mean [Difflib.ratio s s] * 100 * 10)) 10).
    rewrite (SimilarityFacts.round_half_even_comp
               (Short.mean [Difflib.ratio s s] * 100 * 10) 1000).
    + reflexivity.
    + unfold Short.mean, Py.sum. cbn [fold_left length].
      rewrite R. reflexivity.
Qed.

(** X13 at an instance: the name "Widget X1". *)
Lemma X13_witness_widget_name :
  Short.compute_confidence
    [Pandas.Text "Widget X1"; Pandas.Text "Widget X1"]
  = Short.Ok (Qmake 1000 10).
Proof.
  apply (X13_identical_names_score_100 "Widget X1"). simpl. lia.
Defined.

(** X12 at an instance: the priced row of [RaiseScenario.numbered],
    whose name cell holds a number. *)
Lemma X12_witness_numbered :
  Short.compare (concat (Short.all_data RaiseScenario.numbered))
  = Short.Raise Short.TypeError.
Proof.
  apply (proj2 (X12_short_raises_iff_priced_name_is_not_text _)).
  exists (Short.prepare_row R_2B RaiseScenario.numbered_row).
  split; [vm_compute; auto|]. split; [discriminate|].
  split; [reflexivity | vm_compute; lia].
Defined.

(** ** The run over the categories *)

Module RunFacts.

Import ShortMain.

(** The loop goes through the categories one after the other. *)
Lemma run_app read pre : forall post st,
  run read (pre ++ post) st
  = match run read pre st with
    | (st1, None) => run read post st1
    | (st1, Some e) => (st1, Some e)
    end.
Proof.
  induction pre as [|[c inner] pre IH]; intros post st; cbn [app run].
  - reflexivity.
  - destruct (length inner <? 2); [apply IH|].
    destruct (process read inner) as [[out|]|e]; [apply IH | apply IH|].
    reflexivity.
Qed.

Lemma process_raise read inner e :
  process read inner = Short.Raise e -> e = Short.TypeError.
Proof.
  unfold process. destruct (length inner <? 2); [discriminate|].
  destruct (length (load read inner) <? 2); [discriminate|].
  destruct (Short.compare (concat (load read inner))) as [out|e'] eqn:C;
    simpl; [discriminate|].
  intros H. injection H as <-.
  destruct (RaiseFacts.mapM_raise
              (fun cg => Short.group_result (fst cg) (snd cg))
              Short.TypeError
              (Pandas.groupby Short.Normalized_Code
                              (concat (load read inner)))) as [R1 _].
  { intros [c g] e He. now apply RaiseFacts.group_result_raise in He. }
  unfold Short.compare in C.
  destruct (Short.mapM _ _) as [results|e0] eqn:M; simpl in C;
    [discriminate|].
  injection C as <-. now apply R1.
Qed.

Lemma run_counts read cmap : forall st st' e,
  run read cmap st = (st', e) ->
  (e = None ->
   matched_categories st' + skipped_categories st'
   = matched_categories st + skipped_categories st + length cmap)
  /\ matched_categories st' + skipped_categories st'
     <= matched_categories st + skipped_categories st + length cmap
  /\ length (exported st') + matched_categories st
     <= length (exported st) + matched_categories st'
  /\ (forall e', e = Some e' -> e' = Short.TypeError).
Proof.
  induction cmap as [|[c inner] cmap IH]; intros st st' e H; cbn [run] in H.
  - injection H as <- <-. cbn [length]. repeat split; try lia. discriminate.
  - destruct (length inner <? 2).
    + apply IH in H as (H1 & H2 & H3 & H4). cbn in *.
      repeat split; auto; try lia. intros ->. specialize (H1 eq_refl). lia.
    + destruct (process read inner) as [[out|]|e0] eqn:P.
      * apply IH in H as (H1 & H2 & H3 & H4). cbn in *.
        rewrite length_app in H3. cbn in H3.
        repeat split; auto; try lia. intros ->. specialize (H1 eq_refl). lia.
      * apply IH in H as (H1 & H2 & H3 & H4). cbn in *.
        repeat split; auto; try lia. intros ->. specialize (H1 eq_refl). lia.
      * injection H as <- <-. cbn.
        repeat split; try lia; [discriminate|].
        intros e' E. injection E as <-. now apply process_raise in P.
Qed.

End RunFacts.

(** X14.  The short-form run handles the categories in turn.  A
    [TypeError] that leaves the loop over the groups is the only
    exception and ends the run: the categories after it are neither
    counted nor exported.  When nothing is raised, every category is
    counted once, as matched or as skipped, and at most as many
    categories are exported as were counted as matched. *)
Theorem X14_short_run_stops_at_first_exception :
  forall read pre post st st1,
    (forall e,
        ShortMain.run read pre st = (st1, Some e) ->
        e = Short.TypeError
        /\ ShortMain.run read (pre ++ post) st = (st1, Some e))
    /\ (ShortMain.run read pre st = (st1, None) ->
        ShortMain.run read (pre ++ post) st = ShortMain.run read post st1
        /\ ShortMain.matched_categories st1 + ShortMain.skipped_categories st1
           = ShortMain.matched_categories st + ShortMain.skipped_categories st
             + length pre
        /\ length (ShortMain.exported st1) + ShortMain.matched_categories st
           <= length (ShortMain.exported st) + ShortMain.matched_categories st1).
Proof.
  intros read pre post st st1. split.
  - intros e H. split.
    + destruct (RunFacts.run_counts _ _ _ _ _ H) as (_ & _ & _ & H4).
      now apply H4.
    + now rewrite RunFacts.run_app, H.
  - intros H. split; [now rewrite RunFacts.run_app, H|].
    destruct (RunFacts.run_counts _ _ _ _ _ H) as (H1 & _ & H3 & _).
    split; [now apply H1 | exact H3].
Qed.

(** X14 at an instance: [RaiseScenario.category_map]; the run stops at
    the second category and the third is not exported. *)
Lemma X14_witness_raise_scenario :
  exists st1,
    ShortMain.run RaiseScenario.read RaiseScenario.category_map
                  ShortMain.initial
    = (st1, Some Short.TypeError)
    /\ ShortMain.exported st1 = []
    /\ ShortMain.matched_categories st1 = 1
    /\ ShortMain.skipped_categories st1 = 1.
Proof.
  pose (pre := [("Fridges", [(R_2B, "2b_Fridges_2024-05-01.xlsx")]);
                ("Irons", [(R_2B, "2b_Irons_2024-05-01.xlsx");
                           (R_Btech, "btech_Irons_2024-05-01.xlsx")])]
              : category_dict).
  pose (post := [("TVs", [(R_2B, "2b_TVs_2024-05-01.xlsx");
                          (R_Btech, "btech_TVs_2024-05-01.xlsx")])]
               : category_dict).
  pose (st1 := {| ShortMain.exported := [];
                  ShortMain.matched_categories := 1;
                  ShortMain.skipped_categories := 1 |}).
  assert (H : ShortMain.run RaiseScenario.read pre ShortMain.initial
              = (st1, Some Short.TypeError)) by (vm_compute; reflexivity).
  exists st1. split; [|repeat split].
  exact (proj2 (proj1 (X14_short_run_stops_at_first_exception
                         RaiseScenario.read pre post ShortMain.initial st1)
                      Short.TypeError H)).
Defined.

(** ** The summary of the long-form run *)

Module SummaryFacts.

Lemma set_keys_NoDup {V} (d : Dict.dict (V := V)) k v :
  NoDup (Dict.keys d) -> NoDup (Dict.keys (Dict.set String.eqb d k v)).
Proof.
  intros ND. rewrite (DictFacts.keys_set String.eqb).
  destruct (Dict.get String.eqb d k) eqn:G; [exact ND|].
  apply (DictFacts.get_none String.eqb ScanFacts.string_eqb_eq) in G.
  apply NoDup_Add with (a := k) (l := Dict.keys d).
  - rewrite <- (app_nil_r (Dict.keys d)) at 1. apply Add_app.
  - now split.
Qed.

Lemma long_record_NoDup m r f :
  NoDup (map fst m) -> NoDup (map fst (LongMain.record m r f)).
Proof.
  intros H. unfold LongMain.record.
  destruct (LongMain.extract_info_from_filename f) as [[n c]|]; [|exact H].
  destruct (negb _ && negb _); [|exact H]. now apply set_keys_NoDup.
Qed.

Lemma short_record_NoDup m r f :
  NoDup (map fst m) -> NoDup (map fst (ShortMain.record m r f)).
Proof.
  intros H. unfold ShortMain.record.
  destruct (ShortMain.extract_info_from_filename f) as [[n c]|]; [|exact H].
  destruct (negb _ && negb _); [|exact H]. now apply set_keys_NoDup.
Qed.

Lemma fold_NoDup (step : category_dict -> string -> category_dict) files :
  (forall m f, NoDup (map fst m) -> NoDup (map fst (step m f))) ->
  forall m, NoDup (map fst m) -> NoDup (map fst (fold_left step files m)).
Proof.
  intros Hstep. induction files as [|f files IH]; simpl; auto.
Qed.

(** No category is a key of the map twice. *)
Lemma scan_NoDup fs :
  NoDup (map fst (LongMain.scan fs)) /\ NoDup (map fst (ShortMain.scan fs)).
Proof.
  unfold LongMain.scan, ShortMain.scan, LongMain.scan_folder,
         ShortMain.scan_folder, RETAILER_FOLDERS.
  cbn [fold_left]. split.
  - destruct (fs R_2B), (fs R_Btech), (fs R_Raneen);
      repeat (apply (fold_NoDup (fun m f => LongMain.record m _ f));
              [intros; now apply long_record_NoDup|]);
      constructor.
  - destruct (fs R_2B), (fs R_Btech), (fs R_Raneen);
      repeat (apply (fold_NoDup (fun m f => ShortMain.record m _ f));
              [intros; now apply short_record_NoDup|]);
      constructor.
Qed.

Lemma NoDup_keys_value {V} (l : list (string * V)) c v1 v2 :
  NoDup (map fst l) -> In (c, v1) l -> In (c, v2) l -> v1 = v2.
Proof.
  induction l as [|[c0 v0] l IH]; simpl; [contradiction|].
  intros ND [E1|H1] [E2|H2]; inversion ND as [|? ? Hn ND']; subst.
  - congruence.
  - injection E1 as -> ->. exfalso. apply Hn.
    now apply (in_map fst) in H2.
  - injection E2 as -> ->. exfalso. apply Hn.
    now apply (in_map fst) in H1.
  - now apply IH.
Qed.

Lemma NoDup_sub_keys {V W} (g : string * V -> list (string * W))
      (l : list (string * V)) :
  (forall cs x, In x (g cs) -> g cs = [x] /\ fst x = fst cs) ->
  NoDup (map fst l) -> NoDup (map fst (flat_map g l)).
Proof.
  intros Hg. induction l as [|cs l IH]; simpl; intros ND; [constructor|].
  inversion ND as [|? ? Hn ND']; subst. specialize (IH ND').
  destruct (g cs) as [|x xs] eqn:E; [exact IH|].
  destruct (Hg cs x) as [E1 Hk]; [rewrite E; now left|].
  rewrite E in E1. injection E1 as ->. simpl.
  constructor; [|exact IH].
  intros Hin. apply Hn. apply in_map_iff in Hin as (y & Ey & Hy).
  apply in_flat_map in Hy as (cs' & Hcs' & Hy).
  destruct (Hg cs' y Hy) as [_ Hk']. apply in_map_iff.
  exists cs'. split; [congruence | exact Hcs'].
Qed.

Lemma NoDup_map_filter {A B} (f : A -> B) (p : A -> bool) l :
  NoDup (map f l) -> NoDup (map f (filter p l)).
Proof.
  induction l as [|x l IH]; simpl; intros ND; [constructor|].
  inversion ND as [|? ? Hn ND']; subst. specialize (IH ND').
  destruct (p x); [|exact IH]. simpl.
  constructor; [|exact IH]. intros Hin. apply Hn.
  apply in_map_iff in Hin as (y & E & Hy). apply filter_In in Hy as [Hy _].
  apply in_map_iff. now exists y.
Qed.

End SummaryFacts.

(** X15.  Both scripts key the category map by distinct categories.  In
    the summary of the long-form script no category is listed twice, and
    none is listed both as matched and as skipped: a matched category has
    at least two recorded files, a skipped one fewer than two. *)
Theorem X15_long_summary_lists_are_disjoint :
  forall fs read,
    let category_map := LongMain.scan fs in
    NoDup (map fst category_map)
    /\ NoDup (map fst (ShortMain.scan fs))
    /\ NoDup (LongMain.matched_categories read category_map)
    /\ NoDup (map fst (LongMain.skipped_list category_map))
    /\ (forall c,
           In c (LongMain.matched_categories read category_map) ->
           ~ In c (map fst (LongMain.skipped_list category_map))).
Proof.
  intros fs read category_map.
  destruct (SummaryFacts.scan_NoDup fs) as [NL NS]. fold category_map in NL.
  split; [exact NL|]. split; [exact NS|].
  assert (Hg : forall (cs : string * inner_dict) (x : string * Long.output),
             In x match LongMain.process read (snd cs) with
                  | Some out => [(fst cs, out)]
                  | None => []
                  end ->
             match LongMain.process read (snd cs) with
             | Some out => [(fst cs, out)]
             | None => []
             end = [x] /\ fst x = fst cs).
  { intros cs x. destruct (LongMain.process read (snd cs));
      [|contradiction]. intros [<-|[]]. now split. }
  split; [|split].
  - unfold LongMain.matched_categories, LongMain.run.
    now apply SummaryFacts.NoDup_sub_keys.
  - unfold LongMain.skipped_list. rewrite map_map. cbn [fst].
    now apply SummaryFacts.NoDup_map_filter.
  - intros c Hm Hs.
    unfold LongMain.matched_categories, LongMain.run in Hm.
    apply in_map_iff in Hm as ([c1 out] & <- & Hm).
    apply in_flat_map in Hm as ([c2 inner] & Hin & Hm). cbn [fst snd] in Hm.
    destruct (LongMain.process read inner) as [out'|] eqn:P; [|contradiction].
    destruct Hm as [E|[]]. injection E as <- <-.
    unfold LongMain.skipped_list in Hs. rewrite map_map in Hs. cbn [fst] in Hs.
    apply in_map_iff in Hs as ([c3 inner'] & E & Hs). cbn [fst] in E. subst c3.
    apply filter_In in Hs as [Hin' Hlen]. cbn [snd] in Hlen.
    rewrite (SummaryFacts.NoDup_keys_value _ _ _ _ NL Hin Hin') in P.
    unfold LongMain.process in P. rewrite Hlen in P. discriminate.
Qed.

(** X15 at an instance: [ScanScenario.shops], with the Widget sheets
    behind every file. *)
Lemma X15_witness_shops :
  In "TVs" (LongMain.matched_categories
              (fun r (_ : string) => Scenario.widget r)
              (LongMain.scan ScanScenario.shops))
  /\ ~ In "TVs" (map fst (LongMain.skipped_list
                            (LongMain.scan ScanScenario.shops))).
Proof.
  assert (H : In "TVs" (LongMain.matched_categories
                          (fun r (_ : string) => Scenario.widget r)
                          (LongMain.scan ScanScenario.shops)))
    by (vm_compute; auto).
  split; [exact H|].
  exact (proj2 (proj2 (proj2 (proj2
           (X15_long_summary_lists_are_disjoint
              ScanScenario.shops
              (fun r (_ : string) => Scenario.widget r))))) "TVs" H).
Defined.

(** ** One listing per retailer: the two scripts agree *)

Module AgreeFacts.

(** The first least item of a list is unique. *)
Lemma first_min_unique {K} (pre : list (K * Q)) : forall pre' x x' post post',
  pre ++ x :: post = pre' ++ x' :: post' ->
  Forall (fun e => (snd x < snd e)%Q) pre ->
  Forall (fun e => (snd x <= snd e)%Q) post ->
  Forall (fun e => (snd x' < snd e)%Q) pre' ->
  Forall (fun e => (snd x' <= snd e)%Q) post' ->
  x = x'.
Proof.
  induction pre as [|y pre IH]; intros [|y' pre'] x x' post post' E P1 P2 P3 P4;
    cbn [app] in E.
  - now injection E.
  - injection E as -> ->. exfalso.
    inversion P3 as [|? ? Hlt _]; subst.
    rewrite Forall_forall in P2.
    specialize (P2 x' (in_elt _ _ _)).
    apply (Qlt_irrefl (snd x')). now apply Qlt_le_trans with (snd y').
  - injection E as E1 E2. subst y post'. exfalso.
    inversion P1 as [|? ? Hlt _]; subst.
    rewrite Forall_forall in P4.
    specialize (P4 x (in_elt _ _ _)).
    apply (Qlt_irrefl (snd x)). now apply Qlt_le_trans with (snd x').
  - injection E as <- E. inversion P1; subst. inversion P3; subst.
    now apply (IH pre' x x' post post').
Qed.

(** With one listing per retailer, the dict [prices] of the long-form
    row holds the priced listings of the group. *)
Lemma prices_of_merge_sorted code (g : list Long.listing) :
  StronglySorted before (map Long.Retailer g) ->
  Long.prices_of (Long.merge code g) = long_offers g.
Proof.
  intros S. unfold long_offers.
  destruct g as [|[n1 p1 c1 r1] [|[n2 p2 c2 r2] [|[n3 p3 c3 r3] [|l4 t]]]];
    cbn [map Long.Retailer] in S.
  - reflexivity.
  - destruct r1, p1; reflexivity.
  - inversion S as [|? ? _ F1]; subst.
    inversion F1 as [|? ? B12 _]; subst. unfold before in B12.
    destruct r1, r2; simpl in B12; try lia; destruct p1, p2; reflexivity.
  - inversion S as [|? ? S' F1]; subst.
    inversion F1 as [|? ? B12 F1']; subst. inversion F1' as [|? ? B13 _]; subst.
    inversion S' as [|? ? _ F2]; subst. inversion F2 as [|? ? B23 _]; subst.
    unfold before in *.
    destruct r1, r2, r3; simpl in *; try lia; destruct p1, p2, p3; reflexivity.
  - exfalso.
    inversion S as [|? ? S' F1]; subst.
    inversion F1 as [|? ? B12 F1']; subst. inversion F1' as [|? ? B13 F1'']; subst.
    inversion F1'' as [|? ? B14 _]; subst.
    inversion S' as [|? ? S'' F2]; subst.
    inversion F2 as [|? ? B23 F2']; subst. inversion F2' as [|? ? B24 _]; subst.
    inversion S'' as [|? ? _ F3]; subst. inversion F3 as [|? ? B34 _]; subst.
    unfold before in *.
    destruct r1, r2, r3, (Long.Retailer l4); simpl in *; lia.
Qed.

Lemma offers_eq (lg : list Long.listing) : forall (sg : list Short.listing),
  map (fun l => (Long.Retailer l, Long.New_Price l)) lg
  = map (fun l => (Short.Source l, Short.New_Price l)) sg ->
  long_offers lg = short_offers sg
  /\ map Long.Retailer lg = map Short.Source sg.
Proof.
  induction lg as [|l lg IH]; intros [|s sg] E; try discriminate;
    [now split|].
  cbn [map] in E. injection E as Er Ep E. destruct (IH sg E) as [IH1 IH2].
  unfold long_offers, short_offers in *. cbn [flat_map map].
  now rewrite Er, Ep, IH1, IH2.
Qed.

Lemma short_offers_dropna g :
  short_offers (Short.dropna_price g) = short_offers g.
Proof.
  unfold short_offers, Short.dropna_price.
  induction g as [|l g IH]; cbn [filter flat_map]; [reflexivity|].
  destruct (Short.New_Price l) as [p|] eqn:P; cbn; [|exact IH].
  now rewrite P, IH.
Qed.

Lemma short_offers_app g1 g2 :
  short_offers (g1 ++ g2) = short_offers g1 ++ short_offers g2.
Proof. unfold short_offers. apply flat_map_app. Qed.

Lemma offers_above m g :
  Forall (Short.above m) g ->
  Forall (fun e => (m < snd e)%Q) (short_offers g).
Proof.
  intros F. apply Forall_forall. intros e He.
  apply in_flat_map in He as (l & Hl & He).
  destruct (Short.New_Price l) as [p|] eqn:P; [|contradiction].
  destruct He as [<-|[]]. rewrite Forall_forall in F. now apply (F l Hl).
Qed.

Lemma offers_not_below m g :
  Forall (Short.not_below m) g ->
  Forall (fun e => (m <= snd e)%Q) (short_offers g).
Proof.
  intros F. apply Forall_forall. intros e He.
  apply in_flat_map in He as (l & Hl & He).
  destruct (Short.New_Price l) as [p|] eqn:P; [|contradiction].
  destruct He as [<-|[]]. rewrite Forall_forall in F. now apply (F l Hl).
Qed.

End AgreeFacts.

(** X16.  When a group holds at most one listing per retailer, in the
    order of the retailers and with the same prices in the two scripts,
    a row that the short-form script reports for it shows the best price
    of the long-form row and names the same retailer as the lowest one
    (under the key by which each script writes the retailer). *)
Theorem X16_scripts_agree_with_one_listing_per_retailer :
  forall code lgroup sgroup r,
    map (fun l => (Long.Retailer l, Long.New_Price l)) lgroup
    = map (fun l => (Short.Source l, Short.New_Price l)) sgroup ->
    StronglySorted before (map Short.Source sgroup) ->
    Short.group_result code sgroup = Short.Ok (Some r) ->
    Long.Best_Price (Long.exact_row code lgroup) = Some (Short.Best_Price r)
    /\ Long.Lowest_Retailer (Long.exact_row code lgroup)
       = Some (Short.Lowest_Retailer r).
Proof.
  intros code lgroup sgroup r E S Hres.
  destruct (AgreeFacts.offers_eq lgroup sgroup E) as [Eo Er].
  rewrite <- Er in S.
  pose proof (AgreeFacts.prices_of_merge_sorted code lgroup S) as Hp.
  destruct (ShortPriceFacts.group_result_best _ _ _ Hres)
    as (pre & best_row & post & Ed & Hprice & Hsrc & _ & Hpre & Hpost).
  assert (Hs : short_offers sgroup
               = short_offers pre
                 ++ (Short.Lowest_Retailer r, Short.Best_Price r)
                 :: short_offers post).
  { rewrite <- AgreeFacts.short_offers_dropna, Ed,
            AgreeFacts.short_offers_app.
    f_equal. unfold short_offers at 1. cbn [flat_map].
    rewrite Hprice, Hsrc. reflexivity. }
  cbn [Long.exact_row Long.Best_Price Long.Lowest_Retailer].
  rewrite Hp, Eo, Hs.
  destruct (Long.best (short_offers pre
                       ++ (Short.Lowest_Retailer r, Short.Best_Price r)
                       :: short_offers post)) as [bp br] eqn:B.
  unfold Long.best in B.
  destruct (short_offers pre
            ++ (Short.Lowest_Retailer r, Short.Best_Price r)
            :: short_offers post) as [|kv kvs] eqn:L;
    [now destruct (short_offers pre)|].
  destruct (Py.min_key (kv :: kvs)) as [k|] eqn:K;
    [|destruct kv; discriminate K].
  destruct (PyFacts.min_key_split _ _ K) as (pre2 & post2 & p & Es & Hm & H1 & H2).
  rewrite Hm in B. injection B as <- <-. cbn [fst snd].
  assert (U : (k, p) = (Short.Lowest_Retailer r, Short.Best_Price r)).
  { apply (AgreeFacts.first_min_unique pre2 (short_offers pre) _ _
             post2 (short_offers post)); auto.
    - now rewrite <- Es, <- L.
    - now apply AgreeFacts.offers_above.
    - now apply AgreeFacts.offers_not_below. }
  injection U as -> ->. now split.
Qed.

(** X16 at an instance: the three listings of [Scenario.tied_prices]. *)
Lemma X16_witness_tied_prices :
  exists r,
    Short.group_result "x1" (concat (Short.all_data Scenario.tied_prices))
    = Short.Ok (Some r)
    /\ Long.Lowest_Retailer
         (Long.exact_row "x1" (concat (Long.all_dfs Scenario.tied_prices)))
       = Some (Short.Lowest_Retailer r).
Proof.
  destruct (Short.group_result
              "x1" (concat (Short.all_data Scenario.tied_prices)))
    as [[r|]|e] eqn:E; try (vm_compute in E; discriminate E).
  exists r. split; [reflexivity|].
  apply (X16_scripts_agree_with_one_listing_per_retailer
           "x1" (concat (Long.all_dfs Scenario.tied_prices))
           (concat (Short.all_data Scenario.tied_prices)) r).
  - reflexivity.
  - vm_compute. repeat constructor.
  - exact E.
Defined.

(** ** The workbooks of the long-form script *)

(** X17.  For a category the long-form script writes the matched
    workbook at most: the weak-matched and the unmatched workbooks are
    never written.  The matched workbook is written exactly when two
    listings of different retailers share a code, and every row of it
    has the confidence 100 and no fill. *)
Theorem X17_long_writes_only_the_matched_workbook :
  forall combined,
    let out := Long.compare combined in
    let written := LongMain.export_results (Long.matched_rows out) None in
    LongMain.exports out = (written, None, None)
    /\ (written <> None <->
        exists l1 l2,
          In l1 combined /\ In l2 combined
          /\ Long.Normalized_Code l1 = Long.Normalized_Code l2
          /\ Long.Retailer l1 <> Long.Retailer l2)
    /\ (forall rows m fill,
           written = Some rows -> In (m, fill) rows ->
           fill = false /\ Long.Confidence m = 100%Q
           /\ In m (Long.matched_rows out)).
Proof.
  intros combined out written. subst out written.
  rewrite LongFacts.compare_tiers.
  cbn [Long.matched_rows Long.weak_matched_rows Long.unmatched_rows
       LongMain.exports].
  split; [reflexivity|]. split.
  - split.
    + intros Hw.
      destruct (Long.primary_pass combined) as [|m ms] eqn:P;
        [now elim Hw|].
      assert (Hm : In m (Long.primary_pass combined))
        by (rewrite P; now left).
      apply LongFacts.primary_pass_in in Hm as (code & _ & Hn & _).
      apply RetailerFacts.nunique_two_inv in Hn as (r1 & r2 & I1 & I2 & Hne).
      unfold Long.group_retailers in I1, I2.
      apply in_map_iff in I1 as (l1 & <- & I1).
      apply in_map_iff in I2 as (l2 & <- & I2).
      apply PandasFacts.rows_of_in in I1 as [I1 C1].
      apply PandasFacts.rows_of_in in I2 as [I2 C2].
      exists l1, l2. repeat split; congruence.
    + intros (l1 & l2 & H1 & H2 & Hc & Hr).
      destruct (LongFacts.exact_group combined l1 l2 H1 H2 Hc Hr)
        as (_ & _ & Hin & _).
      rewrite LongFacts.compare_tiers in Hin. cbn [Long.matched_rows] in Hin.
      destruct (Long.primary_pass combined); [contradiction | discriminate].
  - intros rows m fill Hw Hin.
    destruct (Long.primary_pass combined) as [|m0 ms] eqn:P;
      [discriminate|].
    cbn [LongMain.export_results] in Hw. injection Hw as <-.
    change ((m0, false) :: map (fun m : Long.merged => (m, false)) ms)
      with (map (fun m : Long.merged => (m, false)) (m0 :: ms)) in Hin.
    apply in_map_iff in Hin as (m' & E & Hm'). injection E as -> <-.
    split; [reflexivity|]. split; [|exact Hm'].
    rewrite <- P in Hm'.
    apply LongFacts.primary_pass_in in Hm' as (code & _ & _ & ->).
    reflexivity.
Qed.

(** X17 at an instance: the Widget category. *)
Lemma X17_witness_widget :
  exists rows,
    LongMain.export_results
      (Long.matched_rows
         (Long.compare (concat (Long.all_dfs Scenario.widget)))) None
    = Some rows
    /\ forall m fill, In (m, fill) rows ->
         fill = false /\ Long.Confidence m = 100%Q.
Proof.
  destruct (LongMain.export_results
              (Long.matched_rows
                 (Long.compare (concat (Long.all_dfs Scenario.widget)))) None)
    as [rows|] eqn:E; [|vm_compute in E; discriminate E].
  exists rows. split; [reflexivity|]. intros m fill Hin.
  destruct (X17_long_writes_only_the_matched_workbook
              (concat (Long.all_dfs Scenario.widget)))
    as (_ & _ & H).
  destruct (H rows m fill E Hin) as (Hf & Hc & _). now split.
Defined.

(** ** The two scans side by side *)

Module OutlineFacts.

Lemma keys_set_congr {V W} (d1 : Dict.dict (V := V)) :
  forall (d2 : Dict.dict (V := W)) k v1 v2,
    Dict.keys d1 = Dict.keys d2 ->
    Dict.keys (Dict.set retailer_eqb d1 k v1)
    = Dict.keys (Dict.set retailer_eqb d2 k v2).
Proof.
  unfold Dict.keys.
  induction d1 as [|[k1 w1] d1 IH]; intros [|[k2 w2] d2] k v1 v2 E;
    try discriminate; [reflexivity|].
  cbn [map fst] in E. injection E as -> E. cbn [Dict.set].
  destruct (retailer_eqb k2 k); cbn [map fst]; [now rewrite E|].
  f_equal. now apply IH.
Qed.

Lemma keys_setdefault {V} (d : Dict.dict (V := V)) k v :
  Dict.keys (Dict.setdefault retailer_eqb d k v)
  = Dict.keys (Dict.set retailer_eqb d k v).
Proof.
  unfold Dict.setdefault.
  destruct (Dict.get retailer_eqb d k) eqn:G; [|reflexivity].
  now rewrite (DictFacts.keys_set retailer_eqb), G.
Qed.

Lemma outline_get (m1 : category_dict) : forall (m2 : category_dict) c,
  outline m1 = outline m2 ->
  Dict.keys match Dict.get String.eqb m1 c with
            | Some d => d
            | None => []
            end
  = Dict.keys match Dict.get String.eqb m2 c with
              | Some d => d
              | None => []
              end.
Proof.
  unfold outline.
  induction m1 as [|[c1 i1] m1 IH]; intros [|[c2 i2] m2] c E;
    try discriminate; [reflexivity|].
  cbn [map fst snd] in E. injection E as -> Ei E. cbn [Dict.get].
  destruct (String.eqb c2 c); [exact Ei | now apply IH].
Qed.

Lemma outline_set (m1 : category_dict) : forall (m2 : category_dict) c i1 i2,
  outline m1 = outline m2 ->
  Dict.keys i1 = Dict.keys i2 ->
  outline (Dict.set String.eqb m1 c i1) = outline (Dict.set String.eqb m2 c i2).
Proof.
  unfold outline.
  induction m1 as [|[c1 j1] m1 IH]; intros [|[c2 j2] m2] c i1 i2 E Ei;
    try discriminate.
  - cbn [Dict.set map fst snd]. now rewrite Ei.
  - cbn [map fst snd] in E. injection E as -> Ej E. cbn [Dict.set].
    destruct (String.eqb c2 c); cbn [map fst snd].
    + now rewrite Ei, E.
    + rewrite Ej. f_equal. now apply IH.
Qed.

Lemma record_outline m1 m2 r f :
  outline m1 = outline m2 ->
  outline (LongMain.record m1 r f) = outline (ShortMain.record m2 r f).
Proof.
  intros E. unfold LongMain.record, ShortMain.record,
    LongMain.extract_info_from_filename, ShortMain.extract_info_from_filename.
  destruct (Filename.re_match f) as [[g1 g2]|] eqn:M; [|exact E].
  destruct (RecordedFacts.groups_nonempty f g1 g2 M) as [-> ->].
  apply outline_set; [exact E|].
  rewrite keys_setdefault. apply keys_set_congr. now apply outline_get.
Qed.

Lemma fold_outline r files : forall m1 m2,
  outline m1 = outline m2 ->
  outline (fold_left (fun m f => LongMain.record m r f) files m1)
  = outline (fold_left (fun m f => ShortMain.record m r f) files m2).
Proof.
  induction files as [|f files IH]; intros m1 m2 E; cbn [fold_left];
    [exact E|].
  apply IH. now apply record_outline.
Qed.

Lemma folder_outline fs r m1 m2 :
  outline m1 = outline m2 ->
  outline match fs r with
          | Some listing => LongMain.scan_folder m1 r listing
          | None => m1
          end
  = outline match fs r with
            | Some listing => ShortMain.scan_folder m2 r listing
            | None => m2
            end.
Proof.
  intros E. destruct (fs r) as [listing|]; [|exact E].
  now apply fold_outline.
Qed.

(** The lists that a script writes are the outline under its keys. *)
Lemma logged_outline (key : retailer -> string) (m : category_dict) :
  map (fun cs => (fst cs, map (fun rf => key (fst rf)) (snd cs))) m
  = map (fun o => (fst o, map key (snd o))) (outline m).
Proof.
  unfold outline, Dict.keys. rewrite map_map. apply map_ext.
  intros [c i]. cbn [fst snd]. now rewrite map_map.
Qed.

Lemma skipped_outline (key : retailer -> string) (m : category_dict) :
  map (fun cs => (fst cs, map (fun rf => key (fst rf)) (snd cs)))
      (filter (fun cs => length (snd cs) <? 2) m)
  = map (fun o => (fst o, map key (snd o)))
        (filter (fun o => length (snd o) <? 2) (outline m)).
Proof.
  unfold outline, Dict.keys.
  induction m as [|[c i] m IH]; cbn [filter map fst snd]; [reflexivity|].
  rewrite length_map. destruct (length i <? 2); cbn [map fst snd];
    rewrite IH; [now rewrite map_map | reflexivity].
Qed.

(** The short-form keys are the long-form keys in upper case. *)
Lemma key_upper r : Short.key r = Filename.upper (Long.key r).
Proof. now destruct r. Qed.

Lemma respell (o : list (string * list retailer)) :
  map (fun o => (fst o, map Short.key (snd o))) o
  = map (fun cr => (fst cr, map Filename.upper (snd cr)))
        (map (fun o => (fst o, map Long.key (snd o))) o).
Proof.
  rewrite map_map. apply map_ext. intros [c rs]. cbn [fst snd].
  rewrite map_map. f_equal. apply map_ext. intros r. apply key_upper.
Qed.

End OutlineFacts.

(** X18.  From the same folders the two scripts find the same
    categories, in the same order, with files from the same folders
    under each, and count the same number of categories; the files they
    record may differ.  The scripts write the folders under different
    keys, so the lists they log and their skipped lists are not the
    same text: those of the short-form script are those of the long-form
    script with every key in upper case ("BTECH" for "Btech", "RANEEN"
    for "Raneen"). *)
Theorem X18_scans_find_same_categories_and_folders :
  forall fs,
    outline (LongMain.scan fs) = outline (ShortMain.scan fs)
    /\ length (LongMain.scan fs) = length (ShortMain.scan fs)
    /\ ShortMain.logged (ShortMain.scan fs)
       = map (fun cr => (fst cr, map Filename.upper (snd cr)))
             (LongMain.logged (LongMain.scan fs))
    /\ ShortMain.skipped_list (ShortMain.scan fs)
       = map (fun cr => (fst cr, map Filename.upper (snd cr)))
             (LongMain.skipped_list (LongMain.scan fs)).
Proof.
  intros fs.
  assert (E : outline (LongMain.scan fs) = outline (ShortMain.scan fs)).
  { unfold LongMain.scan, ShortMain.scan, RETAILER_FOLDERS.
    cbn [fold_left].
    apply OutlineFacts.folder_outline, OutlineFacts.folder_outline,
          OutlineFacts.folder_outline.
    reflexivity. }
  assert (Hs : ShortMain.skipped_list (ShortMain.scan fs)
               = map (fun cr => (fst cr, map Filename.upper (snd cr)))
                     (LongMain.skipped_list (LongMain.scan fs))).
  { unfold LongMain.skipped_list, ShortMain.skipped_list.
    rewrite !OutlineFacts.skipped_outline, E. apply OutlineFacts.respell. }
  split; [exact E|]. split; [|split; [|exact Hs]].
  - unfold outline in E. apply (f_equal (@length _)) in E.
    now rewrite !length_map in E.
  - unfold LongMain.logged, ShortMain.logged.
    rewrite !OutlineFacts.logged_outline, E. apply OutlineFacts.respell.
Qed.

(** X18 at an instance: what the two scripts log for
    [ScanScenario.shops]. *)
Lemma X18_witness_shops :
  LongMain.logged (LongMain.scan ScanScenario.shops)
  = [("TVs", ["2B"; "Btech"]); ("Fridges", ["2B"])]
  /\ ShortMain.logged (ShortMain.scan ScanScenario.shops)
     = [("TVs", ["2B"; "BTECH"]); ("Fridges", ["2B"])].
Proof.
  destruct (X18_scans_find_same_categories_and_folders ScanScenario.shops)
    as (_ & _ & H & _).
  split; [reflexivity | rewrite H; reflexivity].
Defined.
